(** * The LXD image vault of multipass

    A shallow embedding of [src/platform/backends/lxd/lxd_vm_image_vault.cpp]
    and the properties its specification states about it.

    Conventions of the embedding:
    - [QString] and [std::string] are both [string]; [toStdString] and
      [fromStdString] are the identity (the text is taken to be valid UTF-8);
    - a [QJsonObject] is a [gmap string QJsonValue];
    - every effect of the vault goes through one state-and-exception monad
      [M]; its state holds the state of the outside world and the record, in
      the order they happen, of the requests on the LXD socket, the calls of
      the progress monitor, the log lines and the sleeps;
    - the polling loop, which the source writes [while (true)], takes a
      number of turns it may make at most ([fuel]) and ends in [OutOfFuel]
      when they are used up;
    - a time point of the system clock is its count of nanoseconds since
      the epoch, a 64-bit signed integer whose arithmetic wraps around;
    - the collaborators that live outside the file (the LXD transport
      [lxd_request], the monitor callback, the system clock, the platform
      predicates, Qt's date parser) are parameters of the model. *)

From Stdlib Require Import QArith Ascii String.
From stdpp Require Import gmap strings list fin_maps.

Set Warnings "-register-all".
Local Open Scope string_scope.
Local Open Scope Z_scope.

(** ** Machine integers *)

Definition INT_MIN : Z := - 2 ^ 31.
Definition INT_MAX : Z := 2 ^ 31 - 1.

Definition fits_int (z : Z) : bool := (INT_MIN <=? z) && (z <=? INT_MAX).

Definition INT64_MIN : Z := - 2 ^ 63.
Definition INT64_MAX : Z := 2 ^ 63 - 1.

(** What a 64-bit signed integer holds when the exact result of an operation
    is [z]: the representative of [z] modulo [2 ^ 64] in the range of the
    type. *)
Definition wrap64 (z : Z) : Z := (z + 2 ^ 63) mod 2 ^ 64 - 2 ^ 63.

(** ** [std::chrono]

    A [system_clock::time_point] and the durations it is compared with are
    counts of nanoseconds in a 64-bit signed integer (libstdc++, the library
    of the Linux hosts on which the LXD backend runs); a time point is
    modelled by its count since the epoch.  Conversions to that unit multiply
    in the 64-bit integer. *)

Module chrono.

Definition nanoseconds_in_millisecond : Z := 1000000.

Definition nanoseconds_in_day : Z := 86400000000000.

(** [system_clock::time_point(std::chrono::milliseconds(count))] *)
Definition time_point_of_milliseconds (count : Z) : Z :=
  wrap64 (count * nanoseconds_in_millisecond).

(** Modelled from the spec: the expiry period is a whole number of days
    ([days], a duration whose declaration is not among the sources); this is
    its conversion to the unit of the clock when it is added to a time
    point. *)
Definition nanoseconds_of_days (count : Z) : Z :=
  wrap64 (count * nanoseconds_in_day).

(** [time_point + duration] *)
Definition plus (t d : Z) : Z := wrap64 (t + d).

End chrono.

(** ** Characters and [QString] helpers *)

Module QChar.

Definition code (a : ascii) : Z := Z.of_nat (nat_of_ascii a).

(** [\d] without the Unicode-properties option: the ASCII digits. *)
Definition is_digit (a : ascii) : bool := (48 <=? code a) && (code a <=? 57).

(** [\s] without the Unicode-properties option: HT, LF, VT, FF, CR, space. *)
Definition is_space (a : ascii) : bool :=
  ((9 <=? code a) && (code a <=? 13)) || (code a =? 32).

Definition is_percent (a : ascii) : bool := code a =? 37.

Definition digit_value (a : ascii) : Z := code a - 48.

End QChar.

Module QStr.

Fixpoint take (n : nat) (s : string) : string :=
  match n, s with
  | S n', String a s' => String a (take n' s')
  | _, _ => ""
  end.

Fixpoint drop (n : nat) (s : string) : string :=
  match n, s with
  | S n', String _ s' => drop n' s'
  | _, _ => s
  end.

(** [QString::startsWith], case sensitive. *)
Definition startsWith (s pre : string) : bool := String.prefix pre s.

Fixpoint decimal_value (acc : Z) (s : string) : option Z :=
  match s with
  | "" => Some acc
  | String a s' =>
      if QChar.is_digit a
      then decimal_value (10 * acc + QChar.digit_value a) s'
      else None
  end.

Definition unsigned_value (s : string) : option Z :=
  match s with
  | "" => None
  | _ => decimal_value 0 s
  end.

(** [QString::toInt()] in base 10: the value when the text is an optionally
    signed decimal number that fits an [int], and 0 when the conversion
    fails. *)
Definition toInt (s : string) : Z :=
  let signed :=
    match s with
    | String "-" s' => (fun v : Z => - v) <$> unsigned_value s'
    | String "+" s' => unsigned_value s'
    | _ => unsigned_value s
    end in
  match signed with
  | Some v => if fits_int v then v else 0
  | None => 0
  end.

End QStr.

(** ** A backtracking matcher for the fragment of regular expressions the
       vault uses: a sequence of bounded, greedy repetitions of character
       classes, some of them capture groups. *)

Module QRegularExpression.

Record piece : Type := Piece {
  cls : ascii -> bool;
  rmin : nat;
  rmax : nat;
  captured : bool
}.

(** Length of the longest prefix of [s], of at most [limit] characters, all
    in the class [c]. *)
Fixpoint run_length (c : ascii -> bool) (limit : nat) (s : string) : nat :=
  match limit, s with
  | S l, String a s' => if c a then S (run_length c l s') else 0%nat
  | _, _ => 0%nat
  end.

(** Greedy repetition: the longest count first, then one less, down to
    [lo]. *)
Fixpoint backoff {R : Type} (k lo : nat) (try : nat -> option R) : option R :=
  match try k with
  | Some r => Some r
  | None =>
      match k with
      | O => None
      | S k' => if (lo <=? k')%nat then backoff k' lo try else None
      end
  end.

(** The captures of a match of [ps] anchored at the start of [s]. *)
Fixpoint match_here (ps : list piece) (s : string) : option (list string) :=
  match ps with
  | [] => Some []
  | p :: ps' =>
      let n := run_length (cls p) (rmax p) s in
      if (n <? rmin p)%nat then None
      else backoff n (rmin p) (fun k =>
             match match_here ps' (QStr.drop k s) with
             | Some caps => Some (if captured p then QStr.take k s :: caps else caps)
             | None => None
             end)
  end.

(** [QRegularExpression::match]: the leftmost match. *)
Fixpoint rmatch (ps : list piece) (s : string) : option (list string) :=
  match match_here ps s with
  | Some caps => Some caps
  | None =>
      match s with
      | "" => None
      | String _ s' => rmatch ps s'
      end
  end.

End QRegularExpression.

(** ** [parse_percent_as_int] *)

(** The pattern ["\\s(\\d{1,3})%"]. *)
Definition percent_re : list QRegularExpression.piece :=
  [ QRegularExpression.Piece QChar.is_space 1 1 false;
    QRegularExpression.Piece QChar.is_digit 1 3 true;
    QRegularExpression.Piece QChar.is_percent 1 1 false ].

Definition parse_percent_as_int (progress_string : string) : Z :=
  match QRegularExpression.rmatch percent_re progress_string with
  | Some (captured1 :: _) => QStr.toInt captured1
  | Some [] => QStr.toInt ""
  | None => -1
  end.

(** ** JSON values as Qt presents them *)

Inductive QJsonValue : Type :=
| JNull
| JUndefined
| JBool (b : bool)
| JDouble (d : Q)
| JString (s : string)
| JArray (a : list QJsonValue)
| JObject (o : gmap string QJsonValue).

Abbreviation QJsonObject := (gmap string QJsonValue) (only parsing).

Module QJson.

(** [object[key]]: the value, or Undefined when the key is absent.  (On an
    object that is not const, Qt also stores a null member under an absent
    key; the vault reads such a member back only through the conversions
    below, which treat null and undefined alike, and tests no key with
    [contains] after it has indexed it.) *)
Definition value (o : QJsonObject) (key : string) : QJsonValue :=
  default JUndefined (o !! key).

Definition contains (o : QJsonObject) (key : string) : bool :=
  bool_decide (is_Some (o !! key)).

Definition toObject (v : QJsonValue) : QJsonObject :=
  match v with JObject o => o | _ => ∅ end.

Definition toArray (v : QJsonValue) : list QJsonValue :=
  match v with JArray a => a | _ => [] end.

Definition toString (v : QJsonValue) : string :=
  match v with JString s => s | _ => "" end.

Definition toBool (v : QJsonValue) : bool :=
  match v with JBool b => b | _ => false end.

(** [toInt(defaultValue)]: the number when the value is a number that is
    integral and fits an [int], the default otherwise. *)
Definition toInt (v : QJsonValue) (defaultValue : Z) : Z :=
  match v with
  | JDouble d =>
      let i := Qnum d / Z.pos (Qden d) in
      if (Qnum d mod Z.pos (Qden d) =? 0) && fits_int i then i else defaultValue
  | _ => defaultValue
  end.

(** [value == QStringLiteral(s)]. *)
Definition equals_string (v : QJsonValue) (s : string) : bool :=
  match v with JString s' => String.eqb s' s | _ => false end.

Definition number (z : Z) : QJsonValue := JDouble (inject_Z z).

End QJson.

(** ** The data model *)

(** Modelled from the spec: the headers that declare [Query], [VMImageInfo],
    [VMImage], [FetchType], the progress types and the exception classes are
    not among the sources.  The records have the fields that section 3 of the
    specification lists and that the vault reads or writes. *)

Inductive QueryType : Type := Alias | LocalFile | HttpDownload.

Definition QueryType_eqb (a b : QueryType) : bool :=
  match a, b with
  | Alias, Alias | LocalFile, LocalFile | HttpDownload, HttpDownload => true
  | _, _ => false
  end.

Record Query : Type := mkQuery {
  name : string;
  release : string;
  persistent : bool;
  remote_name : string;
  query_type : QueryType
}.

Module VMImageInfo.
Record t : Type := mk {
  aliases : list string;
  release_title : string;
  id : string;
  stream_location : string;
  version : string;
  kernel_location : string;
  initrd_location : string;
  verify : bool
}.
End VMImageInfo.

Module VMImage.
Record t : Type := mk {
  image_path : string;
  kernel_path : string;
  initrd_path : string;
  id : string;
  stream_location : string;
  original_release : string;
  release_date : string;
  aliases : list string
}.
End VMImage.

Inductive FetchType : Type := ImageOnly | ImageKernelAndInitrd.

Inductive LaunchProgress : Type := IMAGE | KERNEL | INITRD | EXTRACT | VERIFY | WAITING.

Module Level.
Inductive t : Type := error | warning | info | debug | trace.
End Level.

Inductive exception : Type :=
| LXDNotFoundException
| runtime_error (what : string)
| AbortedDownloadException (what : string).

(** Modelled from the spec: a catalog backend, with the three operations of
    section 6: [supported_remotes], [info_for] (here [host_info_for]), which
    may find nothing, and [info_for_full_hash], which fails when the hash is
    unknown. *)
Record VMImageHost : Type := mkVMImageHost {
  host_info_for : Query -> option VMImageInfo.t;
  info_for_full_hash : string -> exception + VMImageInfo.t;
  supported_remotes : list string
}.

(** ** Effects *)

Record request : Type := mkRequest {
  verb : string;
  url : string;
  body : option (gmap string QJsonValue)
}.

(** Modelled from the spec: what [lxd_request] raises, "a distinguished
    not-found error for 404-equivalent responses, and a generic transport
    error otherwise". *)
Inductive lxd_failure : Type :=
| NotFound
| RequestFailed (what : string).

Definition lxd_exception (f : lxd_failure) : exception :=
  match f with
  | NotFound => LXDNotFoundException
  | RequestFailed what => runtime_error what
  end.

Inductive effect : Type :=
| Requested (r : request)
| Monitored (type : LaunchProgress) (progress : Z) (continue : bool)
| Logged (level : Level.t) (category message : string)
| Slept (seconds : Z).

Inductive outcome (A : Type) : Type :=
| Returned (a : A)
| Thrown (e : exception)
| OutOfFuel.

Arguments Returned {A} a.
Arguments Thrown {A} e.
Arguments OutOfFuel {A}.

(** The collaborators of the vault.  [Env] is whatever state the outside
    world has: the LXD daemon behind the socket, the caller's monitor, the
    clock. *)
Class Collaborators (Env : Type) : Type := {
  transport : request -> Env -> (lxd_failure + gmap string QJsonValue) * Env;
  (** [std::chrono::system_clock::now()], as its count of nanoseconds since
      the epoch *)
  system_clock_now : Env -> Z * Env;
  is_remote_supported : string -> bool;
  is_image_url_supported : bool;
  (** [QDateTime::fromString(s, Qt::ISODateWithMs).toMSecsSinceEpoch()] *)
  msecs_since_epoch : string -> Z
}.

Record World (Env : Type) : Type := mkWorld {
  env : Env;
  effects : list effect
}.

Arguments mkWorld {Env} env effects.
Arguments env {Env} w.
Arguments effects {Env} w.

Definition M (Env A : Type) : Type := World Env -> outcome A * World Env.

Definition ProgressMonitor (Env : Type) : Type :=
  LaunchProgress -> Z -> Env -> bool * Env.

Definition PrepareAction : Type := VMImage.t -> VMImage.t.

Definition dquote : string := String (ascii_of_nat 34) "".

Definition category : string := "lxd image vault".

Section Monad.

Context {Env : Type}.

Definition ret {A : Type} (a : A) : M Env A := fun w => (Returned a, w).

Definition bind {A B : Type} (c : M Env A) (k : A -> M Env B) : M Env B :=
  fun w =>
    match c w with
    | (Returned a, w') => k a w'
    | (Thrown e, w') => (Thrown e, w')
    | (OutOfFuel, w') => (OutOfFuel, w')
    end.

Definition throw {A : Type} (e : exception) : M Env A := fun w => (Thrown e, w).

Definition out_of_fuel {A : Type} : M Env A := fun w => (OutOfFuel, w).

(** [try { body } catch (...) { handler }]: [handler e] is [None] when no
    catch clause matches [e]. *)
Definition try_catch {A : Type} (body : M Env A)
    (handler : exception -> option (M Env A)) : M Env A :=
  fun w =>
    match body w with
    | (Thrown e, w') =>
        match handler e with
        | Some h => h w'
        | None => (Thrown e, w')
        end
    | r => r
    end.

Definition record (ev : effect) : M Env unit :=
  fun w => (Returned tt, mkWorld (env w) (effects w ++ [ev])).

Definition lift {A : Type} (r : exception + A) : M Env A :=
  match r with
  | inl e => throw e
  | inr a => ret a
  end.

Fixpoint for_each {A : Type} (l : list A) (body : A -> M Env unit) : M Env unit :=
  match l with
  | [] => ret tt
  | x :: l' => bind (body x) (fun _ => for_each l' body)
  end.

End Monad.

Notation "'let*' x := c 'in' k" := (bind c (fun x => k))
  (at level 10, x name, c at level 100, k at level 200).

(** [catch (const std::exception&)] *)
Definition std_exception {T : Type} (h : T) (e : exception) : option T := Some h.

(** [catch (const LXDNotFoundException&)] *)
Definition not_found_exception {T : Type} (h : T) (e : exception) : option T :=
  match e with
  | LXDNotFoundException => Some h
  | _ => None
  end.

(** ** The vault *)

Record LXDVMImageVault : Type := mkVault {
  image_hosts : list VMImageHost;
  days_to_expire : Z;
  base_url : string;
  remote_image_host_map : gmap string VMImageHost
}.

Section Vault.

Context {Env : Type} `{Collaborators Env}.

(** *** Primitive effects *)

Definition lxd_request (method : string) (target : string)
    (json_data : option (gmap string QJsonValue)) : M Env (gmap string QJsonValue) :=
  fun w =>
    let r := mkRequest method target json_data in
    let '(reply, env') := transport r (env w) in
    let w' := mkWorld env' (effects w ++ [Requested r]) in
    match reply with
    | inl failure => (Thrown (lxd_exception failure), w')
    | inr json => (Returned json, w')
    end.

Definition call_monitor (monitor : ProgressMonitor Env) (type : LaunchProgress)
    (progress : Z) : M Env bool :=
  fun w =>
    let '(continue, env') := monitor type progress (env w) in
    (Returned continue, mkWorld env' (effects w ++ [Monitored type progress continue])).

Definition log (level : Level.t) (cat message : string) : M Env unit :=
  record (Logged level cat message).

Definition sleep_for (seconds : Z) : M Env unit := record (Slept seconds).

Definition now : M Env Z :=
  fun w =>
    let '(t, env') := system_clock_now (env w) in
    (Returned t, mkWorld env' (effects w)).

(** *** The constructor *)

Definition register_remotes (image_host : VMImageHost)
    (map : gmap string VMImageHost) : gmap string VMImageHost :=
  foldl (fun m remote =>
           if is_remote_supported remote then <[remote := image_host]> m else m)
        map (supported_remotes image_host).

Definition new_vault (hosts : list VMImageHost) (days : Z) (base : string)
    : LXDVMImageVault :=
  mkVault hosts days base
    (foldl (fun m image_host => register_remotes image_host m) ∅ hosts).

Variable vault : LXDVMImageVault.

(** *** [info_for] *)

Fixpoint first_info (hosts : list VMImageHost) (query : Query) : option VMImageInfo.t :=
  match hosts with
  | [] => None
  | image_host :: rest =>
      match host_info_for image_host query with
      | Some info => Some info
      | None => first_info rest query
      end
  end.

Definition unknown_remote (query : Query) : exception :=
  runtime_error ("Remote " ++ dquote ++ remote_name query ++ dquote ++ " is unknown.").

Definition no_matching_image (query : Query) : exception :=
  runtime_error ("Unable to find an image matching " ++ dquote ++ release query ++ dquote).

Definition info_for (query : Query) : exception + VMImageInfo.t :=
  if negb (String.eqb (remote_name query) "") then
    match remote_image_host_map vault !! remote_name query with
    | None => inl (unknown_remote query)
    | Some image_host =>
        match host_info_for image_host query with
        | Some info => inr info
        | None => inl (no_matching_image query)
        end
    end
  else
    match first_info (image_hosts vault) query with
    | Some info => inr info
    | None => inl (no_matching_image query)
    end.

(** *** [poll_download_operation] *)

Definition TaskCompleteAction : Type := gmap string QJsonValue -> M Env unit.

(** Modelled from the spec: the default of the [task_complete] parameter,
    which the header declares; "the completion callback (if any)" does
    nothing when the caller gives none. *)
Definition no_task_complete : TaskCompleteAction := fun _ => ret tt.

Inductive loop_exit : Type := Break | Continue.

(** One turn of the [while (true)] loop, with its [try]/[catch]. *)
Definition poll_once (task_url : string) (monitor : ProgressMonitor Env)
    (task_complete : TaskCompleteAction) : M Env loop_exit :=
  try_catch
    (let* task_reply := lxd_request "GET" task_url None in
     if negb (QJson.toInt (QJson.value task_reply "error_code") (-1) =? 0)
     then ret Break
     else
       let status_code :=
         QJson.toInt
           (QJson.value (QJson.toObject (QJson.value task_reply "metadata")) "status_code")
           (-1) in
       if status_code =? 200 then
         let* _ := task_complete (QJson.toObject (QJson.value task_reply "metadata")) in
         ret Break
       else
         let download_progress :=
           parse_percent_as_int
             (QJson.toString
                (QJson.value
                   (QJson.toObject
                      (QJson.value
                         (QJson.toObject (QJson.value task_reply "metadata"))
                         "metadata"))
                   "download_progress")) in
         let* continue := call_monitor monitor IMAGE download_progress in
         if negb continue then
           let* _ := lxd_request "DELETE" task_url None in
           throw (AbortedDownloadException "Download aborted")
         else
           let* _ := sleep_for 1 in
           ret Continue)
    (not_found_exception (ret Break)).

(** The loop; [fuel] bounds the number of polls. *)
Fixpoint poll_loop (fuel : nat) (task_url : string) (monitor : ProgressMonitor Env)
    (task_complete : TaskCompleteAction) : M Env unit :=
  match fuel with
  | O => out_of_fuel
  | S fuel' =>
      let* flow := poll_once task_url monitor task_complete in
      match flow with
      | Break => ret tt
      | Continue => poll_loop fuel' task_url monitor task_complete
      end
  end.

Definition is_task (json_reply : gmap string QJsonValue) : bool :=
  QJson.equals_string
    (QJson.value (QJson.toObject (QJson.value json_reply "metadata")) "class") "task"
  && (QJson.toInt (QJson.value json_reply "status_code") (-1) =? 100).

Definition task_url_of (json_reply : gmap string QJsonValue) : string :=
  base_url vault ++ "/operations/" ++
  QJson.toString (QJson.value (QJson.toObject (QJson.value json_reply "metadata")) "id").

Definition poll_download_operation (fuel : nat) (json_reply : gmap string QJsonValue)
    (monitor : ProgressMonitor Env) (task_complete : TaskCompleteAction) : M Env unit :=
  if is_task json_reply
  then poll_loop fuel (task_url_of json_reply) monitor task_complete
  else ret tt.

(** *** [fetch_image] *)

(** [for (const auto& alias : aliases) v.push_back(alias)] *)
Definition push_back_all (v : list string) (aliases : list string) : list string :=
  foldl (fun acc alias => (acc ++ [alias])%list) v aliases.

Definition source_object_for (info : VMImageInfo.t) (query : Query)
    : gmap string QJsonValue :=
  let source_object : gmap string QJsonValue := ∅ in
  let source_object := <["type" := JString "image"]> source_object in
  let source_object := <["mode" := JString "pull"]> source_object in
  let source_object :=
    <["server" := JString (VMImageInfo.stream_location info)]> source_object in
  let source_object := <["protocol" := JString "simplestreams"]> source_object in
  let source_object := <["image_type" := JString "virtual-machine"]> source_object in
  if QStr.startsWith (VMImageInfo.id info) (release query)
  then <["fingerprint" := JString (VMImageInfo.id info)]> source_object
  else <["alias" := JString (release query)]> source_object.

(** The first [try] block: look for an already existing instance and get
    its image info.  The [source_image] it builds is local to the block. *)
Definition existing_instance_lookup (query : Query) : M Env unit :=
  let* instance_info :=
    lxd_request "GET" (base_url vault ++ "/virtual_machines/" ++ name query) None in
  let id :=
    QJson.toString
      (QJson.value
         (QJson.toObject
            (QJson.value (QJson.toObject (QJson.value instance_info "metadata")) "config"))
         "volatile.base_image") in
  for_each (image_hosts vault) (fun image_host =>
    try_catch
      (let* info := lift (info_for_full_hash image_host id) in
       let source_image :=
         VMImage.mk "" "" "" id (VMImageInfo.stream_location info)
                    (VMImageInfo.release_title info) (VMImageInfo.version info)
                    (push_back_all [] (VMImageInfo.aliases info)) in
       ret tt)
      (std_exception (ret tt))).

Definition fetch_image (fuel : nat) (fetch_type : FetchType) (query : Query)
    (prepare : PrepareAction) (monitor : ProgressMonitor Env) : M Env VMImage.t :=
  let* _ := try_catch (existing_instance_lookup query) (std_exception (ret tt)) in
  if negb (QueryType_eqb (query_type query) Alias) && negb is_image_url_supported
  then throw (runtime_error "http and file based images are not supported")
  else
    let* info := lift (info_for query) in
    let id := VMImageInfo.id info in
    let source_image :=
      VMImage.mk "" "" "" id (VMImageInfo.stream_location info)
                 (VMImageInfo.release_title info) (VMImageInfo.version info)
                 (push_back_all [] (VMImageInfo.aliases info)) in
    let* _ :=
      try_catch
        (let* json_reply :=
           lxd_request "GET" (base_url vault ++ "/images/" ++ id) None in
         ret tt)
        (not_found_exception
           (let source_object := source_object_for info query in
            let image_object : gmap string QJsonValue :=
              {[ "source" := JObject source_object ]} in
            let* json_reply :=
              lxd_request "POST" (base_url vault ++ "/images") (Some image_object) in
            poll_download_operation fuel json_reply monitor no_task_complete)) in
    ret source_image.

(** *** [remove] and [has_record_for] *)

Definition remove (instance : string) : M Env unit :=
  try_catch
    (let* _ :=
       lxd_request "DELETE" (base_url vault ++ "/virtual-machines/" ++ instance) None in
     ret tt)
    (not_found_exception
       (log Level.warning category
            ("Instance '" ++ instance ++ "' does not exist: not removing"))).

Definition has_record_for (instance : string) : M Env bool :=
  try_catch
    (let* _ :=
       lxd_request "GET" (base_url vault ++ "/virtual-machines/" ++ instance) None in
     ret true)
    (not_found_exception (ret false)).

(** *** [prune_expired_images] *)

Definition release_of (image_info : gmap string QJsonValue) : string :=
  QJson.toString
    (QJson.value (QJson.toObject (QJson.value image_info "properties")) "release").

Definition prune_image (image : QJsonValue) : M Env unit :=
  let image_info := QJson.toObject image in
  let last_used_count :=
    msecs_since_epoch (QJson.toString (QJson.value image_info "last_used_at")) in
  let last_used := chrono.time_point_of_milliseconds last_used_count in
  if QJson.contains image_info "update_source" then
    let* current := now in
    if chrono.plus last_used (chrono.nanoseconds_of_days (days_to_expire vault))
       <=? current then
      let* _ :=
        log Level.info category
            ("Source image '" ++ release_of image_info ++ "' is expired. Removing it…") in
      let* _ :=
        lxd_request "DELETE"
          (base_url vault ++ "/images/" ++
           QJson.toString (QJson.value image_info "fingerprint")) None in
      ret tt
    else ret tt
  else ret tt.

Definition prune_expired_images : M Env unit :=
  let* json_reply := lxd_request "GET" (base_url vault ++ "/images") None in
  let images := QJson.toArray (QJson.value json_reply "metadata") in
  for_each images prune_image.

(** *** [update_images] *)

Definition refresh_complete (release : string) : TaskCompleteAction :=
  fun metadata =>
    if QJson.toBool (QJson.value metadata "refreshed")
    then log Level.info category ("Image update for '" ++ release ++ "' complete.")
    else log Level.info category ("No image update for '" ++ release ++ "'.").

Definition update_image (fuel : nat) (monitor : ProgressMonitor Env)
    (image : QJsonValue) : M Env unit :=
  let image_info := QJson.toObject image in
  if QJson.contains image_info "update_source" then
    let release := release_of image_info in
    let* _ :=
      log Level.info category ("Checking if '" ++ release ++ "' needs updating…") in
    let id := QJson.toString (QJson.value image_info "fingerprint") in
    let* json_reply :=
      lxd_request "POST" (base_url vault ++ "/images/" ++ id ++ "/refresh") None in
    poll_download_operation fuel json_reply monitor (refresh_complete release)
  else ret tt.

Definition update_images (fuel : nat) (fetch_type : FetchType)
    (prepare : PrepareAction) (monitor : ProgressMonitor Env) : M Env unit :=
  let* json_reply := lxd_request "GET" (base_url vault ++ "/images") None in
  let images := QJson.toArray (QJson.value json_reply "metadata") in
  for_each images (update_image fuel monitor).

End Vault.

(** ** Observations on the recorded effects *)

Definition is_pull (base : string) (ev : effect) : bool :=
  match ev with
  | Requested r => String.eqb (verb r) "POST" && String.eqb (url r) (base ++ "/images")
  | _ => false
  end.

(** The number of pull requests ([POST /images]) among the effects. *)
Fixpoint pulls (base : string) (evs : list effect) : nat :=
  match evs with
  | [] => O
  | ev :: rest => ((if is_pull base ev then 1 else 0) + pulls base rest)%nat
  end.

(** A computation only appends to the recorded effects, and no pull request
    is among what it appends. *)
Definition quiet {Env A : Type} (base : string) (c : M Env A) : Prop :=
  forall w, exists added,
    effects (snd (c w)) = (effects w ++ added)%list /\ pulls base added = O.

(** The world in which [fetch_image] resumes after its first, guarded
    block. *)
Definition after_lookup {Env : Type} `{Collaborators Env}
    (vault : LXDVMImageVault) (query : Query) (w : World Env) : World Env :=
  snd (try_catch (existing_instance_lookup vault query) (std_exception (ret tt)) w).

(** The [VMImage] that [fetch_image] derives from catalog metadata. *)
Definition image_of_info (info : VMImageInfo.t) : VMImage.t :=
  VMImage.mk "" "" "" (VMImageInfo.id info) (VMImageInfo.stream_location info)
             (VMImageInfo.release_title info) (VMImageInfo.version info)
             (VMImageInfo.aliases info).

Definition query_type_allowed {Env : Type} `{Collaborators Env} (query : Query) : bool :=
  negb (negb (QueryType_eqb (query_type query) Alias) && negb is_image_url_supported).

(** The backend that ends up registered for a remote name: the last one, in
    registration order, that lists the name among its supported remotes. *)
Fixpoint last_supporting (remote : string) (hosts : list VMImageHost)
    : option VMImageHost :=
  match hosts with
  | [] => None
  | image_host :: rest =>
      match last_supporting remote rest with
      | Some later => Some later
      | None =>
          if bool_decide (remote ∈ supported_remotes image_host)
          then Some image_host else None
      end
  end.

(** The last use of a listed image: the milliseconds since the epoch that
    Qt reads in its [last_used_at] member, and the time point the vault makes
    of them. *)
Definition last_used_count_of {Env : Type} `{Collaborators Env} (image : QJsonValue) : Z :=
  msecs_since_epoch (QJson.toString (QJson.value (QJson.toObject image) "last_used_at")).

Definition last_used_of {Env : Type} `{Collaborators Env} (image : QJsonValue) : Z :=
  chrono.time_point_of_milliseconds (last_used_count_of image).

Definition tracked (image : QJsonValue) : Prop :=
  is_Some (QJson.toObject image !! "update_source").

(** The test of the sweep on one image when the clock shows [current]: the
    record is tracked and the time point of its last use plus the expiry
    period, as the vault computes them, is not after [current]. *)
Definition eligible {Env : Type} `{Collaborators Env} (vault : LXDVMImageVault)
    (image : QJsonValue) (current : Z) : Prop :=
  tracked image
  /\ chrono.plus (last_used_of image) (chrono.nanoseconds_of_days (days_to_expire vault))
     <= current.

(** Expiry as the specification words it, in exact arithmetic on
    nanoseconds: the last use plus the expiry period is not after
    [current]. *)
Definition expired {Env : Type} `{Collaborators Env} (vault : LXDVMImageVault)
    (image : QJsonValue) (current : Z) : Prop :=
  last_used_count_of image * chrono.nanoseconds_in_millisecond
  + days_to_expire vault * chrono.nanoseconds_in_day <= current.

Definition fits_int64 (z : Z) : Prop := INT64_MIN <= z <= INT64_MAX.

(** The last use, the expiry period and the deadline they add up to are all
    within what the clock's count represents (a last use between the years
    1677 and 2262, a period of at most 106751 days). *)
Definition representable {Env : Type} `{Collaborators Env} (vault : LXDVMImageVault)
    (image : QJsonValue) : Prop :=
  fits_int64 (last_used_count_of image * chrono.nanoseconds_in_millisecond)
  /\ fits_int64 (days_to_expire vault * chrono.nanoseconds_in_day)
  /\ fits_int64 (last_used_count_of image * chrono.nanoseconds_in_millisecond
                 + days_to_expire vault * chrono.nanoseconds_in_day).

#[global] Instance tracked_dec (image : QJsonValue) : Decision (tracked image).
Proof. unfold tracked. apply _. Defined.

#[global] Instance eligible_dec {Env : Type} `{Collaborators Env} (vault : LXDVMImageVault)
    (image : QJsonValue) (current : Z) : Decision (eligible vault image current).
Proof. unfold eligible. apply _. Defined.

(** The effects of removing one expired image. *)
Definition removal_of (vault : LXDVMImageVault) (image : QJsonValue) : list effect :=
  [ Logged Level.info category
           ("Source image '" ++ release_of (QJson.toObject image)
            ++ "' is expired. Removing it…");
    Requested
      (mkRequest "DELETE"
         (base_url vault ++ "/images/"
          ++ QJson.toString (QJson.value (QJson.toObject image) "fingerprint")) None) ].

(** The effects of a whole sweep when the clock stands still at [current]
    and the daemon carries out every deletion. *)
Definition sweep_of {Env : Type} `{Collaborators Env} (vault : LXDVMImageVault)
    (current : Z) (images : list QJsonValue) : list effect :=
  concat (List.map (fun image =>
                      if decide (eligible vault image current)
                      then removal_of vault image else [])
                   images).

(** What the polling loop reads in a poll response. *)
Definition error_code_of (task_reply : gmap string QJsonValue) : Z :=
  QJson.toInt (QJson.value task_reply "error_code") (-1).

Definition status_code_of (task_reply : gmap string QJsonValue) : Z :=
  QJson.toInt
    (QJson.value (QJson.toObject (QJson.value task_reply "metadata")) "status_code") (-1).

Definition progress_of (task_reply : gmap string QJsonValue) : Z :=
  parse_percent_as_int
    (QJson.toString
       (QJson.value
          (QJson.toObject
             (QJson.value (QJson.toObject (QJson.value task_reply "metadata")) "metadata"))
          "download_progress")).

(** A completion callback that never raises the abort exception. *)
Definition never_aborts {Env : Type} (task_complete : gmap string QJsonValue -> M Env unit)
    : Prop :=
  forall metadata w what,
    fst (task_complete metadata w) <> Thrown (AbortedDownloadException what).

(** [turns task_url monitor n w w']: [n] turns of the polling loop on
    [task_url] lead from the world [w] to the world [w'].  At each of them
    the daemon answers the poll with a response whose error code is 0 and
    whose status is not 200, and the monitor says go on; the turn leaves the
    poll, the monitor's consent and the sleep among the effects. *)
Inductive turns {Env : Type} `{Collaborators Env} (task_url : string)
    (monitor : ProgressMonitor Env) : nat -> World Env -> World Env -> Prop :=
| turns_none (w : World Env) : turns task_url monitor 0 w w
| turns_next (n : nat) (w : World Env) (task_reply : gmap string QJsonValue)
    (env1 env2 : Env) (w' : World Env) :
    transport (mkRequest "GET" task_url None) (env w) = (inr task_reply, env1) ->
    error_code_of task_reply = 0 ->
    status_code_of task_reply <> 200 ->
    monitor IMAGE (progress_of task_reply) env1 = (true, env2) ->
    turns task_url monitor n
      (mkWorld env2
         (effects w ++ [Requested (mkRequest "GET" task_url None);
                        Monitored IMAGE (progress_of task_reply) true; Slept 1]))
      w' ->
    turns task_url monitor (S n) w w'.

(** ** The progress pattern, as the specification words it *)

Module PercentSpec.

Fixpoint all_of (c : ascii -> bool) (s : string) : bool :=
  match s with
  | "" => true
  | String a s' => c a && all_of c s'
  end.

(** The number a string of decimal digits denotes. *)
Fixpoint number (ds : string) : Z :=
  match ds with
  | "" => 0
  | String a r => QChar.digit_value a * 10 ^ Z.of_nat (String.length r) + number r
  end.

(** At offset [i] of [s] stands a whitespace character, then the one to
    three digits [ds], then a percent sign. *)
Definition occurs_at (s : string) (i : nat) (ds : string) : Prop :=
  exists (pre : string) (w : ascii) (post : string),
    s = pre ++ String w (ds ++ String "%" post)
    /\ String.length pre = i
    /\ QChar.is_space w = true
    /\ all_of QChar.is_digit ds = true
    /\ (1 <= String.length ds <= 3)%nat.

Definition first_at (s : string) (i : nat) (ds : string) : Prop :=
  occurs_at s i ds /\ forall j ds', (j < i)%nat -> ~ occurs_at s j ds'.

End PercentSpec.

(** ** A scripted outside world, for running the vault on concrete inputs *)

Module Scripted.

(** The daemon answers the requests with [replies], in order, and with
    not-found once they are used up; the monitor answers with [answers], and
    with "go on" once they are used up; the clock stands still, [clock]
    milliseconds after the epoch. *)
Record t : Type := mk {
  replies : list (lxd_failure + gmap string QJsonValue);
  answers : list bool;
  clock : Z
}.

Definition answer_request (r : request) (e : t)
    : (lxd_failure + gmap string QJsonValue) * t :=
  match replies e with
  | [] => (inl NotFound, e)
  | reply :: rest => (reply, mk rest (answers e) (clock e))
  end.

Definition monitor : ProgressMonitor t :=
  fun _ _ e =>
    match answers e with
    | [] => (true, e)
    | b :: rest => (b, mk (replies e) rest (clock e))
    end.

(** Qt's reading of the few timestamps the examples use. *)
Definition known_timestamps (s : string) : Z :=
  if String.eqb s "2020-06-01T00:00:00.000Z" then 1590969600000
  else if String.eqb s "2020-06-02T00:00:00.000Z" then 1591056000000
  else if String.eqb s "2020-05-01T00:00:00.000Z" then 1588291200000
  else if String.eqb s "0001-01-01T00:00:00Z" then -62135596800000
  else 0.

#[global] Instance collaborators : Collaborators t := {|
  transport := answer_request;
  system_clock_now := fun e => (clock e * chrono.nanoseconds_in_millisecond, e);
  is_remote_supported := fun remote => negb (String.eqb remote "appliance");
  is_image_url_supported := false;
  msecs_since_epoch := known_timestamps
|}.

Definition world (rs : list (lxd_failure + gmap string QJsonValue))
    (bs : list bool) (time : Z) : World t :=
  mkWorld (mk rs bs time) [].

End Scripted.

(** 2020-06-01T00:00:00Z, in milliseconds since the epoch *)
Definition first_of_june : Z := 1590969600000.

(** A daemon that answers every request with the same listing, and a clock
    that stands still on the first of June. *)
Module Obliging.

Record t : Type := mk {
  listing : gmap string QJsonValue
}.

#[global] Instance collaborators : Collaborators t := {|
  transport := fun _ e => (inr (listing e), e);
  system_clock_now := fun e => (first_of_june * chrono.nanoseconds_in_millisecond, e);
  is_remote_supported := fun _ => true;
  is_image_url_supported := false;
  msecs_since_epoch := Scripted.known_timestamps
|}.

End Obliging.

Module Scenario.

Definition base : string := "unix:///var/snap/lxd/common/lxd/unix.socket@1.0".

Definition xenial_info : VMImageInfo.t :=
  VMImageInfo.mk ["16.04"; "x"; "xenial"] "16.04 LTS"
    "e3b0c44298fc1c149afbf4c8996fb92427ae41e4649b934ca495991b7852b855"
    "https://cloud-images.ubuntu.com/releases/" "20200518" "" "" true.

Definition bionic_info : VMImageInfo.t :=
  VMImageInfo.mk ["18.04"; "b"; "bionic"] "18.04 LTS"
    "9f86d081884c7d659a2feaa0c55ad015a3bf4f1b2b0b822cd15d6c15b0f00a08"
    "https://cloud-images.ubuntu.com/releases/" "20200519" "" "" true.

Definition xenial_daily_info : VMImageInfo.t :=
  VMImageInfo.mk ["16.04"; "x"; "xenial"] "16.04 LTS"
    "2c26b46b68ffc68ff99b453c1d30413413422d706483bfa0f98a5e886266e7ae"
    "https://cloud-images.ubuntu.com/daily/" "20200601" "" "" true.

Definition catalog (entries : list VMImageInfo.t) (remotes : list string) : VMImageHost :=
  mkVMImageHost
    (fun query =>
       List.find (fun entry =>
                    bool_decide (release query ∈ VMImageInfo.aliases entry)
                    || (negb (String.eqb (release query) "")
                        && String.prefix (release query) (VMImageInfo.id entry)))
                 entries)
    (fun hash =>
       match List.find (fun entry => String.eqb (VMImageInfo.id entry) hash) entries with
       | Some entry => inr entry
       | None => inl (runtime_error "Unable to find an image matching hash")
       end)
    remotes.

Definition release_host : VMImageHost :=
  catalog [xenial_info; bionic_info] ["release"; "appliance"].

Definition daily_host : VMImageHost :=
  catalog [xenial_daily_info] ["daily"; "release"].

Definition vault : LXDVMImageVault :=
  new_vault (Env := Scripted.t) [release_host; daily_host] 1 base.

Definition eager_vault : LXDVMImageVault :=
  new_vault (Env := Scripted.t) [release_host; daily_host] 0 base.

Definition query_for (instance release remote : string) : Query :=
  mkQuery instance release false remote Alias.

Definition xenial_query : Query := query_for "primary" "xenial" "".

Definition bionic_query : Query := query_for "primary" "bionic" "".

Definition instance_reply (base_image : string) : gmap string QJsonValue :=
  {[ "type" := JString "sync"; "status_code" := QJson.number 200;
     "metadata" :=
       JObject {[ "config" := JObject {[ "volatile.base_image" := JString base_image ]} ]} ]}.

Definition progress_text : string := "rootfs: 25% (5.03MB/s)".

Definition keep : PrepareAction := fun image => image.

Definition sync_reply : gmap string QJsonValue :=
  {[ "type" := JString "sync"; "status_code" := QJson.number 200;
     "metadata" := JObject ∅ ]}.

Definition operation : string := "0a19a412-03d0-4118-bee8-a3095f06d4da".

Definition task_reply : gmap string QJsonValue :=
  {[ "type" := JString "async"; "status_code" := QJson.number 100;
     "metadata" := JObject {[ "class" := JString "task"; "id" := JString operation ]} ]}.

Definition poll_running (progress : string) : gmap string QJsonValue :=
  {[ "error_code" := QJson.number 0;
     "metadata" :=
       JObject {[ "status_code" := QJson.number 103;
                  "metadata" := JObject {[ "download_progress" := JString progress ]} ]} ]}.

Definition poll_done : gmap string QJsonValue :=
  {[ "error_code" := QJson.number 0;
     "metadata" := JObject {[ "status_code" := QJson.number 200;
                              "refreshed" := JBool true ]} ]}.

Definition poll_failed : gmap string QJsonValue :=
  {[ "error_code" := QJson.number 500; "error" := JString "Failed remote image download" ]}.

Definition image_record (fingerprint release last_used_at : string) (tracked : bool)
    : QJsonValue :=
  let record : gmap string QJsonValue :=
    {[ "fingerprint" := JString fingerprint;
       "last_used_at" := JString last_used_at;
       "properties" := JObject {[ "release" := JString release ]} ]} in
  JObject (if tracked
           then <["update_source" := JObject {[ "alias" := JString release ]}]> record
           else record).

Definition old_xenial : QJsonValue :=
  image_record (VMImageInfo.id xenial_info) "xenial" "2020-05-01T00:00:00.000Z" true.

Definition fresh_bionic : QJsonValue :=
  image_record (VMImageInfo.id bionic_info) "bionic" "2020-06-01T00:00:00.000Z" true.

Definition older_bionic : QJsonValue :=
  image_record (VMImageInfo.id bionic_info) "bionic" "2020-05-01T00:00:00.000Z" true.

(** An image that was never used: the daemon dates its last use at the
    first instant of year 1. *)
Definition never_used_xenial : QJsonValue :=
  image_record (VMImageInfo.id xenial_info) "xenial" "0001-01-01T00:00:00Z" true.

Definition untracked_xenial : QJsonValue :=
  image_record (VMImageInfo.id xenial_daily_info) "xenial" "2020-05-01T00:00:00.000Z" false.

Definition images_reply (images : list QJsonValue) : gmap string QJsonValue :=
  {[ "type" := JString "sync"; "status_code" := QJson.number 200;
     "metadata" := JArray images ]}.

(** *** Worlds and runs *)

Definition fetch (query : Query) (w : World Scripted.t) : outcome VMImage.t * World Scripted.t :=
  fetch_image vault 3 ImageOnly query keep Scripted.monitor w.

Definition poll (w : World Scripted.t) : outcome unit * World Scripted.t :=
  poll_download_operation vault 3 task_reply Scripted.monitor no_task_complete w.

(** No instance and no image yet; the daemon pulls in an operation that is
    done at its first poll.  At the second fetch, for another release under
    the same instance name, it has the instance, made from the image pulled
    first, but not the image asked for, and pulls again. *)
Definition empty_daemon_two_releases : World Scripted.t :=
  Scripted.world [inl NotFound; inl NotFound; inr task_reply; inr poll_done;
                  inr (instance_reply (VMImageInfo.id xenial_info));
                  inl NotFound; inr task_reply; inr poll_done] [] 0.

(** A download in progress, a monitor that says stop at the second turn,
    and a daemon that carries out the cancellation. *)
Definition stop_requested_later : World Scripted.t :=
  Scripted.world [inr (poll_running progress_text); inr (poll_running progress_text);
                  inr sync_reply] [true; false] 0.

(** The monitor says stop at the first turn, and the operation is gone by
    the time it is cancelled. *)
Definition stop_requested_too_late : World Scripted.t :=
  Scripted.world [inr (poll_running progress_text); inl NotFound] [false] 0.

(** The operation fails at the second poll. *)
Definition poll_fails : World Scripted.t :=
  Scripted.world [inr (poll_running progress_text); inr poll_failed] [] 0.

Definition pull_fails : World Scripted.t :=
  Scripted.world [inl NotFound; inl NotFound; inr task_reply;
                  inr (poll_running progress_text); inr poll_failed] [] 0.

(** Three tracked images; the first and the third are refreshed at once, the
    refresh of the second is an operation that fails at its second poll. *)
Definition refresh_fails : World Scripted.t :=
  Scripted.world [inr (images_reply [old_xenial; fresh_bionic; old_xenial]);
                  inr sync_reply; inr task_reply;
                  inr (poll_running progress_text); inr poll_failed; inr sync_reply] [] 0.

Definition image_absent : World Scripted.t :=
  Scripted.world [inl NotFound; inl NotFound; inr sync_reply] [] 0.

(** The instance exists and was made from the bionic image; the xenial
    image is present. *)
Definition instance_of_bionic : World Scripted.t :=
  Scripted.world [inr (instance_reply (VMImageInfo.id bionic_info)); inr sync_reply] [] 0.

Definition lookup_refused : World Scripted.t :=
  Scripted.world [inl (RequestFailed "Connection refused"); inr sync_reply] [] 0.

(** Three tracked images; the daemon refreshes the first and refuses the
    refresh of the second. *)
Definition refresh_refused : World Scripted.t :=
  Scripted.world [inr (images_reply [old_xenial; fresh_bionic; old_xenial]);
                  inr sync_reply; inl (RequestFailed "Connection refused");
                  inr sync_reply] [] 0.

Definition on_first_of_june : World Scripted.t :=
  Scripted.world [inr sync_reply] [] first_of_june.

Definition three_images : gmap string QJsonValue :=
  images_reply [old_xenial; fresh_bionic; untracked_xenial].

Definition obliging_daemon : World Obliging.t :=
  mkWorld (Obliging.mk three_images) [].

(** What the clock of these worlds shows. *)
Definition june_clock : Z := first_of_june * chrono.nanoseconds_in_millisecond.

End Scenario.

(** ** Further observations on the recorded effects *)

(** A computation only appends to the recorded effects, and every effect it
    appends satisfies [P]. *)
Definition appends {Env A : Type} (P : effect -> Prop) (c : M Env A) : Prop :=
  forall w, exists added,
    effects (snd (c w)) = (effects w ++ added)%list /\ Forall P added.

Definition is_log (ev : effect) : Prop :=
  match ev with
  | Logged _ _ _ => True
  | _ => False
  end.

(** The shapes of what one run of the polling loop on [task_url] appends:
    nothing; turns that found the operation running and were told to go on,
    each followed by a sleep of one second; and then, unless the turns are
    used up, a last poll, followed either by what the completion callback
    logs or by the monitor's refusal and the cancelling request. *)
Inductive polling_trace (task_url : string) : list effect -> Prop :=
| polling_nothing : polling_trace task_url []
| polling_last (logs : list effect) :
    Forall is_log logs ->
    polling_trace task_url (Requested (mkRequest "GET" task_url None) :: logs)
| polling_cancelled (progress : Z) :
    polling_trace task_url
      [Requested (mkRequest "GET" task_url None);
       Monitored IMAGE progress false;
       Requested (mkRequest "DELETE" task_url None)]
| polling_turn (progress : Z) (rest : list effect) :
    polling_trace task_url rest ->
    polling_trace task_url
      (Requested (mkRequest "GET" task_url None)
       :: Monitored IMAGE progress true :: Slept 1 :: rest).

(** [n] turns of the loop that found the operation running at [progress]. *)
Fixpoint running_turns (task_url : string) (progress : Z) (n : nat) : list effect :=
  match n with
  | O => []
  | S n' =>
      Requested (mkRequest "GET" task_url None)
      :: Monitored IMAGE progress true :: Slept 1
      :: running_turns task_url progress n'
  end.

(** The request that refreshes one listed image. *)
Definition refresh_of (vault : LXDVMImageVault) (image : QJsonValue) : request :=
  mkRequest "POST"
    (base_url vault ++ "/images/"
     ++ QJson.toString (QJson.value (QJson.toObject image) "fingerprint") ++ "/refresh")
    None.

(** What [update_images] does for one listed image when the daemon refreshes
    synchronously. *)
Definition refreshing_of (vault : LXDVMImageVault) (image : QJsonValue) : list effect :=
  [ Logged Level.info category
           ("Checking if '" ++ release_of (QJson.toObject image) ++ "' needs updating…");
    Requested (refresh_of vault image) ].

Definition refresh_sweep_of (vault : LXDVMImageVault) (images : list QJsonValue)
    : list effect :=
  concat (List.map (fun image =>
                      if decide (tracked image) then refreshing_of vault image else [])
                   images).

(** An effect of removing a tracked image among [images]. *)
Definition removes_tracked (vault : LXDVMImageVault) (images : list QJsonValue)
    (ev : effect) : Prop :=
  exists image, image ∈ images /\ tracked image /\ ev ∈ removal_of vault image.

(** A request with a body, or a POST, only when it refreshes a tracked image
    among [images]. *)
Definition refreshes_tracked_only (vault : LXDVMImageVault) (images : list QJsonValue)
    (ev : effect) : Prop :=
  match ev with
  | Requested r =>
      verb r = "POST" ->
      exists image, image ∈ images /\ tracked image /\ r = refresh_of vault image
  | _ => True
  end.

(** The images of a listing. *)
Definition images_of (listing : gmap string QJsonValue) : list QJsonValue :=
  QJson.toArray (QJson.value listing "metadata").

(** A monitor that always says go on, for the daemon that answers every
    request alike. *)
Definition go_on : ProgressMonitor Obliging.t := fun _ _ e => (true, e).

Module Cases.

Definition hash_query : Query := Scenario.query_for "primary" "e3b0c44298fc" "".

Definition url_query : Query :=
  mkQuery "primary" "https://example.com/image.img" false "" HttpDownload.

Definition appliance_query : Query := Scenario.query_for "primary" "xenial" "appliance".

Definition unknown_query : Query := Scenario.query_for "primary" "focal" "".

Definition untouched : World Scripted.t := Scripted.world [] [] 0.

Definition probe_refused : World Scripted.t :=
  Scripted.world [inl NotFound; inl (RequestFailed "Connection refused")] [] 0.

Definition pull_refused : World Scripted.t :=
  Scripted.world [inl NotFound; inl NotFound; inl (RequestFailed "Connection refused")] [] 0.

Definition stop_during_pull : World Scripted.t :=
  Scripted.world [inl NotFound; inl NotFound; inr Scenario.task_reply;
                  inr (Scenario.poll_running Scenario.progress_text);
                  inr Scenario.sync_reply] [false] 0.

(** The operation is gone at the third poll. *)
Definition operation_gone : World Scripted.t :=
  Scripted.world [inr (Scenario.poll_running Scenario.progress_text);
                  inr (Scenario.poll_running Scenario.progress_text);
                  inl NotFound] [] 0.


Definition two_turns_then_done : World Scripted.t :=
  Scripted.world [inr (Scenario.poll_running Scenario.progress_text);
                  inr (Scenario.poll_running Scenario.progress_text);
                  inr Scenario.poll_done] [] 0.

Definition always_running : World Obliging.t :=
  mkWorld (Obliging.mk (Scenario.poll_running Scenario.progress_text)) [].

Definition listing_refused : World Scripted.t :=
  Scripted.world [inl (RequestFailed "Connection refused")] [] 0.

Definition no_metadata : gmap string QJsonValue :=
  {[ "type" := JString "sync"; "status_code" := QJson.number 200 ]}.

Definition listing_without_metadata : World Scripted.t :=
  Scripted.world [inr no_metadata] [] first_of_june.

(** Four images, three of them expired; the daemon carries out the first
    deletion and answers the second with not-found. *)
Definition deletion_refused : World Scripted.t :=
  Scripted.world [inr (Scenario.images_reply
                         [Scenario.old_xenial; Scenario.untracked_xenial;
                          Scenario.older_bionic; Scenario.old_xenial]);
                  inr Scenario.sync_reply; inl NotFound; inr Scenario.sync_reply]
                 [] first_of_june.

Definition mixed_listing : World Scripted.t :=
  Scripted.world [inr Scenario.three_images; inr Scenario.sync_reply; inr Scenario.sync_reply]
                 [] first_of_june.

End Cases.

(** * Properties *)

(** ** The model at work *)

Example parse_percent_rootfs : parse_percent_as_int "rootfs: 25% (5.03MB/s)" = 25.
Proof. reflexivity. Qed.

Example parse_percent_at_start : parse_percent_as_int "42% done" = -1.
Proof. reflexivity. Qed.

Example parse_percent_four_digits : parse_percent_as_int "x 1234% y 7%" = 7.
Proof. reflexivity. Qed.

Example parse_percent_hundred : parse_percent_as_int "rootfs: 100% (1.2MB/s)" = 100.
Proof. reflexivity. Qed.

Example release_remote_goes_to_the_later_host :
  remote_image_host_map Scenario.vault !! "release" = Some Scenario.daily_host.
Proof. reflexivity. Qed.

Example unsupported_remote_is_not_registered :
  remote_image_host_map Scenario.vault !! "appliance" = None.
Proof. reflexivity. Qed.

Example download_is_polled_to_completion :
  Scenario.fetch Scenario.xenial_query
    (Scripted.world [inl NotFound; inl NotFound; inr Scenario.task_reply;
                     inr (Scenario.poll_running Scenario.progress_text);
                     inr Scenario.poll_done] [] 0)
  = (Returned (image_of_info Scenario.xenial_info),
     mkWorld (Scripted.mk [] [] 0)
       [Requested (mkRequest "GET" (Scenario.base ++ "/virtual_machines/primary") None);
        Requested (mkRequest "GET" (Scenario.base ++ "/images/"
                                    ++ VMImageInfo.id Scenario.xenial_info) None);
        Requested (mkRequest "POST" (Scenario.base ++ "/images")
                     (Some {[ "source" :=
                                JObject (source_object_for Scenario.xenial_info
                                                           Scenario.xenial_query) ]}));
        Requested (mkRequest "GET" (Scenario.base ++ "/operations/" ++ Scenario.operation)
                             None);
        Monitored IMAGE 25 true;
        Slept 1;
        Requested (mkRequest "GET" (Scenario.base ++ "/operations/" ++ Scenario.operation)
                             None)]).
Proof. vm_compute. reflexivity. Qed.

Example polling_runs_out_of_fuel :
  fst (Scenario.poll
         (Scripted.world (repeat (inr (Scenario.poll_running Scenario.progress_text)) 4) [] 0))
  = OutOfFuel.
Proof. vm_compute. reflexivity. Qed.

(** ** Progress parsing *)

Section PercentLemmas.

Import QRegularExpression PercentSpec.

Lemma digit_not_percent a : QChar.is_digit a = true -> QChar.is_percent a = false.
Proof.
  unfold QChar.is_digit, QChar.is_percent.
  rewrite andb_true_iff, !Z.leb_le, Z.eqb_neq. lia.
Qed.

Lemma digit_not_space a : QChar.is_digit a = true -> QChar.is_space a = false.
Proof.
  unfold QChar.is_digit, QChar.is_space.
  rewrite andb_true_iff, !Z.leb_le, orb_false_iff, andb_false_iff, !Z.leb_gt, Z.eqb_neq. lia.
Qed.

Lemma string_app_cons a (s t : string) : String a s ++ t = String a (s ++ t).
Proof. reflexivity. Qed.

Lemma string_app_empty (t : string) : "" ++ t = t.
Proof. reflexivity. Qed.

Lemma is_percent_eq a : QChar.is_percent a = true -> a = "%"%char.
Proof.
  unfold QChar.is_percent, QChar.code. rewrite Z.eqb_eq. intros Hc.
  rewrite <- (ascii_nat_embedding a).
  replace (nat_of_ascii a) with 37%nat by lia. reflexivity.
Qed.

Ltac percent_cases :=
  repeat
    (match goal with
     | |- context [match ?x with "" => _ | String _ _ => _ end] =>
         is_var x; destruct x; cbn
     | |- context [if QChar.is_digit ?a then _ else _] =>
         destruct (QChar.is_digit a) eqn:?; cbn
     | |- context [if QChar.is_percent ?a then _ else _] =>
         destruct (QChar.is_percent a) eqn:?; cbn
     end).

Ltac percent_clash :=
  match goal with
  | D : QChar.is_digit ?a = true, P : QChar.is_percent ?a = true |- _ =>
      rewrite (digit_not_percent a D) in P; discriminate P
  end.

Lemma match_here_percent_sound s caps :
  match_here percent_re s = Some caps ->
  exists w ds post,
    caps = [ds]
    /\ s = String w (ds ++ String "%" post)
    /\ QChar.is_space w = true
    /\ all_of QChar.is_digit ds = true
    /\ (1 <= String.length ds <= 3)%nat.
Proof.
  destruct s as [|w s]; [discriminate|].
  cbn.
  destruct (QChar.is_space w) eqn:Hw; [|discriminate].
  cbn. percent_cases; try discriminate; try percent_clash.
  all: intros [= <-].
  all: repeat match goal with
         | P : QChar.is_percent ?a = true |- _ => apply is_percent_eq in P; subst a
         end.
  all: eexists _, _, _; split; [reflexivity|]; rewrite ?string_app_cons, ?string_app_empty; cbn.
  all: repeat match goal with D : _ = true |- _ => rewrite D; clear D end.
  all: repeat split; cbn; lia.
Qed.

Lemma match_here_percent_complete w ds post :
  QChar.is_space w = true ->
  all_of QChar.is_digit ds = true ->
  (1 <= String.length ds <= 3)%nat ->
  match_here percent_re (String w (ds ++ String "%" post)) = Some [ds].
Proof.
  intros Hw Hds Hlen.
  destruct ds as [|a [|b [|c [|d ds]]]]; cbn in Hlen; try lia; cbn in Hds.
  all: repeat match goal with
         | D : _ && _ = true |- _ => apply andb_true_iff in D; destruct D
         end.
  all: rewrite ?string_app_cons, ?string_app_empty; cbn; rewrite Hw; cbn.
  all: repeat match goal with
         | D : QChar.is_digit ?a = true |- _ =>
             rewrite ?D, ?(digit_not_percent a D); cbn; clear D
         end.
  all: reflexivity.
Qed.

Lemma string_app_length (s t : string) :
  String.length (s ++ t) = (String.length s + String.length t)%nat.
Proof. induction s as [|a s IH]; cbn; [reflexivity | rewrite string_app_cons; cbn; lia]. Qed.

Lemma string_app_same_length (p1 p2 r1 r2 : string) :
  p1 ++ r1 = p2 ++ r2 -> String.length p1 = String.length p2 -> p1 = p2 /\ r1 = r2.
Proof.
  revert p2. induction p1 as [|a p1 IH]; intros [|b p2] Heq Hlen; try discriminate.
  - split; [reflexivity | exact Heq].
  - rewrite !string_app_cons in Heq. injection Heq as -> Heq. injection Hlen as Hlen.
    destruct (IH _ Heq Hlen) as [-> ->]. split; reflexivity.
Qed.

(** The leftmost search finds the first offset at which the anchored match
    succeeds. *)
Lemma rmatch_some ps s caps :
  rmatch ps s = Some caps ->
  exists pre rest,
    s = pre ++ rest /\ match_here ps rest = Some caps
    /\ forall pre' rest', s = pre' ++ rest' ->
         (String.length pre' < String.length pre)%nat -> match_here ps rest' = None.
Proof.
  induction s as [|a s IH]; cbn [rmatch].
  - destruct (match_here ps "") eqn:Hm; [|discriminate].
    intros [= <-]. exists "", "". repeat split; [exact Hm|].
    intros pre' rest' _ Hlt. cbn in Hlt. lia.
  - destruct (match_here ps (String a s)) eqn:Hm.
    + intros [= <-]. exists "", (String a s). repeat split; [exact Hm|].
      intros pre' rest' _ Hlt. cbn in Hlt. lia.
    + intros Hr. destruct (IH Hr) as (pre & rest & -> & Hrest & Hmin).
      exists (String a pre), rest. repeat split; [exact Hrest|].
      intros [|b pre'] rest' Heq Hlt.
      * rewrite string_app_empty in Heq. subst rest'. exact Hm.
      * rewrite !string_app_cons in Heq. injection Heq as _ Heq.
        apply (Hmin pre' rest' Heq). cbn in Hlt. lia.
Qed.

Lemma rmatch_none ps s :
  rmatch ps s = None -> forall pre rest, s = pre ++ rest -> match_here ps rest = None.
Proof.
  induction s as [|a s IH]; cbn [rmatch].
  - destruct (match_here ps "") eqn:Hm; [discriminate|].
    intros _ [|b pre] rest Heq; [|discriminate]. rewrite string_app_empty in Heq. by subst.
  - destruct (match_here ps (String a s)) eqn:Hm; [discriminate|].
    intros Hr [|b pre] rest Heq.
    + rewrite string_app_empty in Heq. by subst.
    + rewrite string_app_cons in Heq. injection Heq as _ Heq. by apply (IH Hr pre).
Qed.

Lemma digit_value_range a : QChar.is_digit a = true -> 0 <= QChar.digit_value a <= 9.
Proof.
  unfold QChar.is_digit, QChar.digit_value. rewrite andb_true_iff, !Z.leb_le. lia.
Qed.

Lemma number_range ds :
  all_of QChar.is_digit ds = true -> 0 <= number ds < 10 ^ Z.of_nat (String.length ds).
Proof.
  induction ds as [|a ds IH]; cbn [all_of number String.length];
    [intros _; cbv; split; congruence|].
  rewrite andb_true_iff. intros [Ha Hds].
  pose proof (digit_value_range a Ha). specialize (IH Hds).
  rewrite Nat2Z.inj_succ, Z.pow_succ_r by lia. nia.
Qed.

Lemma decimal_value_number ds acc :
  all_of QChar.is_digit ds = true ->
  QStr.decimal_value acc ds = Some (acc * 10 ^ Z.of_nat (String.length ds) + number ds).
Proof.
  revert acc. induction ds as [|a ds IH]; intros acc;
    cbn [all_of QStr.decimal_value number String.length].
  - intros _. f_equal. cbn. lia.
  - rewrite andb_true_iff. intros [Ha Hds]. rewrite Ha, (IH _ Hds).
    f_equal. rewrite Nat2Z.inj_succ, Z.pow_succ_r by lia. ring.
Qed.

Lemma digit_toInt_unsigned a r :
  QChar.is_digit a = true ->
  QStr.toInt (String a r) =
  match QStr.decimal_value 0 (String a r) with
  | Some v => if fits_int v then v else 0
  | None => 0
  end.
Proof.
  destruct a as [[] [] [] [] [] [] [] []]; try discriminate; intros _; reflexivity.
Qed.

Lemma toInt_number ds :
  all_of QChar.is_digit ds = true ->
  (1 <= String.length ds <= 3)%nat ->
  QStr.toInt ds = number ds.
Proof.
  intros Hds Hlen.
  pose proof (number_range ds Hds) as Hr.
  destruct ds as [|a r]; [cbn in Hlen; lia|].
  pose proof Hds as Hds'. cbn [all_of] in Hds'. apply andb_true_iff in Hds' as [Ha _].
  rewrite (digit_toInt_unsigned a r Ha), (decimal_value_number _ 0 Hds).
  assert (10 ^ Z.of_nat (String.length (String a r)) <= 1000) as Hp.
  { change 1000 with (10 ^ 3). apply Z.pow_le_mono_r; lia. }
  replace (fits_int _) with true; [lia|].
  symmetry. unfold fits_int, INT_MIN, INT_MAX. rewrite andb_true_iff, !Z.leb_le. lia.
Qed.

Lemma occurs_at_match s i ds :
  occurs_at s i ds ->
  exists pre rest, s = pre ++ rest /\ String.length pre = i
                   /\ match_here percent_re rest = Some [ds].
Proof.
  intros (pre & w & post & -> & Hlen & Hw & Hds & Hn).
  exists pre, (String w (ds ++ String "%" post)). repeat split; [exact Hlen|].
  by apply match_here_percent_complete.
Qed.

Lemma match_occurs_at pre rest caps :
  match_here percent_re rest = Some caps ->
  exists ds, caps = [ds] /\ occurs_at (pre ++ rest) (String.length pre) ds.
Proof.
  intros Hm. apply match_here_percent_sound in Hm as (w & ds & post & -> & -> & Hw & Hds & Hn).
  exists ds. split; [reflexivity|]. exists pre, w, post. repeat split; tauto || lia.
Qed.

Lemma digits_then_percent_no_occurrence ds tail :
  all_of QChar.is_digit ds = true ->
  (forall i ds', ~ occurs_at tail i ds') ->
  forall i ds', ~ occurs_at (ds ++ String "%" tail) i ds'.
Proof.
  intros Hds Htail.
  induction ds as [|a ds IH];
    intros i ds' (pre & w & post & Heq & Hlen & Hw & Hds' & Hn).
  - rewrite string_app_empty in Heq. destruct pre as [|b pre].
    + rewrite string_app_empty in Heq. injection Heq as <- _. discriminate Hw.
    + rewrite string_app_cons in Heq. injection Heq as _ ->.
      apply (Htail (String.length pre) ds'). exists pre, w, post. repeat split; tauto || lia.
  - cbn [all_of] in Hds. apply andb_true_iff in Hds as [Ha Hds].
    rewrite string_app_cons in Heq. destruct pre as [|b pre].
    + rewrite string_app_empty in Heq. injection Heq as <- _.
      rewrite (digit_not_space _ Ha) in Hw. discriminate Hw.
    + rewrite string_app_cons in Heq. injection Heq as _ Heq.
      apply (IH Hds (String.length pre) ds'). exists pre, w, post. repeat split; tauto || lia.
Qed.

End PercentLemmas.

Import QRegularExpression PercentSpec.

(** C7. [parse_percent_as_int] returns the number of the first occurrence,
    from the left, of one to three digits that a whitespace character
    precedes and a percent sign follows; it returns -1 when the string has no
    such occurrence, as when the percentage stands at the very start of the
    string. *)
Theorem parse_percent_as_int_first_match (s : string) :
  (forall i ds, first_at s i ds -> parse_percent_as_int s = number ds)
  /\ ((forall i ds, ~ occurs_at s i ds) -> parse_percent_as_int s = -1)
  /\ (forall ds tail,
        s = ds ++ String "%" tail ->
        all_of QChar.is_digit ds = true ->
        (forall i ds', ~ occurs_at tail i ds') ->
        parse_percent_as_int s = -1).
Proof.
  assert ((forall i ds, ~ occurs_at s i ds) -> parse_percent_as_int s = -1) as Hnone.
  { intros Hno. unfold parse_percent_as_int.
    destruct (rmatch percent_re s) as [caps|] eqn:Hr; [|reflexivity].
    apply rmatch_some in Hr as (pre & rest & -> & Hm & _).
    destruct (match_occurs_at pre rest caps Hm) as (ds & _ & Hocc).
    destruct (Hno _ _ Hocc). }
  split; [|split; [exact Hnone|]].
  - intros i ds [Hocc Hfirst]. unfold parse_percent_as_int.
    destruct (occurs_at_match s i ds Hocc) as (pre & rest & Hs & Hlen & Hm).
    destruct (rmatch percent_re s) as [caps|] eqn:Hr.
    + apply rmatch_some in Hr as (pre0 & rest0 & Hs0 & Hm0 & Hmin).
      destruct (lt_eq_lt_dec (String.length pre0) (String.length pre)) as [[Hlt|Heq]|Hgt].
      * destruct (match_occurs_at pre0 rest0 caps Hm0) as (ds0 & _ & Hocc0).
        rewrite <- Hs0 in Hocc0. destruct (Hfirst _ ds0 ltac:(rewrite <- Hlen; exact Hlt) Hocc0).
      * rewrite Hs0 in Hs. destruct (string_app_same_length _ _ _ _ Hs Heq) as [-> ->].
        rewrite Hm in Hm0. injection Hm0 as <-.
        destruct Hocc as (_ & _ & _ & _ & _ & _ & Hds & Hn).
        by apply toInt_number.
      * rewrite (Hmin pre rest Hs Hgt) in Hm. discriminate Hm.
    + rewrite (rmatch_none _ _ Hr pre rest Hs) in Hm. discriminate Hm.
  - intros ds tail -> Hds Htail. apply Hnone.
    by apply digits_then_percent_no_occurrence.
Qed.

Ltac split_occurrence Heq Hw Hds Hn pre ds :=
  repeat
    (destruct pre as [|? pre];
     [ rewrite string_app_empty in Heq;
       first
         [ discriminate Heq
         | injection Heq as <- Heq;
           first
             [ discriminate Hw
             | destruct ds as [|? ds];
               [ cbn in Hn; lia
               | rewrite string_app_cons in Heq;
                 first [ discriminate Heq
                       | injection Heq as <- Heq; cbn in Hds; discriminate Hds ] ] ] ]
     | rewrite string_app_cons in Heq;
       first [ discriminate Heq | injection Heq as _ Heq ] ]).

Lemma parse_percent_as_int_first_match_witness :
  parse_percent_as_int "rootfs: 25% (5.03MB/s)" = 25
  /\ parse_percent_as_int "Unpacking image" = -1
  /\ parse_percent_as_int "42% done" = -1.
Proof.
  split; [|split].
  - apply (proj1 (parse_percent_as_int_first_match "rootfs: 25% (5.03MB/s)") 7%nat "25").
    split.
    + exists "rootfs:", " "%char, " (5.03MB/s)". repeat split; cbn; lia.
    + intros j ds' Hj (pre & w & post & Heq & Hlen & Hw & Hds & Hn).
      split_occurrence Heq Hw Hds Hn pre ds'.
      cbn in Hlen. lia.
  - apply (proj1 (proj2 (parse_percent_as_int_first_match "Unpacking image"))).
    intros i ds' (pre & w & post & Heq & Hlen & Hw & Hds & Hn).
    split_occurrence Heq Hw Hds Hn pre ds'.
  - apply (proj2 (proj2 (parse_percent_as_int_first_match "42% done")) "42" " done").
    + reflexivity.
    + reflexivity.
    + intros i ds' (pre & w & post & Heq & Hlen & Hw & Hds & Hn).
      split_occurrence Heq Hw Hds Hn pre ds'.
Defined.

(** ** Running the vault *)

Section Running.

Context {Env : Type} `{Collaborators Env}.

Lemma bind_returned {A B : Type} (c : M Env A) (k : A -> M Env B) w a w' :
  c w = (Returned a, w') -> bind c k w = k a w'.
Proof. unfold bind. by intros ->. Qed.

Lemma bind_thrown {A B : Type} (c : M Env A) (k : A -> M Env B) w e w' :
  c w = (Thrown e, w') -> bind c k w = (Thrown e, w').
Proof. unfold bind. by intros ->. Qed.

Lemma bind_out_of_fuel {A B : Type} (c : M Env A) (k : A -> M Env B) w w' :
  c w = (OutOfFuel, w') -> bind c k w = (OutOfFuel, w').
Proof. unfold bind. by intros ->. Qed.

Lemma try_catch_returned {A : Type} (c : M Env A) h w a w' :
  c w = (Returned a, w') -> try_catch c h w = (Returned a, w').
Proof. unfold try_catch. by intros ->. Qed.

Lemma try_catch_caught {A : Type} (c : M Env A) h w e w' k :
  c w = (Thrown e, w') -> h e = Some k -> try_catch c h w = k w'.
Proof. unfold try_catch. by intros -> ->. Qed.

Lemma try_catch_uncaught {A : Type} (c : M Env A) h w e w' :
  c w = (Thrown e, w') -> h e = None -> try_catch c h w = (Thrown e, w').
Proof. unfold try_catch. by intros -> ->. Qed.

Lemma lxd_request_answered method target json_data w json env' :
  transport (mkRequest method target json_data) (env w) = (inr json, env') ->
  lxd_request method target json_data w =
  (Returned json, mkWorld env' (effects w ++ [Requested (mkRequest method target json_data)])).
Proof. unfold lxd_request. by intros ->. Qed.

Lemma lxd_request_failed method target json_data w failure env' :
  transport (mkRequest method target json_data) (env w) = (inl failure, env') ->
  lxd_request method target json_data w =
  (Thrown (lxd_exception failure),
   mkWorld env' (effects w ++ [Requested (mkRequest method target json_data)])).
Proof. unfold lxd_request. by intros ->. Qed.

Lemma call_monitor_answered (monitor : ProgressMonitor Env) type progress w b env' :
  monitor type progress (env w) = (b, env') ->
  call_monitor monitor type progress w =
  (Returned b, mkWorld env' (effects w ++ [Monitored type progress b])).
Proof. unfold call_monitor. by intros ->. Qed.

(** The three outcomes of the probe [GET /images/{id}] under its
    [catch (const LXDNotFoundException&)]. *)
Lemma probe_found target (k : M Env unit) w json env' :
  transport (mkRequest "GET" target None) (env w) = (inr json, env') ->
  try_catch (let* json_reply := lxd_request "GET" target None in ret tt)
            (not_found_exception k) w =
  (Returned tt, mkWorld env' (effects w ++ [Requested (mkRequest "GET" target None)])).
Proof.
  intros Hprobe. apply try_catch_returned.
  by erewrite bind_returned by (by apply lxd_request_answered).
Qed.

Lemma probe_not_found target (k : M Env unit) w env' :
  transport (mkRequest "GET" target None) (env w) = (inl NotFound, env') ->
  try_catch (let* json_reply := lxd_request "GET" target None in ret tt)
            (not_found_exception k) w =
  k (mkWorld env' (effects w ++ [Requested (mkRequest "GET" target None)])).
Proof.
  intros Hprobe.
  apply (try_catch_caught _ _ w LXDNotFoundException); [|reflexivity].
  eapply bind_thrown. by apply (lxd_request_failed _ _ _ _ NotFound).
Qed.

Lemma probe_failed target (k : M Env unit) w what env' :
  transport (mkRequest "GET" target None) (env w) = (inl (RequestFailed what), env') ->
  try_catch (let* json_reply := lxd_request "GET" target None in ret tt)
            (not_found_exception k) w =
  (Thrown (runtime_error what),
   mkWorld env' (effects w ++ [Requested (mkRequest "GET" target None)])).
Proof.
  intros Hprobe.
  apply (try_catch_uncaught _ _ w (runtime_error what)); [|reflexivity].
  eapply bind_thrown. by apply (lxd_request_failed _ _ _ _ (RequestFailed what)).
Qed.

Lemma push_back_all_app (v l : list string) : push_back_all v l = (v ++ l)%list.
Proof.
  revert v. induction l as [|x l IH]; intros v; cbn.
  - by rewrite app_nil_r.
  - unfold push_back_all in IH. rewrite IH, <- app_assoc. reflexivity.
Qed.

(** The per-host body of the guarded lookup swallows whatever the full-hash
    lookup raises. *)
Lemma full_hash_pass_returns (hosts : list VMImageHost) (instance_id : string) (w : World Env) :
  for_each hosts (fun image_host =>
    try_catch
      (let* info := lift (info_for_full_hash image_host instance_id) in
       let source_image :=
         VMImage.mk "" "" "" instance_id (VMImageInfo.stream_location info)
                    (VMImageInfo.release_title info) (VMImageInfo.version info)
                    (push_back_all [] (VMImageInfo.aliases info)) in
       ret tt)
      (std_exception (ret tt))) w = (Returned tt, w).
Proof.
  induction hosts as [|h hosts IH]; [reflexivity|].
  cbn [for_each]. unfold bind at 1, try_catch at 1, bind at 1, lift.
  destruct (info_for_full_hash h instance_id); cbn; exact IH.
Qed.

Lemma guarded_lookup_returns (vault : LXDVMImageVault) (query : Query) (w : World Env) :
  let probe :=
    mkRequest "GET" (base_url vault ++ "/virtual_machines/" ++ name query) None in
  try_catch (existing_instance_lookup vault query) (std_exception (ret tt)) w =
  (Returned tt, mkWorld (snd (transport probe (env w))) (effects w ++ [Requested probe])).
Proof.
  intros probe. unfold existing_instance_lookup. fold probe.
  destruct (transport probe (env w)) as [[failure|json] env'] eqn:Hprobe; cbn [snd].
  - eapply try_catch_caught; [|reflexivity].
    eapply bind_thrown. by apply lxd_request_failed.
  - apply try_catch_returned.
    erewrite bind_returned by (by apply lxd_request_answered).
    apply full_hash_pass_returns.
Qed.

Lemma after_lookup_eq (vault : LXDVMImageVault) (query : Query) (w : World Env) :
  let probe :=
    mkRequest "GET" (base_url vault ++ "/virtual_machines/" ++ name query) None in
  after_lookup vault query w =
  mkWorld (snd (transport probe (env w))) (effects w ++ [Requested probe]).
Proof. unfold after_lookup. by rewrite guarded_lookup_returns. Qed.

Lemma guarded_lookup_after (vault : LXDVMImageVault) (query : Query) (w : World Env) :
  try_catch (existing_instance_lookup vault query) (std_exception (ret tt)) w =
  (Returned tt, after_lookup vault query w).
Proof. rewrite after_lookup_eq. apply guarded_lookup_returns. Qed.

(** [fetch_image] past its guarded first block. *)
Lemma fetch_image_resumes vault fuel fetch_type query prepare monitor (w : World Env) :
  fetch_image vault fuel fetch_type query prepare monitor w =
  (if query_type_allowed query then
     let* info := lift (info_for vault query) in
     let* _ :=
       try_catch
         (let* json_reply :=
            lxd_request "GET" (base_url vault ++ "/images/" ++ VMImageInfo.id info) None in
          ret tt)
         (not_found_exception
            (let* json_reply :=
               lxd_request "POST" (base_url vault ++ "/images")
                 (Some {[ "source" := JObject (source_object_for info query) ]}) in
             poll_download_operation vault fuel json_reply monitor no_task_complete)) in
     ret (image_of_info info)
   else throw (runtime_error "http and file based images are not supported"))
    (after_lookup vault query w).
Proof.
  unfold fetch_image. rewrite (bind_returned _ _ _ _ _ (guarded_lookup_after vault query w)).
  unfold query_type_allowed.
  destruct (negb (QueryType_eqb (query_type query) Alias) && negb is_image_url_supported);
    [reflexivity|].
  cbn [negb]. unfold image_of_info. unfold bind at 1 3, lift.
  destruct (info_for vault query) as [e|info]; [reflexivity|]. cbn.
  by rewrite push_back_all_app.
Qed.

End Running.

(** C8. [remove] issues one DELETE for the instance; when the daemon
    answers not-found it logs a warning and returns normally, when the daemon
    carries the request out it returns normally, and only another transport
    error is raised. *)
Theorem remove_absent_instance_is_noop {Env : Type} `{Collaborators Env}
    (vault : LXDVMImageVault) (instance : string) (w : World Env) :
  let deletion :=
    mkRequest "DELETE" (base_url vault ++ "/virtual-machines/" ++ instance) None in
  let requested := (effects w ++ [Requested deletion])%list in
  match transport deletion (env w) with
  | (inl NotFound, env') =>
      remove vault instance w =
      (Returned tt,
       mkWorld env'
         (requested ++
          [Logged Level.warning "lxd image vault"
                  ("Instance '" ++ instance ++ "' does not exist: not removing")]))
  | (inl (RequestFailed what), env') =>
      remove vault instance w = (Thrown (runtime_error what), mkWorld env' requested)
  | (inr _, env') =>
      remove vault instance w = (Returned tt, mkWorld env' requested)
  end.
Proof.
  intros deletion requested. unfold remove, try_catch, bind, lxd_request.
  fold deletion. destruct (transport deletion (env w)) as [[[|what]|json] env']; reflexivity.
Qed.


Lemma contains_tracked (image : QJsonValue) :
  QJson.contains (QJson.toObject image) "update_source" = bool_decide (tracked image).
Proof. reflexivity. Qed.

(** ** The polling loop *)

Section Polling.

Context {Env : Type} `{Collaborators Env}.
Variables (task_url : string) (monitor : ProgressMonitor Env)
          (task_complete : gmap string QJsonValue -> M Env unit).

Let poll : request := mkRequest "GET" task_url None.
Let cancel : request := mkRequest "DELETE" task_url None.

Lemma poll_once_error_code w task_reply env' :
  transport poll (env w) = (inr task_reply, env') ->
  error_code_of task_reply <> 0 ->
  poll_once task_url monitor task_complete w =
  (Returned Break, mkWorld env' (effects w ++ [Requested poll])).
Proof.
  intros Hpoll Hcode. unfold poll_once.
  apply try_catch_returned.
  erewrite bind_returned by (by apply lxd_request_answered).
  fold (error_code_of task_reply).
  apply Z.eqb_neq in Hcode. by rewrite Hcode.
Qed.

Lemma poll_once_aborted w task_reply env1 env2 reply env3 :
  transport poll (env w) = (inr task_reply, env1) ->
  error_code_of task_reply = 0 ->
  status_code_of task_reply <> 200 ->
  monitor IMAGE (progress_of task_reply) env1 = (false, env2) ->
  transport cancel env2 = (reply, env3) ->
  poll_once task_url monitor task_complete w =
  (match reply with
   | inr _ => Thrown (AbortedDownloadException "Download aborted")
   | inl NotFound => Returned Break
   | inl (RequestFailed what) => Thrown (runtime_error what)
   end,
   mkWorld env3
     (effects w ++ [Requested poll; Monitored IMAGE (progress_of task_reply) false;
                    Requested cancel])).
Proof.
  intros Hpoll Hcode Hstatus Hmon Hcancel. unfold poll_once.
  set (body := bind _ _).
  assert (body w =
          (match reply with
           | inr _ => Thrown (AbortedDownloadException "Download aborted")
           | inl failure => Thrown (lxd_exception failure)
           end,
           mkWorld env3
             (effects w ++ [Requested poll; Monitored IMAGE (progress_of task_reply) false;
                            Requested cancel]))) as Hbody.
  { unfold body.
    erewrite bind_returned by (by apply lxd_request_answered).
    fold (error_code_of task_reply) (status_code_of task_reply) (progress_of task_reply).
    rewrite Hcode. apply Z.eqb_neq in Hstatus. rewrite Hstatus. cbn [Z.eqb negb].
    erewrite bind_returned by (by apply call_monitor_answered).
    cbn [negb]. unfold bind, lxd_request. cbn [env effects]. fold cancel.
    rewrite Hcancel, <- !app_assoc. destruct reply as [[|?]|?]; reflexivity. }
  destruct reply as [[|what]|json].
  - by erewrite try_catch_caught.
  - by erewrite try_catch_uncaught.
  - by erewrite try_catch_uncaught.
Qed.

Lemma poll_once_abort_inv w what w' :
  never_aborts task_complete ->
  poll_once task_url monitor task_complete w = (Thrown (AbortedDownloadException what), w') ->
  what = "Download aborted"
  /\ exists progress,
       effects w' =
       (effects w ++ [Requested poll; Monitored IMAGE progress false; Requested cancel])%list.
Proof.
  intros Htc. unfold poll_once, try_catch, bind, lxd_request, call_monitor, sleep_for, record,
    throw, ret, not_found_exception.
  fold poll cancel.
  destruct (transport poll (env w)) as [[[|?]|task_reply] env1]; cbn; try discriminate.
  destruct (negb _); [discriminate|].
  destruct (_ =? 200).
  - match goal with |- context [task_complete ?md ?w0] =>
      pose proof (Htc md w0) as Hno; destruct (task_complete md w0) as [[[]|e|] w1] end;
      cbn; try discriminate.
    destruct e; cbn; try discriminate.
    intros [= -> <-]. destruct (Hno what). reflexivity.
  - destruct (monitor _ _ _) as [[] env2]; cbn; [discriminate|].
    destruct (transport cancel env2) as [[[|?]|json] env3]; cbn; try discriminate.
    intros [= <- <-]. split; [reflexivity|]. eexists. cbn. by rewrite <- !app_assoc.
Qed.

Lemma poll_loop_abort_inv fuel w what w' :
  never_aborts task_complete ->
  poll_loop fuel task_url monitor task_complete w = (Thrown (AbortedDownloadException what), w') ->
  what = "Download aborted"
  /\ exists before progress,
       effects w' =
       (before ++ [Requested poll; Monitored IMAGE progress false; Requested cancel])%list.
Proof.
  intros Htc. revert w. induction fuel as [|fuel IH]; intros w; cbn [poll_loop]; [discriminate|].
  unfold bind at 1.
  destruct (poll_once task_url monitor task_complete w) as [[[]|e|] w1] eqn:Honce.
  - discriminate.
  - apply IH.
  - intros [= -> <-]. destruct (poll_once_abort_inv _ _ _ Htc Honce) as [-> [p Hp]].
    split; [reflexivity|]. by exists (effects w), p.
  - discriminate.
Qed.

End Polling.

Section PollingEnds.

Context {Env : Type} `{Collaborators Env}.
Variables (task_url : string) (monitor : ProgressMonitor Env)
          (task_complete : gmap string QJsonValue -> M Env unit).

Lemma poll_once_gone w env' :
  transport (mkRequest "GET" task_url None) (env w) = (inl NotFound, env') ->
  poll_once task_url monitor task_complete w
  = (Returned Break,
     mkWorld env' (effects w ++ [Requested (mkRequest "GET" task_url None)])).
Proof.
  intros Hpoll. unfold poll_once.
  apply (try_catch_caught _ _ w LXDNotFoundException); [|reflexivity].
  eapply bind_thrown. by apply (lxd_request_failed _ _ _ _ NotFound).
Qed.

Lemma poll_once_refused w what env' :
  transport (mkRequest "GET" task_url None) (env w) = (inl (RequestFailed what), env') ->
  poll_once task_url monitor task_complete w
  = (Thrown (runtime_error what),
     mkWorld env' (effects w ++ [Requested (mkRequest "GET" task_url None)])).
Proof.
  intros Hpoll. unfold poll_once.
  apply (try_catch_uncaught _ _ w (runtime_error what)); [|reflexivity].
  eapply bind_thrown. by apply (lxd_request_failed _ _ _ _ (RequestFailed what)).
Qed.

Lemma poll_once_going_on w task_reply env1 env2 :
  transport (mkRequest "GET" task_url None) (env w) = (inr task_reply, env1) ->
  error_code_of task_reply = 0 ->
  status_code_of task_reply <> 200 ->
  monitor IMAGE (progress_of task_reply) env1 = (true, env2) ->
  poll_once task_url monitor task_complete w
  = (Returned Continue,
     mkWorld env2
       (effects w ++ [Requested (mkRequest "GET" task_url None);
                      Monitored IMAGE (progress_of task_reply) true; Slept 1])).
Proof.
  intros Hpoll Hcode Hstatus Hmonitor. unfold poll_once.
  apply try_catch_returned.
  erewrite bind_returned by (by apply lxd_request_answered).
  fold (error_code_of task_reply) (status_code_of task_reply) (progress_of task_reply).
  rewrite Hcode. apply Z.eqb_neq in Hstatus. rewrite Hstatus. cbn [Z.eqb negb].
  erewrite bind_returned by (by apply call_monitor_answered).
  cbn [negb]. unfold bind, sleep_for, record, ret. cbn [env effects].
  by rewrite <- !app_assoc.
Qed.

End PollingEnds.

Section PollingEntry.

Context {Env : Type} `{Collaborators Env}.

Lemma poll_loop_break fuel task_url (monitor : ProgressMonitor Env) task_complete w w' :
  poll_once task_url monitor task_complete w = (Returned Break, w') ->
  poll_loop (S fuel) task_url monitor task_complete w = (Returned tt, w').
Proof. intros Honce. cbn [poll_loop]. unfold bind. by rewrite Honce. Qed.

Lemma poll_loop_thrown fuel task_url (monitor : ProgressMonitor Env) task_complete w e w' :
  poll_once task_url monitor task_complete w = (Thrown e, w') ->
  poll_loop (S fuel) task_url monitor task_complete w = (Thrown e, w').
Proof. intros Honce. cbn [poll_loop]. unfold bind. by rewrite Honce. Qed.

(** Turns that go on only use up fuel. *)
Lemma poll_loop_turns n fuel task_url (monitor : ProgressMonitor Env) task_complete w w' :
  turns task_url monitor n w w' ->
  poll_loop (n + fuel) task_url monitor task_complete w
  = poll_loop fuel task_url monitor task_complete w'.
Proof.
  induction 1 as [w|n w task_reply env1 env2 w' Hpoll Hcode Hstatus Hmonitor _ IH];
    [reflexivity|].
  cbn [Nat.add poll_loop].
  rewrite (bind_returned _ _ _ _ _
             (poll_once_going_on task_url monitor task_complete w task_reply env1 env2
                Hpoll Hcode Hstatus Hmonitor)).
  exact IH.
Qed.

Lemma poll_download_operation_turns vault n fuel json_reply (monitor : ProgressMonitor Env)
    task_complete w w' :
  is_task json_reply = true ->
  turns (task_url_of vault json_reply) monitor n w w' ->
  poll_download_operation vault (n + fuel) json_reply monitor task_complete w
  = poll_loop fuel (task_url_of vault json_reply) monitor task_complete w'.
Proof.
  intros Htask Hturns. unfold poll_download_operation. rewrite Htask.
  by apply poll_loop_turns.
Qed.

(** A loop over a list, past the elements whose turn has returned. *)
Lemma for_each_app {A : Type} (pre post : list A) (body : A -> M Env unit) w w' :
  for_each pre body w = (Returned tt, w') ->
  for_each (pre ++ post) body w = for_each post body w'.
Proof.
  revert w. induction pre as [|x pre IH]; intros w; cbn [for_each app].
  - by intros [= ->].
  - unfold bind. destruct (body x w) as [[[]|e|] w1]; try discriminate.
    apply IH.
Qed.

End PollingEntry.

Lemma no_task_complete_never_aborts {Env : Type} :
  never_aborts (no_task_complete (Env := Env)).
Proof. intros metadata w what. discriminate. Qed.

Lemma refresh_complete_never_aborts {Env : Type} (release : string) :
  never_aborts (refresh_complete (Env := Env) release).
Proof.
  intros metadata w what. unfold refresh_complete.
  destruct (QJson.toBool _); discriminate.
Qed.

(** C3. At whichever turn of the loop it is ([n] turns have gone on before
    it), when a poll finds the operation still running and the monitor
    answers stop, the vault issues DELETE on the operation before anything
    else; the call then fails with the abort exception if the daemon carries
    the DELETE out, returns normally if the daemon answers it with not-found,
    and fails with the transport error otherwise.  The abort exception leaves
    the polling loop in no other way: the last effects are then the monitor's
    stop and the DELETE. *)
Theorem abort_signal_cancels_operation {Env : Type} `{Collaborators Env}
    (vault : LXDVMImageVault) (fuel : nat) (json_reply : gmap string QJsonValue)
    (monitor : ProgressMonitor Env) (task_complete : gmap string QJsonValue -> M Env unit)
    (w : World Env) :
  let poll := mkRequest "GET" (task_url_of vault json_reply) None in
  let cancel := mkRequest "DELETE" (task_url_of vault json_reply) None in
  (forall n w_n task_reply env1 env2 reply env3,
      is_task json_reply = true ->
      turns (task_url_of vault json_reply) monitor n w w_n ->
      transport poll (env w_n) = (inr task_reply, env1) ->
      error_code_of task_reply = 0 ->
      status_code_of task_reply <> 200 ->
      monitor IMAGE (progress_of task_reply) env1 = (false, env2) ->
      transport cancel env2 = (reply, env3) ->
      poll_download_operation vault (n + S fuel) json_reply monitor task_complete w =
      (match reply with
       | inr _ => Thrown (AbortedDownloadException "Download aborted")
       | inl NotFound => Returned tt
       | inl (RequestFailed what) => Thrown (runtime_error what)
       end,
       mkWorld env3
         (effects w_n ++ [Requested poll; Monitored IMAGE (progress_of task_reply) false;
                          Requested cancel])))
  /\ (forall what w',
        never_aborts task_complete ->
        poll_download_operation vault fuel json_reply monitor task_complete w =
        (Thrown (AbortedDownloadException what), w') ->
        what = "Download aborted"
        /\ exists before progress,
             effects w' =
             (before ++ [Requested poll; Monitored IMAGE progress false;
                         Requested cancel])%list).
Proof.
  intros poll cancel. split.
  - intros n w_n task_reply env1 env2 reply env3 Htask Hturns Hpoll Hcode Hstatus Hmon Hcancel.
    rewrite (poll_download_operation_turns vault n (S fuel) json_reply monitor task_complete
               w w_n Htask Hturns).
    pose proof (poll_once_aborted _ monitor task_complete w_n _ _ _ _ _
                  Hpoll Hcode Hstatus Hmon Hcancel) as Honce.
    destruct reply as [[|what]|json].
    + by apply poll_loop_break.
    + by apply poll_loop_thrown.
    + by apply poll_loop_thrown.
  - intros what w' Htc. unfold poll_download_operation.
    destruct (is_task json_reply); [|discriminate].
    by apply poll_loop_abort_inv.
Qed.

Lemma abort_signal_cancels_operation_witness :
  Scenario.poll Scenario.stop_requested_later
  = (Thrown (AbortedDownloadException "Download aborted"),
     mkWorld (Scripted.mk [] [] 0)
       (running_turns (task_url_of Scenario.vault Scenario.task_reply) 25 1
        ++ [Requested (mkRequest "GET" (task_url_of Scenario.vault Scenario.task_reply) None);
            Monitored IMAGE 25 false;
            Requested
              (mkRequest "DELETE" (task_url_of Scenario.vault Scenario.task_reply) None)]))
  /\ exists before progress,
       effects (snd (Scenario.poll Scenario.stop_requested_later)) =
       (before ++
        [Requested (mkRequest "GET" (task_url_of Scenario.vault Scenario.task_reply) None);
         Monitored IMAGE progress false;
         Requested
           (mkRequest "DELETE" (task_url_of Scenario.vault Scenario.task_reply) None)])%list.
Proof.
  pose proof (abort_signal_cancels_operation Scenario.vault 1 Scenario.task_reply
                Scripted.monitor no_task_complete Scenario.stop_requested_later)
    as [Hfirst _].
  specialize (Hfirst 1%nat
                (mkWorld
                   (Scripted.mk [inr (Scenario.poll_running Scenario.progress_text);
                                 inr Scenario.sync_reply] [false] 0)
                   (running_turns (task_url_of Scenario.vault Scenario.task_reply) 25 1))
                (Scenario.poll_running Scenario.progress_text)
                (Scripted.mk [inr Scenario.sync_reply] [false] 0)
                (Scripted.mk [inr Scenario.sync_reply] [] 0)
                (inr Scenario.sync_reply)
                (Scripted.mk [] [] 0)
                eq_refl).
  assert (Scenario.poll Scenario.stop_requested_later
          = (Thrown (AbortedDownloadException "Download aborted"),
             mkWorld (Scripted.mk [] [] 0)
               (running_turns (task_url_of Scenario.vault Scenario.task_reply) 25 1
                ++ [Requested
                      (mkRequest "GET" (task_url_of Scenario.vault Scenario.task_reply) None);
                    Monitored IMAGE 25 false;
                    Requested
                      (mkRequest "DELETE" (task_url_of Scenario.vault Scenario.task_reply)
                         None)]))) as Hrun.
  { apply Hfirst.
    - apply (turns_next _ _ 0 _ (Scenario.poll_running Scenario.progress_text)
               (Scripted.mk [inr (Scenario.poll_running Scenario.progress_text);
                             inr Scenario.sync_reply] [true; false] 0)
               (Scripted.mk [inr (Scenario.poll_running Scenario.progress_text);
                             inr Scenario.sync_reply] [false] 0)).
      + reflexivity.
      + reflexivity.
      + vm_compute. discriminate.
      + reflexivity.
      + apply turns_none.
    - reflexivity.
    - reflexivity.
    - vm_compute. discriminate.
    - reflexivity.
    - reflexivity. }
  split; [exact Hrun|].
  pose proof (abort_signal_cancels_operation Scenario.vault 3 Scenario.task_reply
                Scripted.monitor no_task_complete Scenario.stop_requested_later)
    as [_ Honly].
  apply (Honly "Download aborted").
  - intros metadata w0 what. discriminate.
  - unfold Scenario.poll in Hrun. rewrite Hrun. reflexivity.
Defined.

(** Against C3 as the specification words it: the claim fails when the
    operation has gone by the time it is cancelled.  The monitor said stop,
    the DELETE was issued, and the call returns normally. *)
Lemma abort_signal_without_error :
  fst (Scenario.poll Scenario.stop_requested_too_late) = Returned tt
  /\ effects (snd (Scenario.poll Scenario.stop_requested_too_late)) =
     [Requested (mkRequest "GET" (task_url_of Scenario.vault Scenario.task_reply) None);
      Monitored IMAGE 25 false;
      Requested (mkRequest "DELETE" (task_url_of Scenario.vault Scenario.task_reply) None)].
Proof. split; vm_compute; reflexivity. Qed.

(** C4. A poll response whose [error_code] is not zero ends the loop and
    [poll_download_operation] returns normally, at whichever turn of the loop
    it comes ([n] turns have gone on before it); so do its callers, with no
    exception: [fetch_image] returns the image, and [update_images], wherever
    the image stands in the listing, goes on with the images that remain. *)
Theorem poll_error_code_is_swallowed {Env : Type} `{Collaborators Env}
    (vault : LXDVMImageVault) (n fuel : nat) (monitor : ProgressMonitor Env) (w : World Env) :
  (forall json_reply task_complete w_n task_reply env',
      let poll := mkRequest "GET" (task_url_of vault json_reply) None in
      is_task json_reply = true ->
      turns (task_url_of vault json_reply) monitor n w w_n ->
      transport poll (env w_n) = (inr task_reply, env') ->
      error_code_of task_reply <> 0 ->
      poll_download_operation vault (n + S fuel) json_reply monitor task_complete w =
      (Returned tt, mkWorld env' (effects w_n ++ [Requested poll])))
  /\ (forall fetch_type query prepare info env1 json_reply env2 w_n task_reply env3,
        let probe :=
          mkRequest "GET" (base_url vault ++ "/images/" ++ VMImageInfo.id info) None in
        let pull :=
          mkRequest "POST" (base_url vault ++ "/images")
                    (Some {[ "source" := JObject (source_object_for info query) ]}) in
        let poll := mkRequest "GET" (task_url_of vault json_reply) None in
        query_type_allowed query = true ->
        info_for vault query = inr info ->
        transport probe (env (after_lookup vault query w)) = (inl NotFound, env1) ->
        transport pull env1 = (inr json_reply, env2) ->
        is_task json_reply = true ->
        turns (task_url_of vault json_reply) monitor n
          (mkWorld env2
             (effects (after_lookup vault query w) ++ [Requested probe; Requested pull]))
          w_n ->
        transport poll (env w_n) = (inr task_reply, env3) ->
        error_code_of task_reply <> 0 ->
        fetch_image vault (n + S fuel) fetch_type query prepare monitor w =
        (Returned (image_of_info info), mkWorld env3 (effects w_n ++ [Requested poll])))
  /\ (forall fetch_type prepare listing env1 pre image post w_pre json_reply env2 w_n
             task_reply env3,
        let list_images := mkRequest "GET" (base_url vault ++ "/images") None in
        let poll := mkRequest "GET" (task_url_of vault json_reply) None in
        transport list_images (env w) = (inr listing, env1) ->
        QJson.toArray (QJson.value listing "metadata") = (pre ++ image :: post)%list ->
        for_each pre (update_image vault (n + S fuel) monitor)
          (mkWorld env1 (effects w ++ [Requested list_images])) = (Returned tt, w_pre) ->
        tracked image ->
        transport (refresh_of vault image) (env w_pre) = (inr json_reply, env2) ->
        is_task json_reply = true ->
        turns (task_url_of vault json_reply) monitor n
          (mkWorld env2 (effects w_pre ++ refreshing_of vault image)) w_n ->
        transport poll (env w_n) = (inr task_reply, env3) ->
        error_code_of task_reply <> 0 ->
        update_images vault (n + S fuel) fetch_type prepare monitor w =
        for_each post (update_image vault (n + S fuel) monitor)
          (mkWorld env3 (effects w_n ++ [Requested poll]))).
Proof.
  assert (forall (w0 : World Env) json_reply task_complete w_n task_reply env',
      is_task json_reply = true ->
      turns (task_url_of vault json_reply) monitor n w0 w_n ->
      transport (mkRequest "GET" (task_url_of vault json_reply) None) (env w_n)
      = (inr task_reply, env') ->
      error_code_of task_reply <> 0 ->
      poll_download_operation vault (n + S fuel) json_reply monitor task_complete w0 =
      (Returned tt,
       mkWorld env'
         (effects w_n ++ [Requested (mkRequest "GET" (task_url_of vault json_reply) None)])))
    as Hpoll.
  { intros w0 json_reply task_complete w_n task_reply env' Htask Hturns Hget Hcode.
    rewrite (poll_download_operation_turns vault n (S fuel) json_reply monitor task_complete
               w0 w_n Htask Hturns).
    apply poll_loop_break. by apply poll_once_error_code with task_reply. }
  split; [apply Hpoll|split].
  - intros fetch_type query prepare info env1 json_reply env2 w_n task_reply env3
      probe pull poll Hallowed Hinfo Hprobe Hpull Htask Hturns Hget Hcode.
    rewrite fetch_image_resumes, Hallowed, Hinfo. cbn [lift].
    set (w0 := after_lookup vault query w) in *.
    rewrite (bind_returned (ret info) _ w0 info w0 eq_refl).
    match goal with
    | |- bind (try_catch ?b ?h) _ _ = _ =>
        assert (try_catch b h w0 =
                (Returned tt, mkWorld env3 (effects w_n ++ [Requested poll])))
          as Htry
    end.
    { rewrite (probe_not_found _ _ w0 env1 Hprobe).
      erewrite bind_returned by (apply lxd_request_answered; exact Hpull).
      cbn [effects]. rewrite <- app_assoc. cbn [app].
      exact (Hpoll _ json_reply _ w_n task_reply env3 Htask Hturns Hget Hcode). }
    by rewrite (bind_returned _ _ _ _ _ Htry).
  - intros fetch_type prepare listing env1 pre image post w_pre json_reply env2 w_n
      task_reply env3 list_images poll Hlist Himages Hpre Htracked Hrefresh Htask Hturns
      Hget Hcode.
    unfold update_images. fold list_images.
    rewrite (bind_returned _ _ _ _ _ (lxd_request_answered _ _ _ w _ _ Hlist)).
    rewrite Himages.
    etransitivity; [exact (for_each_app pre (image :: post) _ _ w_pre Hpre)|].
    cbn [for_each].
    assert (update_image vault (n + S fuel) monitor image w_pre
            = (Returned tt, mkWorld env3 (effects w_n ++ [Requested poll]))) as Hstep.
    { unfold update_image.
      rewrite contains_tracked, bool_decide_eq_true_2 by done.
      unfold bind at 1, log, record. cbn [fst snd].
      erewrite bind_returned by (apply lxd_request_answered; exact Hrefresh).
      cbn [effects]. rewrite <- app_assoc. cbn [app].
      exact (Hpoll _ json_reply _ w_n task_reply env3 Htask Hturns Hget Hcode). }
    by rewrite (bind_returned _ _ _ _ _ Hstep).
Qed.

(** ** Fetching *)

Section Effects.

Context {Env : Type} `{Collaborators Env}.
Variable base : string.

Lemma pulls_app (l1 l2 : list effect) :
  pulls base (l1 ++ l2) = (pulls base l1 + pulls base l2)%nat.
Proof. induction l1 as [|ev l1 IH]; cbn; [reflexivity | rewrite IH; lia]. Qed.

Lemma quiet_ret {A : Type} (a : A) : quiet (Env := Env) base (ret a).
Proof. intros w. exists []. by rewrite app_nil_r. Qed.

Lemma quiet_throw {A : Type} e : quiet (Env := Env) base (throw (A := A) e).
Proof. intros w. exists []. by rewrite app_nil_r. Qed.

Lemma quiet_out_of_fuel {A : Type} : quiet (Env := Env) base (out_of_fuel (A := A)).
Proof. intros w. exists []. by rewrite app_nil_r. Qed.

Lemma quiet_bind {A B : Type} (c : M Env A) (k : A -> M Env B) :
  quiet base c -> (forall a, quiet (Env := Env) base (k a)) ->
  quiet (Env := Env) base (bind c k).
Proof.
  intros Hc Hk w. unfold bind. destruct (Hc w) as (added & Hadded & Hnone).
  destruct (c w) as [[a|e|] w1]; cbn [snd] in *.
  - destruct (Hk a w1) as (added' & Hadded' & Hnone').
    exists (added ++ added')%list.
    split; [by rewrite Hadded', Hadded, <- app_assoc | rewrite pulls_app; lia].
  - by exists added.
  - by exists added.
Qed.

Lemma quiet_try_catch {A : Type} (c : M Env A) handler :
  quiet base c -> (forall e k, handler e = Some k -> quiet base k) ->
  quiet (Env := Env) base (try_catch c handler).
Proof.
  intros Hc Hh w. unfold try_catch. destruct (Hc w) as (added & Hadded & Hnone).
  destruct (c w) as [[a|e|] w1]; cbn [snd] in *.
  - by exists added.
  - destruct (handler e) as [k|] eqn:Hk; [|by exists added].
    destruct (Hh e k Hk w1) as (added' & Hadded' & Hnone').
    exists (added ++ added')%list.
    split; [by rewrite Hadded', Hadded, <- app_assoc | rewrite pulls_app; lia].
  - by exists added.
Qed.

Lemma quiet_lxd_request method target json_data :
  is_pull base (Requested (mkRequest method target json_data)) = false ->
  quiet (Env := Env) base (lxd_request method target json_data).
Proof.
  intros Hno w. unfold lxd_request.
  destruct (transport _ _) as [[failure|json] env']; cbn [snd effects];
    eexists; (split; [reflexivity|]); cbn [pulls]; by rewrite Hno.
Qed.

Lemma quiet_call_monitor (monitor : ProgressMonitor Env) type progress :
  quiet (Env := Env) base (call_monitor monitor type progress).
Proof.
  intros w. unfold call_monitor. destruct (monitor _ _ _) as [b env']. by eexists.
Qed.

Lemma quiet_record ev : is_pull base ev = false -> quiet (Env := Env) base (record ev).
Proof. intros Hno w. eexists. split; [reflexivity|]. cbn. by rewrite Hno. Qed.

Lemma quiet_poll_once task_url (monitor : ProgressMonitor Env) task_complete :
  (forall metadata, quiet (Env := Env) base (task_complete metadata)) ->
  quiet (Env := Env) base (poll_once task_url monitor task_complete).
Proof.
  intros Htc. unfold poll_once. apply quiet_try_catch.
  - apply quiet_bind; [by apply quiet_lxd_request|]. intros task_reply.
    destruct (negb _); [apply quiet_ret|].
    destruct (_ =? 200).
    + apply quiet_bind; [apply Htc | intros; apply quiet_ret].
    + apply quiet_bind; [apply quiet_call_monitor|]. intros [].
      * apply quiet_bind; [by apply quiet_record | intros; apply quiet_ret].
      * apply quiet_bind; [by apply quiet_lxd_request | intros; apply quiet_throw].
  - intros [] k; cbn; intros [= <-]. apply quiet_ret.
Qed.

Lemma quiet_poll_loop fuel task_url (monitor : ProgressMonitor Env) task_complete :
  (forall metadata, quiet (Env := Env) base (task_complete metadata)) ->
  quiet (Env := Env) base (poll_loop fuel task_url monitor task_complete).
Proof.
  intros Htc. induction fuel as [|fuel IH]; cbn [poll_loop]; [apply quiet_out_of_fuel|].
  apply quiet_bind; [by apply quiet_poll_once|].
  intros []; [apply quiet_ret | exact IH].
Qed.

Lemma quiet_poll_download_operation vault fuel json_reply (monitor : ProgressMonitor Env)
    task_complete :
  (forall metadata, quiet (Env := Env) base (task_complete metadata)) ->
  quiet (Env := Env) base (poll_download_operation vault fuel json_reply monitor task_complete).
Proof.
  intros Htc. unfold poll_download_operation.
  destruct (is_task json_reply); [by apply quiet_poll_loop | apply quiet_ret].
Qed.

End Effects.

Section Fetching.

Context {Env : Type} `{Collaborators Env}.

Lemma fetch_image_returned_inv vault fuel fetch_type query prepare
    (monitor : ProgressMonitor Env) (w w' : World Env) image :
  fetch_image vault fuel fetch_type query prepare monitor w = (Returned image, w') ->
  query_type_allowed query = true
  /\ exists info, info_for vault query = inr info /\ image = image_of_info info.
Proof.
  rewrite fetch_image_resumes.
  destruct (query_type_allowed query); [|discriminate].
  unfold bind at 1, lift.
  destruct (info_for vault query) as [e|info]; [discriminate|]. cbn.
  unfold bind at 1.
  destruct (try_catch _ _ _) as [[[]|e|] w1]; try discriminate.
  intros [= <- <-]. split; [reflexivity|]. by exists info.
Qed.

(** When the probe finds the image, nothing more is requested. *)
Lemma fetch_image_present vault fuel fetch_type query prepare
    (monitor : ProgressMonitor Env) (w : World Env) info json env1 :
  let probe := mkRequest "GET" (base_url vault ++ "/images/" ++ VMImageInfo.id info) None in
  query_type_allowed query = true ->
  info_for vault query = inr info ->
  transport probe (env (after_lookup vault query w)) = (inr json, env1) ->
  fetch_image vault fuel fetch_type query prepare monitor w =
  (Returned (image_of_info info),
   mkWorld env1 (effects (after_lookup vault query w) ++ [Requested probe])).
Proof.
  intros probe Hallowed Hinfo Hprobe.
  rewrite fetch_image_resumes, Hallowed, Hinfo. cbn [lift].
  set (w0 := after_lookup vault query w) in *.
  rewrite (bind_returned (ret info) _ w0 info w0 eq_refl).
  by rewrite (bind_returned _ _ _ _ _ (probe_found _ _ w0 json env1 Hprobe)).
Qed.

(** What [fetch_image] requests once the probe has reported not-found. *)
Lemma fetch_image_absent vault fuel fetch_type query prepare
    (monitor : ProgressMonitor Env) (w : World Env) info env1 :
  let probe := mkRequest "GET" (base_url vault ++ "/images/" ++ VMImageInfo.id info) None in
  let pull :=
    mkRequest "POST" (base_url vault ++ "/images")
              (Some {[ "source" := JObject (source_object_for info query) ]}) in
  query_type_allowed query = true ->
  info_for vault query = inr info ->
  transport probe (env (after_lookup vault query w)) = (inl NotFound, env1) ->
  exists polled,
    effects (snd (fetch_image vault fuel fetch_type query prepare monitor w)) =
    (effects (after_lookup vault query w) ++ [Requested probe; Requested pull] ++ polled)%list
    /\ pulls (base_url vault) polled = O.
Proof.
  intros probe pull Hallowed Hinfo Hprobe.
  rewrite fetch_image_resumes, Hallowed, Hinfo. cbn [lift].
  set (w0 := after_lookup vault query w) in *.
  rewrite (bind_returned (ret info) _ w0 info w0 eq_refl).
  unfold bind at 1. rewrite (probe_not_found _ _ w0 env1 Hprobe).
  unfold bind at 1, lxd_request at 1. cbn [env effects]. fold pull.
  destruct (transport pull env1) as [[failure|json_reply] env2].
  - exists []. cbn. by rewrite <- app_assoc.
  - destruct (quiet_poll_download_operation (base_url vault) vault fuel json_reply monitor
                no_task_complete (fun _ => quiet_ret _ tt)
                (mkWorld env2 ((effects w0 ++ [Requested probe]) ++ [Requested pull])))
      as (polled & Hpolled & Hnone).
    exists polled. split; [|exact Hnone].
    destruct (poll_download_operation _ _ _ _ _ _) as [[[]|e|] w2];
      cbn [snd effects ret] in *; rewrite Hpolled, <- !app_assoc; reflexivity.
Qed.

End Fetching.

(** C10. Whatever [fetch_image] returns has empty image, kernel and initrd
    paths, and its other fields are those of the metadata that the catalog
    resolves for the query, aliases in catalog order; what the daemon said
    about an existing instance plays no part. *)
Theorem fetch_image_returns_catalog_metadata {Env : Type} `{Collaborators Env}
    (vault : LXDVMImageVault) (fuel : nat) (fetch_type : FetchType) (query : Query)
    (prepare : PrepareAction) (monitor : ProgressMonitor Env) (w w' : World Env)
    (image : VMImage.t) :
  fetch_image vault fuel fetch_type query prepare monitor w = (Returned image, w') ->
  exists info,
    info_for vault query = inr info
    /\ VMImage.image_path image = ""
    /\ VMImage.kernel_path image = ""
    /\ VMImage.initrd_path image = ""
    /\ VMImage.id image = VMImageInfo.id info
    /\ VMImage.stream_location image = VMImageInfo.stream_location info
    /\ VMImage.original_release image = VMImageInfo.release_title info
    /\ VMImage.release_date image = VMImageInfo.version info
    /\ VMImage.aliases image = VMImageInfo.aliases info.
Proof.
  intros Hfetch.
  destruct (fetch_image_returned_inv _ _ _ _ _ _ _ _ _ Hfetch) as (_ & info & Hinfo & ->).
  exists info. repeat split. exact Hinfo.
Qed.

Lemma fetch_image_returns_catalog_metadata_witness :
  fst (Scenario.fetch Scenario.xenial_query Scenario.instance_of_bionic)
  = Returned (image_of_info Scenario.xenial_info)
  /\ exists info,
       info_for Scenario.vault Scenario.xenial_query = inr info
       /\ VMImage.image_path (image_of_info Scenario.xenial_info) = ""
       /\ VMImage.id (image_of_info Scenario.xenial_info) = VMImageInfo.id info
       /\ VMImage.aliases (image_of_info Scenario.xenial_info) = VMImageInfo.aliases info.
Proof.
  set (run := Scenario.fetch Scenario.xenial_query Scenario.instance_of_bionic).
  assert (run = (Returned (image_of_info Scenario.xenial_info), snd run)) as Hrun
    by (vm_compute; reflexivity).
  split; [by rewrite Hrun|].
  destruct (fetch_image_returns_catalog_metadata Scenario.vault 3 ImageOnly
              Scenario.xenial_query Scenario.keep Scripted.monitor
              Scenario.instance_of_bionic (snd run)
              (image_of_info Scenario.xenial_info) Hrun)
    as (info & Hinfo & Hpath & _ & _ & Hid & _ & _ & _ & Haliases).
  by exists info.
Defined.

(** C5. When the probe for the image is answered with not-found, the next
    request of [fetch_image] is POST /images with a body whose only member,
    "source", holds exactly: type "image", mode "pull", protocol
    "simplestreams", server the stream location, image_type
    "virtual-machine", and either "fingerprint" with the id, when the id
    starts with the requested release, or else "alias" with the requested
    release; never both. *)
Theorem fetch_image_pull_request_body {Env : Type} `{Collaborators Env}
    (vault : LXDVMImageVault) (fuel : nat) (fetch_type : FetchType) (query : Query)
    (prepare : PrepareAction) (monitor : ProgressMonitor Env) (w : World Env)
    (info : VMImageInfo.t) (env1 : Env) :
  let w0 := after_lookup vault query w in
  let image_id := VMImageInfo.id info in
  let probe := mkRequest "GET" (base_url vault ++ "/images/" ++ image_id) None in
  query_type_allowed query = true ->
  info_for vault query = inr info ->
  transport probe (env w0) = (inl NotFound, env1) ->
  exists (source_object : gmap string QJsonValue) (polled : list effect),
    effects (snd (fetch_image vault fuel fetch_type query prepare monitor w)) =
    (effects w0
     ++ [Requested probe;
         Requested (mkRequest "POST" (base_url vault ++ "/images")
                              (Some {[ "source" := JObject source_object ]}))]
     ++ polled)%list
    /\ source_object !! "type" = Some (JString "image")
    /\ source_object !! "mode" = Some (JString "pull")
    /\ source_object !! "protocol" = Some (JString "simplestreams")
    /\ source_object !! "server" = Some (JString (VMImageInfo.stream_location info))
    /\ source_object !! "image_type" = Some (JString "virtual-machine")
    /\ (if QStr.startsWith image_id (release query)
        then source_object !! "fingerprint" = Some (JString image_id)
             /\ source_object !! "alias" = None
        else source_object !! "alias" = Some (JString (release query))
             /\ source_object !! "fingerprint" = None)
    /\ (forall key : string,
          key ∉ ["type"; "mode"; "protocol"; "server"; "image_type"; "fingerprint"; "alias"] ->
          source_object !! key = None).
Proof.
  intros w0 image_id probe Hallowed Hinfo Hprobe.
  destruct (fetch_image_absent vault fuel fetch_type query prepare monitor w info env1
              Hallowed Hinfo Hprobe) as (polled & Heffects & _).
  exists (source_object_for info query), polled.
  split; [exact Heffects|].
  unfold source_object_for. fold image_id.
  destruct (QStr.startsWith image_id (release query)).
  all: repeat split; try reflexivity.
  all: intros key Hkey; rewrite !lookup_insert_ne by (intros <-; apply Hkey; set_solver).
  all: apply lookup_empty.
Qed.

Lemma fetch_image_pull_request_body_witness :
  exists (source_object : gmap string QJsonValue),
    source_object !! "alias" = Some (JString "xenial")
    /\ source_object !! "fingerprint" = None
    /\ Requested (mkRequest "POST" (Scenario.base ++ "/images")
                            (Some {[ "source" := JObject source_object ]}))
       ∈ effects (snd (Scenario.fetch Scenario.xenial_query Scenario.image_absent)).
Proof.
  pose proof (fetch_image_pull_request_body Scenario.vault 3 ImageOnly Scenario.xenial_query
                Scenario.keep Scripted.monitor Scenario.image_absent Scenario.xenial_info
                (Scripted.mk [inr Scenario.sync_reply] [] 0)) as Hbody.
  cbv zeta in Hbody.
  assert (transport
            (mkRequest "GET"
               (base_url Scenario.vault ++ "/images/" ++ VMImageInfo.id Scenario.xenial_info)
               None)
            (env (after_lookup Scenario.vault Scenario.xenial_query Scenario.image_absent))
          = (inl NotFound, Scripted.mk [inr Scenario.sync_reply] [] 0)) as Hprobe
    by (vm_compute; reflexivity).
  destruct (Hbody eq_refl eq_refl Hprobe)
    as (source_object & polled & Heffects & _ & _ & _ & _ & _ & Hchoice & _).
  exists source_object. split; [apply Hchoice|]. split; [apply Hchoice|].
  unfold Scenario.fetch. rewrite Heffects, elem_of_app. right.
  change (?x ∈ ([?a; ?b] ++ polled)%list) with (x ∈ a :: b :: polled).
  rewrite !elem_of_cons. right. left. reflexivity.
Defined.

Section Twice.

Context {Env : Type} `{Collaborators Env}.

Lemma pulls_after_lookup vault query (w : World Env) :
  pulls (base_url vault) (effects (after_lookup vault query w)) =
  pulls (base_url vault) (effects w).
Proof. rewrite after_lookup_eq. cbn [effects]. rewrite pulls_app. cbn. lia. Qed.

Lemma is_pull_post base json_data :
  is_pull base (Requested (mkRequest "POST" (base ++ "/images") json_data)) = true.
Proof. cbn. apply String.eqb_refl. Qed.

Lemma fetch_image_pulls_at_most_once vault fuel fetch_type query prepare
    (monitor : ProgressMonitor Env) (w w1 : World Env) image :
  fetch_image vault fuel fetch_type query prepare monitor w = (Returned image, w1) ->
  (pulls (base_url vault) (effects w1) <= pulls (base_url vault) (effects w) + 1)%nat.
Proof.
  intros Hfetch.
  destruct (fetch_image_returned_inv _ _ _ _ _ _ _ _ _ Hfetch) as (Hallowed & info & Hinfo & ->).
  destruct (transport (mkRequest "GET" (base_url vault ++ "/images/" ++ VMImageInfo.id info) None)
                      (env (after_lookup vault query w)))
    as [[[|what]|json] env1] eqn:Hprobe.
  - destruct (fetch_image_absent vault fuel fetch_type query prepare monitor w info env1
                Hallowed Hinfo Hprobe) as (polled & Heffects & Hnone).
    rewrite Hfetch in Heffects. cbn [snd] in Heffects.
    rewrite Heffects, !pulls_app, pulls_after_lookup, Hnone.
    cbn [pulls]. rewrite is_pull_post. cbn. lia.
  - rewrite fetch_image_resumes, Hallowed, Hinfo in Hfetch. cbn [lift] in Hfetch.
    set (w0 := after_lookup vault query w) in *.
    rewrite (bind_returned (ret info) _ w0 info w0 eq_refl) in Hfetch.
    rewrite (bind_thrown _ _ _ _ _ (probe_failed _ _ w0 what env1 Hprobe)) in Hfetch.
    discriminate Hfetch.
  - rewrite (fetch_image_present vault fuel fetch_type query prepare monitor w info json env1
               Hallowed Hinfo Hprobe) in Hfetch.
    injection Hfetch as <-. cbn [effects].
    rewrite pulls_app, pulls_after_lookup. cbn. lia.
Qed.

End Twice.

(** C1. Two calls of [fetch_image] for one instance name.  The first, for
    xenial, finds neither the instance nor the image, pulls the image and
    returns it.  At the second, for bionic, the daemon reports the instance
    and the xenial image it was made from, and the catalog knows that image
    by its full hash; the call drops what it has found, resolves the query
    anew, pulls a second time and returns another image. *)
Theorem fetch_image_same_name_two_pulls :
  let first := Scenario.fetch Scenario.xenial_query Scenario.empty_daemon_two_releases in
  let second := Scenario.fetch Scenario.bionic_query (snd first) in
  name Scenario.xenial_query = name Scenario.bionic_query
  /\ fst first = Returned (image_of_info Scenario.xenial_info)
  /\ pulls Scenario.base (effects (snd first)) = 1%nat
  /\ fst (transport
            (mkRequest "GET" (Scenario.base ++ "/virtual_machines/primary") None)
            (env (snd first)))
     = inr (Scenario.instance_reply (VMImageInfo.id Scenario.xenial_info))
  /\ info_for_full_hash Scenario.release_host (VMImageInfo.id Scenario.xenial_info)
     = inr Scenario.xenial_info
  /\ fst second = Returned (image_of_info Scenario.bionic_info)
  /\ image_of_info Scenario.xenial_info <> image_of_info Scenario.bionic_info
  /\ pulls Scenario.base (effects (snd second)) = 2%nat.
Proof.
  intros first second.
  split; [reflexivity|]. split; [vm_compute; reflexivity|].
  split; [vm_compute; reflexivity|]. split; [vm_compute; reflexivity|].
  split; [vm_compute; reflexivity|]. split; [vm_compute; reflexivity|].
  split; [discriminate | vm_compute; reflexivity].
Qed.

(** ** Resolution *)

Section Registration.

Context {Env : Type} `{Collaborators Env}.

Lemma register_remotes_lookup image_host (map : gmap string VMImageHost) remote :
  register_remotes image_host map !! remote =
  if is_remote_supported remote && bool_decide (remote ∈ supported_remotes image_host)
  then Some image_host else map !! remote.
Proof.
  unfold register_remotes. revert map.
  induction (supported_remotes image_host) as [|r remotes IH]; intros map; cbn [foldl].
  - rewrite bool_decide_eq_false_2 by apply not_elem_of_nil. by rewrite andb_false_r.
  - rewrite IH. destruct (is_remote_supported remote) eqn:Hsupported; cbn [andb].
    + destruct (decide (remote ∈ remotes)) as [Hin|Hout].
      * rewrite !bool_decide_eq_true_2; [reflexivity|rewrite elem_of_cons; tauto|done].
      * rewrite (bool_decide_eq_false_2 (remote ∈ remotes)) by done.
        destruct (decide (remote = r)) as [->|Hne].
        -- rewrite Hsupported, lookup_insert_eq, bool_decide_eq_true_2
             by (rewrite elem_of_cons; tauto).
           reflexivity.
        -- rewrite bool_decide_eq_false_2 by (rewrite elem_of_cons; tauto).
           destruct (is_remote_supported r); [by rewrite lookup_insert_ne|reflexivity].
    + destruct (is_remote_supported r) eqn:Hr; [|reflexivity].
      rewrite lookup_insert_ne; [reflexivity|]. intros ->. congruence.
Qed.

Lemma registered_remotes_lookup hosts (map : gmap string VMImageHost) remote :
  foldl (fun m image_host => register_remotes image_host m) map hosts !! remote =
  match (if is_remote_supported remote then last_supporting remote hosts else None) with
  | Some image_host => Some image_host
  | None => map !! remote
  end.
Proof.
  revert map. induction hosts as [|image_host hosts IH]; intros map; cbn [foldl last_supporting].
  - by destruct (is_remote_supported remote).
  - rewrite IH, register_remotes_lookup.
    destruct (is_remote_supported remote); cbn [andb]; [|reflexivity].
    destruct (last_supporting remote hosts); [reflexivity|].
    by destruct (bool_decide _).
Qed.

Lemma first_info_found pre image_host post query info :
  Forall (fun earlier => host_info_for earlier query = None) pre ->
  host_info_for image_host query = Some info ->
  first_info (pre ++ image_host :: post) query = Some info.
Proof.
  intros Hpre Hhost. induction Hpre as [|earlier pre Hnone _ IH]; cbn [app first_info].
  - by rewrite Hhost.
  - by rewrite Hnone.
Qed.

Lemma first_info_none hosts query :
  Forall (fun image_host => host_info_for image_host query = None) hosts ->
  first_info hosts query = None.
Proof.
  induction 1 as [|image_host hosts Hnone _ IH]; cbn [first_info]; [reflexivity|].
  by rewrite Hnone.
Qed.

End Registration.

(** C2. The vault built from [hosts] registers, for every remote name the
    platform supports, the last backend that lists it.  Resolution with a
    remote name fails with the unknown-remote error when the name is not
    registered and otherwise asks the registered backend alone; without a
    remote name it asks the backends in registration order and returns the
    first result; it fails with the no-matching-image error when no backend
    asked yields a result. *)
Theorem info_for_resolution {Env : Type} `{Collaborators Env}
    (hosts : list VMImageHost) (days : Z) (base : string) (query : Query) :
  let vault := new_vault hosts days base in
  (image_hosts vault = hosts
   /\ forall remote,
        remote_image_host_map vault !! remote =
        if is_remote_supported remote then last_supporting remote hosts else None)
  /\ (remote_name query <> "" ->
      remote_image_host_map vault !! remote_name query = None ->
      info_for vault query = inl (unknown_remote query))
  /\ (remote_name query <> "" ->
      forall image_host,
        remote_image_host_map vault !! remote_name query = Some image_host ->
        info_for vault query =
        match host_info_for image_host query with
        | Some info => inr info
        | None => inl (no_matching_image query)
        end)
  /\ (remote_name query = "" ->
      forall pre image_host post info,
        hosts = (pre ++ image_host :: post)%list ->
        Forall (fun earlier => host_info_for earlier query = None) pre ->
        host_info_for image_host query = Some info ->
        info_for vault query = inr info)
  /\ (remote_name query = "" ->
      Forall (fun image_host => host_info_for image_host query = None) hosts ->
      info_for vault query = inl (no_matching_image query)).
Proof.
  intros vault. split; [split; [reflexivity|]|].
  { intros remote. unfold vault, new_vault. cbn [remote_image_host_map].
    rewrite registered_remotes_lookup, lookup_empty.
    destruct (is_remote_supported remote); [|reflexivity].
    by destruct (last_supporting remote hosts). }
  unfold info_for.
  repeat split.
  - intros Hnamed Habsent. apply String.eqb_neq in Hnamed. by rewrite Hnamed, Habsent.
  - intros Hnamed image_host Hpresent. apply String.eqb_neq in Hnamed.
    rewrite Hnamed, Hpresent. cbn [negb]. by destruct (host_info_for image_host query).
  - intros Hunnamed pre image_host post info Hhosts Hpre Hhost.
    apply String.eqb_eq in Hunnamed. rewrite Hunnamed. cbn [negb image_hosts vault new_vault].
    subst hosts. by rewrite (first_info_found _ _ _ _ _ Hpre Hhost).
  - intros Hunnamed Hnone.
    apply String.eqb_eq in Hunnamed. rewrite Hunnamed. cbn [negb image_hosts vault new_vault].
    by rewrite (first_info_none _ _ Hnone).
Qed.

Lemma info_for_resolution_witness :
  info_for Scenario.vault (Scenario.query_for "primary" "xenial" "appliance")
  = inl (unknown_remote (Scenario.query_for "primary" "xenial" "appliance"))
  /\ info_for Scenario.vault (Scenario.query_for "primary" "xenial" "release")
     = inr Scenario.xenial_daily_info
  /\ info_for Scenario.vault (Scenario.query_for "primary" "xenial" "")
     = inr Scenario.xenial_info
  /\ info_for Scenario.vault (Scenario.query_for "primary" "focal" "")
     = inl (no_matching_image (Scenario.query_for "primary" "focal" "")).
Proof.
  split; [|split; [|split]].
  - apply (info_for_resolution (Env := Scripted.t) [Scenario.release_host; Scenario.daily_host]
             1 Scenario.base (Scenario.query_for "primary" "xenial" "appliance")).
    + discriminate.
    + reflexivity.
  - apply (proj1 (proj2 (proj2 (info_for_resolution (Env := Scripted.t)
             [Scenario.release_host; Scenario.daily_host]
             1 Scenario.base (Scenario.query_for "primary" "xenial" "release"))))
             ltac:(discriminate) Scenario.daily_host eq_refl).
  - apply (proj1 (proj2 (proj2 (proj2 (info_for_resolution (Env := Scripted.t)
             [Scenario.release_host; Scenario.daily_host]
             1 Scenario.base (Scenario.query_for "primary" "xenial" "")))))
             eq_refl [] Scenario.release_host [Scenario.daily_host] Scenario.xenial_info
             eq_refl ltac:(constructor) eq_refl).
  - apply (proj2 (proj2 (proj2 (proj2 (info_for_resolution (Env := Scripted.t)
             [Scenario.release_host; Scenario.daily_host]
             1 Scenario.base (Scenario.query_for "primary" "focal" "")))))
             eq_refl).
    repeat constructor.
Defined.

(** ** The clock's arithmetic *)

Lemma wrap64_range (z : Z) : fits_int64 (wrap64 z).
Proof.
  unfold fits_int64, wrap64, INT64_MIN, INT64_MAX.
  pose proof (Z.mod_pos_bound (z + 2 ^ 63) (2 ^ 64) ltac:(lia)). lia.
Qed.

Lemma wrap64_fits (z : Z) : fits_int64 z -> wrap64 z = z.
Proof.
  unfold fits_int64, wrap64, INT64_MIN, INT64_MAX. intros Hz.
  rewrite Z.mod_small by lia. lia.
Qed.

Lemma plus_no_days (t : Z) : fits_int64 t -> chrono.plus t (chrono.nanoseconds_of_days 0) = t.
Proof.
  intros Ht. unfold chrono.plus, chrono.nanoseconds_of_days.
  rewrite Z.mul_0_l, (wrap64_fits 0) by (unfold fits_int64, INT64_MIN, INT64_MAX; lia).
  rewrite Z.add_0_r. by apply wrap64_fits.
Qed.

Lemma plus_one_day (t : Z) :
  fits_int64 t -> t + chrono.nanoseconds_in_day <= INT64_MAX ->
  chrono.plus t (chrono.nanoseconds_of_days 1) = t + chrono.nanoseconds_in_day.
Proof.
  unfold fits_int64, chrono.plus, chrono.nanoseconds_of_days. intros Ht Hroom.
  rewrite Z.mul_1_l.
  rewrite (wrap64_fits chrono.nanoseconds_in_day)
    by (unfold fits_int64, chrono.nanoseconds_in_day, INT64_MIN, INT64_MAX; lia).
  apply wrap64_fits. unfold fits_int64, chrono.nanoseconds_in_day in *. lia.
Qed.

Lemma deadline_exact {Env : Type} `{Collaborators Env} (vault : LXDVMImageVault)
    (image : QJsonValue) :
  representable vault image ->
  chrono.plus (last_used_of image) (chrono.nanoseconds_of_days (days_to_expire vault))
  = last_used_count_of image * chrono.nanoseconds_in_millisecond
    + days_to_expire vault * chrono.nanoseconds_in_day.
Proof.
  intros (Hused & Hdays & Hsum).
  unfold chrono.plus, last_used_of, chrono.time_point_of_milliseconds,
    chrono.nanoseconds_of_days.
  by rewrite (wrap64_fits _ Hused), (wrap64_fits _ Hdays), (wrap64_fits _ Hsum).
Qed.

Section Pruning.

Context {Env : Type} `{Collaborators Env}.
Variable vault : LXDVMImageVault.

Lemma prune_image_eligible image (w : World Env) :
  eligible vault image (fst (system_clock_now (env w))) ->
  prune_image vault image w =
  (let reply :=
     transport
       (mkRequest "DELETE"
          (base_url vault ++ "/images/"
           ++ QJson.toString (QJson.value (QJson.toObject image) "fingerprint")) None)
       (snd (system_clock_now (env w))) in
   (match fst reply with
    | inl failure => Thrown (lxd_exception failure)
    | inr _ => Returned tt
    end,
    mkWorld (snd reply) (effects w ++ removal_of vault image))).
Proof.
  intros [Htracked Hexpired]. unfold prune_image.
  rewrite contains_tracked, bool_decide_eq_true_2 by done.
  unfold bind at 1, now. destruct (system_clock_now (env w)) as [current env1]. cbn [fst snd] in *.
  fold (last_used_count_of image) (last_used_of image).
  apply Z.leb_le in Hexpired. rewrite Hexpired.
  unfold bind, log, record, lxd_request, removal_of, category. cbn [env effects].
  destruct (transport _ env1) as [[failure|json] env2]; cbn [fst snd]; by rewrite <- app_assoc.
Qed.

Lemma prune_image_ineligible image (w : World Env) :
  ~ eligible vault image (fst (system_clock_now (env w))) ->
  exists env', prune_image vault image w = (Returned tt, mkWorld env' (effects w)).
Proof.
  intros Hnot. unfold prune_image. rewrite contains_tracked.
  destruct (decide (tracked image)) as [Htracked|Huntracked].
  - rewrite bool_decide_eq_true_2 by done.
    unfold bind at 1, now. destruct (system_clock_now (env w)) as [current env1].
    cbn [fst snd] in *. fold (last_used_count_of image) (last_used_of image).
    destruct (_ <=? current) eqn:Hexpired; [|by exists env1].
    apply Z.leb_le in Hexpired. destruct Hnot. by split.
  - rewrite bool_decide_eq_false_2 by done. exists (env w). by destruct w.
Qed.

Lemma sweep_effects current images (w : World Env) :
  (forall e, system_clock_now e = (current, e)) ->
  (forall r e, verb r = "DELETE" -> exists json e', transport r e = (inr json, e')) ->
  exists w',
    for_each images (prune_image vault) w = (Returned tt, w')
    /\ effects w' = (effects w ++ sweep_of vault current images)%list.
Proof.
  intros Hclock Hdelete. revert w.
  induction images as [|image images IH]; intros w; cbn [for_each].
  - exists w. split; [reflexivity|]. unfold sweep_of. cbn. by rewrite app_nil_r.
  - unfold sweep_of. cbn [List.map concat]. fold (sweep_of vault current images).
    pose proof (Hclock (env w)) as Hnow.
    destruct (decide (eligible vault image current)) as [Hyes|Hno].
    + pose proof (prune_image_eligible image w) as Hrun.
      rewrite Hnow in Hrun. cbn [fst snd] in Hrun. specialize (Hrun Hyes).
      destruct (Hdelete
                  (mkRequest "DELETE"
                     (base_url vault ++ "/images/"
                      ++ QJson.toString (QJson.value (QJson.toObject image) "fingerprint"))
                     None) (env w) eq_refl) as (json & e' & Hreply).
      rewrite Hreply in Hrun. cbn [fst snd] in Hrun.
      rewrite (bind_returned _ _ _ _ _ Hrun).
      destruct (IH (mkWorld e' (effects w ++ removal_of vault image))) as (w' & Hrest & Heffects).
      exists w'. split; [exact Hrest|]. rewrite Heffects. cbn [effects]. by rewrite <- app_assoc.
    + pose proof (prune_image_ineligible image w) as Hrun.
      rewrite Hnow in Hrun. cbn [fst] in Hrun. destruct (Hrun Hno) as [env' Hstep].
      rewrite (bind_returned _ _ _ _ _ Hstep).
      destruct (IH (mkWorld env' (effects w))) as (w' & Hrest & Heffects).
      exists w'. split; [exact Hrest|]. by rewrite Heffects.
Qed.

End Pruning.

(** C6. The sweep deletes an image exactly when its record has an
    [update_source] member and its last use plus the expiry period is not
    after the clock, and does nothing for any other image: so does each turn
    of its loop, and so does a whole sweep in which the daemon carries out
    the deletions.  The vault adds in the clock's 64-bit count of
    nanoseconds; whenever that count represents the last use and the
    deadline, its test is the exact comparison.  With an expiry of zero days
    a tracked image is deleted whenever its last use is not after the clock;
    with one day and a last use at the clock's time it is kept; an image
    without [update_source] is never deleted, whatever its age. *)
Theorem prune_expired_images_expiry {Env : Type} `{Collaborators Env}
    (vault : LXDVMImageVault) (w : World Env) :
  (forall image,
      let current := fst (system_clock_now (env w)) in
      (eligible vault image current ->
       effects (snd (prune_image vault image w)) = (effects w ++ removal_of vault image)%list)
      /\ (~ eligible vault image current ->
          fst (prune_image vault image w) = Returned tt
          /\ effects (snd (prune_image vault image w)) = effects w))
  /\ (forall current listing env1,
        let list_images := mkRequest "GET" (base_url vault ++ "/images") None in
        (forall e, system_clock_now e = (current, e)) ->
        (forall r e, verb r = "DELETE" -> exists json e', transport r e = (inr json, e')) ->
        transport list_images (env w) = (inr listing, env1) ->
        exists w',
          prune_expired_images vault w = (Returned tt, w')
          /\ effects w' =
             (effects w ++ Requested list_images
              :: sweep_of vault current (QJson.toArray (QJson.value listing "metadata")))%list)
  /\ (forall image current,
        representable vault image ->
        (eligible vault image current <-> tracked image /\ expired vault image current))
  /\ (forall image current,
        days_to_expire vault = 0 -> tracked image ->
        (eligible vault image current <-> last_used_of image <= current))
  /\ (forall image current,
        days_to_expire vault = 1 -> last_used_of image = current ->
        current + chrono.nanoseconds_in_day <= INT64_MAX ->
        ~ eligible vault image current)
  /\ (forall image current, ~ tracked image -> ~ eligible vault image current).
Proof.
  split; [|split; [|split; [|split; [|split]]]].
  - intros image current. split.
    + intros Hyes. by rewrite (prune_image_eligible vault image w Hyes).
    + intros Hno. destruct (prune_image_ineligible vault image w Hno) as [env' ->].
      by split.
  - intros current listing env1 list_images Hclock Hdelete Hlist.
    unfold prune_expired_images. fold list_images.
    rewrite (bind_returned _ _ _ _ _ (lxd_request_answered _ _ _ w _ _ Hlist)).
    destruct (sweep_effects vault current (QJson.toArray (QJson.value listing "metadata"))
                (mkWorld env1 (effects w ++ [Requested list_images])) Hclock Hdelete)
      as (w' & Hrun & Heffects).
    exists w'. split; [exact Hrun|]. rewrite Heffects. cbn [effects]. by rewrite <- app_assoc.
  - intros image current Hrange. unfold eligible. by rewrite (deadline_exact vault image Hrange).
  - intros image current Hdays Htracked. unfold eligible. rewrite Hdays.
    rewrite (plus_no_days (last_used_of image)) by apply wrap64_range. tauto.
  - intros image current Hdays Hused Hroom [_ Hle]. rewrite Hdays, Hused in Hle.
    rewrite plus_one_day in Hle.
    + unfold chrono.nanoseconds_in_day in Hle. lia.
    + rewrite <- Hused. apply wrap64_range.
    + exact Hroom.
  - intros image current Huntracked [Htracked _]. contradiction.
Qed.

(** One turn of the loop run on a concrete world. *)
Ltac one_turn :=
  eapply turns_next;
  [reflexivity | reflexivity | vm_compute; discriminate | reflexivity | ].

(** The last use of an image that was never used is outside what the
    clock's count represents; the time point the vault makes of it is still
    before the clock, and the sweep removes the image, as the exact
    comparison would. *)
Example never_used_image_is_pruned :
  ~ representable (Env := Scripted.t) Scenario.vault Scenario.never_used_xenial
  /\ last_used_of (Env := Scripted.t) Scenario.never_used_xenial = -6795364578871345152
  /\ expired (Env := Scripted.t) Scenario.vault Scenario.never_used_xenial Scenario.june_clock
  /\ effects (snd (prune_image Scenario.vault Scenario.never_used_xenial
                               Scenario.on_first_of_june))
     = removal_of Scenario.vault Scenario.never_used_xenial.
Proof.
  split; [|split; [|split]].
  - intros [[Hlow _] _]. vm_compute in Hlow. by apply Hlow.
  - vm_compute. reflexivity.
  - vm_compute. discriminate.
  - vm_compute. reflexivity.
Qed.

Ltac by_decision :=
  match goal with
  | |- ~ ?P => apply (bool_decide_eq_false_1 P); vm_compute; reflexivity
  | |- ?P => apply (bool_decide_eq_true_1 P); vm_compute; reflexivity
  end.

Lemma prune_expired_images_expiry_witness :
  effects (snd (prune_image Scenario.vault Scenario.old_xenial Scenario.on_first_of_june))
  = removal_of Scenario.vault Scenario.old_xenial
  /\ (fst (prune_image Scenario.vault Scenario.fresh_bionic Scenario.on_first_of_june)
      = Returned tt
      /\ effects (snd (prune_image Scenario.vault Scenario.fresh_bionic
                                   Scenario.on_first_of_june)) = [])
  /\ (exists w',
        prune_expired_images Scenario.vault Scenario.obliging_daemon = (Returned tt, w')
        /\ effects w' =
           Requested (mkRequest "GET" (Scenario.base ++ "/images") None)
           :: removal_of Scenario.vault Scenario.old_xenial)
  /\ (eligible (Env := Scripted.t) Scenario.vault Scenario.old_xenial Scenario.june_clock
      <-> tracked Scenario.old_xenial
          /\ expired (Env := Scripted.t) Scenario.vault Scenario.old_xenial Scenario.june_clock)
  /\ (eligible (Env := Scripted.t) Scenario.eager_vault Scenario.fresh_bionic
               Scenario.june_clock
      <-> last_used_of (Env := Scripted.t) Scenario.fresh_bionic <= Scenario.june_clock)
  /\ ~ eligible (Env := Scripted.t) Scenario.vault Scenario.fresh_bionic Scenario.june_clock
  /\ ~ eligible (Env := Scripted.t) Scenario.vault Scenario.untracked_xenial
                Scenario.june_clock.
Proof.
  pose proof (prune_expired_images_expiry Scenario.vault Scenario.on_first_of_june)
    as (Himage & _ & Hexact & _ & Hone & Huntracked).
  pose proof (prune_expired_images_expiry Scenario.vault Scenario.obliging_daemon)
    as (_ & Hsweep & _).
  split; [|split; [|split; [|split; [|split; [|split]]]]].
  - apply (proj1 (Himage Scenario.old_xenial)). by_decision.
  - apply (proj2 (Himage Scenario.fresh_bionic)). by_decision.
  - apply (Hsweep Scenario.june_clock Scenario.three_images
             (Obliging.mk Scenario.three_images)).
    + reflexivity.
    + intros r e _. by exists (Obliging.listing e), e.
    + reflexivity.
  - apply Hexact. vm_compute. repeat split; discriminate.
  - apply (proj1 (proj2 (proj2 (proj2 (prune_expired_images_expiry Scenario.eager_vault
                                         Scenario.on_first_of_june))))).
    + reflexivity.
    + by eexists.
  - apply Hone.
    + reflexivity.
    + reflexivity.
    + vm_compute. discriminate.
  - apply Huntracked. by_decision.
Defined.

(** ** Best-effort lookups *)

(** C9. Whatever the daemon answers about the instance and whatever the
    backends do with its base-image id, the first block of [fetch_image]
    returns normally after its one request and logs nothing, so
    [fetch_image] resolves and returns the image all the same.
    [update_images] has no such guard: wherever a tracked image stands in the
    listing, an error raised while it is processed reaches the caller as it
    is, with nothing done for the images after it; a refresh request that
    fails is such an error. *)
Theorem best_effort_lookup_is_contained {Env : Type} `{Collaborators Env}
    (vault : LXDVMImageVault) (fuel : nat) (fetch_type : FetchType) (query : Query)
    (prepare : PrepareAction) (monitor : ProgressMonitor Env) (w : World Env) :
  let lookup :=
    mkRequest "GET" (base_url vault ++ "/virtual_machines/" ++ name query) None in
  let list_images := mkRequest "GET" (base_url vault ++ "/images") None in
  try_catch (existing_instance_lookup vault query) (std_exception (ret tt)) w
  = (Returned tt,
     mkWorld (snd (transport lookup (env w))) (effects w ++ [Requested lookup]))
  /\ (forall info json env1,
        query_type_allowed query = true ->
        info_for vault query = inr info ->
        transport
          (mkRequest "GET" (base_url vault ++ "/images/" ++ VMImageInfo.id info) None)
          (env (after_lookup vault query w)) = (inr json, env1) ->
        fst (fetch_image vault fuel fetch_type query prepare monitor w)
        = Returned (image_of_info info))
  /\ (forall listing env1 pre image post w_pre e w',
        transport list_images (env w) = (inr listing, env1) ->
        QJson.toArray (QJson.value listing "metadata") = (pre ++ image :: post)%list ->
        for_each pre (update_image vault fuel monitor)
          (mkWorld env1 (effects w ++ [Requested list_images])) = (Returned tt, w_pre) ->
        update_image vault fuel monitor image w_pre = (Thrown e, w') ->
        update_images vault fuel fetch_type prepare monitor w = (Thrown e, w'))
  /\ (forall listing env1 pre image post w_pre failure env2,
        transport list_images (env w) = (inr listing, env1) ->
        QJson.toArray (QJson.value listing "metadata") = (pre ++ image :: post)%list ->
        for_each pre (update_image vault fuel monitor)
          (mkWorld env1 (effects w ++ [Requested list_images])) = (Returned tt, w_pre) ->
        tracked image ->
        transport (refresh_of vault image) (env w_pre) = (inl failure, env2) ->
        update_images vault fuel fetch_type prepare monitor w
        = (Thrown (lxd_exception failure),
           mkWorld env2 (effects w_pre ++ refreshing_of vault image))).
Proof.
  intros lookup list_images.
  assert (forall listing env1 pre image post w_pre e w',
        transport list_images (env w) = (inr listing, env1) ->
        QJson.toArray (QJson.value listing "metadata") = (pre ++ image :: post)%list ->
        for_each pre (update_image vault fuel monitor)
          (mkWorld env1 (effects w ++ [Requested list_images])) = (Returned tt, w_pre) ->
        update_image vault fuel monitor image w_pre = (Thrown e, w') ->
        update_images vault fuel fetch_type prepare monitor w = (Thrown e, w')) as Hany.
  { intros listing env1 pre image post w_pre e w' Hlist Himages Hpre Hraised.
    unfold update_images. fold list_images.
    rewrite (bind_returned _ _ _ _ _ (lxd_request_answered _ _ _ w _ _ Hlist)).
    rewrite Himages.
    etransitivity; [exact (for_each_app pre (image :: post) _ _ w_pre Hpre)|].
    cbn [for_each]. by apply bind_thrown. }
  split; [apply guarded_lookup_returns|]. split; [|split; [exact Hany|]].
  - intros info json env1 Hallowed Hinfo Hprobe.
    by rewrite (fetch_image_present vault fuel fetch_type query prepare monitor w info json env1
                  Hallowed Hinfo Hprobe).
  - intros listing env1 pre image post w_pre failure env2 Hlist Himages Hpre Htracked Hrefresh.
    apply (Hany listing env1 pre image post w_pre _ _ Hlist Himages Hpre).
    unfold update_image. rewrite contains_tracked, bool_decide_eq_true_2 by done.
    unfold bind at 1, log, record. cbn [fst snd].
    erewrite bind_thrown; [|apply lxd_request_failed; exact Hrefresh].
    unfold refreshing_of, refresh_of, category. cbn [effects env].
    by rewrite <- app_assoc.
Qed.

Lemma best_effort_lookup_is_contained_witness :
  fst (Scenario.fetch Scenario.xenial_query Scenario.lookup_refused)
  = Returned (image_of_info Scenario.xenial_info)
  /\ update_images Scenario.vault 3 ImageOnly Scenario.keep Scripted.monitor
                   Scenario.refresh_refused
     = (Thrown (runtime_error "Connection refused"),
        mkWorld (Scripted.mk [inr Scenario.sync_reply] [] 0)
          (Requested (mkRequest "GET" (Scenario.base ++ "/images") None)
           :: refreshing_of Scenario.vault Scenario.old_xenial
           ++ refreshing_of Scenario.vault Scenario.fresh_bionic)).
Proof.
  split.
  - apply (proj1 (proj2 (best_effort_lookup_is_contained Scenario.vault 3 ImageOnly
                           Scenario.xenial_query Scenario.keep Scripted.monitor
                           Scenario.lookup_refused))
             Scenario.xenial_info Scenario.sync_reply (Scripted.mk [] [] 0)).
    + reflexivity.
    + reflexivity.
    + vm_compute. reflexivity.
  - erewrite (proj2 (proj2 (proj2 (best_effort_lookup_is_contained Scenario.vault 3 ImageOnly
                                     Scenario.xenial_query Scenario.keep Scripted.monitor
                                     Scenario.refresh_refused)))
                _ _ [Scenario.old_xenial] Scenario.fresh_bionic [Scenario.old_xenial]);
      cycle 1.
    + reflexivity.
    + reflexivity.
    + reflexivity.
    + by eexists.
    + reflexivity.
    + vm_compute. reflexivity.
Defined.

(** Against C9 as the specification words it.  For [fetch_image]: the
    failure of the instance lookup is caught, and nothing is logged, the
    effects of the call being its two requests.  For [update_images]: the
    error met with the second tracked image reaches the caller, and the
    third is never refreshed. *)
Lemma lookup_is_not_logged_and_update_images_stops :
  Scenario.fetch Scenario.xenial_query Scenario.lookup_refused
  = (Returned (image_of_info Scenario.xenial_info),
     mkWorld (Scripted.mk [] [] 0)
       [Requested (mkRequest "GET" (Scenario.base ++ "/virtual_machines/primary") None);
        Requested
          (mkRequest "GET" (Scenario.base ++ "/images/" ++ VMImageInfo.id Scenario.xenial_info)
             None)])
  /\ update_images Scenario.vault 3 ImageOnly Scenario.keep Scripted.monitor
                   Scenario.refresh_refused
     = (Thrown (runtime_error "Connection refused"),
        mkWorld (Scripted.mk [inr Scenario.sync_reply] [] 0)
          [Requested (mkRequest "GET" (Scenario.base ++ "/images") None);
           Logged Level.info "lxd image vault" "Checking if 'xenial' needs updating…";
           Requested
             (mkRequest "POST"
                (Scenario.base ++ "/images/" ++ VMImageInfo.id Scenario.xenial_info
                 ++ "/refresh") None);
           Logged Level.info "lxd image vault" "Checking if 'bionic' needs updating…";
           Requested
             (mkRequest "POST"
                (Scenario.base ++ "/images/" ++ VMImageInfo.id Scenario.bionic_info
                 ++ "/refresh") None)]).
Proof. split; vm_compute; reflexivity. Qed.

Lemma poll_error_code_is_swallowed_witness :
  fst (poll_download_operation Scenario.vault 2 Scenario.task_reply Scripted.monitor
                               no_task_complete Scenario.poll_fails) = Returned tt
  /\ fst (fetch_image Scenario.vault 2 ImageOnly Scenario.xenial_query Scenario.keep
                      Scripted.monitor Scenario.pull_fails)
     = Returned (image_of_info Scenario.xenial_info)
  /\ update_images Scenario.vault 2 ImageOnly Scenario.keep Scripted.monitor
                   Scenario.refresh_fails
     = (Returned tt,
        mkWorld (Scripted.mk [] [] 0)
          (Requested (mkRequest "GET" (Scenario.base ++ "/images") None)
           :: refreshing_of Scenario.vault Scenario.old_xenial
           ++ refreshing_of Scenario.vault Scenario.fresh_bionic
           ++ running_turns (task_url_of Scenario.vault Scenario.task_reply) 25 1
           ++ Requested
                (mkRequest "GET" (task_url_of Scenario.vault Scenario.task_reply) None)
           :: refreshing_of Scenario.vault Scenario.old_xenial)).
Proof.
  split; [|split].
  - change 2%nat with (1 + 1)%nat.
    erewrite (proj1 (poll_error_code_is_swallowed Scenario.vault 1 0 Scripted.monitor
                       Scenario.poll_fails)).
    + reflexivity.
    + reflexivity.
    + one_turn. apply turns_none.
    + reflexivity.
    + vm_compute. discriminate.
  - change 2%nat with (1 + 1)%nat.
    erewrite (proj1 (proj2 (poll_error_code_is_swallowed Scenario.vault 1 0 Scripted.monitor
                              Scenario.pull_fails))).
    + reflexivity.
    + reflexivity.
    + reflexivity.
    + reflexivity.
    + reflexivity.
    + reflexivity.
    + one_turn. apply turns_none.
    + reflexivity.
    + vm_compute. discriminate.
  - change 2%nat with (1 + 1)%nat.
    erewrite (proj2 (proj2 (poll_error_code_is_swallowed Scenario.vault 1 0 Scripted.monitor
                              Scenario.refresh_fails))
                ImageOnly Scenario.keep _ _ [Scenario.old_xenial] Scenario.fresh_bionic
                [Scenario.old_xenial]); cycle 1.
    + reflexivity.
    + reflexivity.
    + reflexivity.
    + by eexists.
    + reflexivity.
    + reflexivity.
    + one_turn. apply turns_none.
    + reflexivity.
    + vm_compute. discriminate.
    + vm_compute. reflexivity.
Defined.

(** * Further properties *)

(** ** The range of the parsed progress *)

(** X1. The progress that [parse_percent_as_int] reads is -1 or lies between
    0 and 999; it is not capped at 100. *)
Theorem parse_percent_as_int_range (progress_string : string) :
  parse_percent_as_int progress_string = -1
  \/ 0 <= parse_percent_as_int progress_string <= 999.
Proof.
  unfold parse_percent_as_int.
  destruct (QRegularExpression.rmatch percent_re progress_string) as [caps|] eqn:Hmatch;
    [right | by left].
  apply rmatch_some in Hmatch as (pre & rest & _ & Hhere & _).
  apply match_here_percent_sound in Hhere as (w & ds & post & -> & _ & _ & Hdigits & Hlen).
  rewrite (toInt_number ds Hdigits Hlen).
  pose proof (number_range ds Hdigits) as Hrange.
  assert (10 ^ Z.of_nat (String.length ds) <= 10 ^ 3) as Hpow
    by (apply Z.pow_le_mono_r; lia).
  change (10 ^ 3) with 1000 in Hpow. lia.
Qed.

(** ** Instance records *)

Lemma string_app_inv_head (p a b : string) : p ++ a = p ++ b -> a = b.
Proof.
  induction p as [|c p IH]; [by rewrite !string_app_empty|].
  rewrite !string_app_cons. intros [= Heq]. by apply IH.
Qed.

(** X2. [has_record_for] issues one GET for the instance; it answers true
    when the daemon answers the request, false when the daemon answers
    not-found, and raises any other transport error. *)
Theorem has_record_for_outcomes {Env : Type} `{Collaborators Env}
    (vault : LXDVMImageVault) (instance : string) (w : World Env) :
  let inquiry :=
    mkRequest "GET" (base_url vault ++ "/virtual-machines/" ++ instance) None in
  let requested := (effects w ++ [Requested inquiry])%list in
  match transport inquiry (env w) with
  | (inr _, env') =>
      has_record_for vault instance w = (Returned true, mkWorld env' requested)
  | (inl NotFound, env') =>
      has_record_for vault instance w = (Returned false, mkWorld env' requested)
  | (inl (RequestFailed what), env') =>
      has_record_for vault instance w
      = (Thrown (runtime_error what), mkWorld env' requested)
  end.
Proof.
  intros inquiry requested. unfold has_record_for, try_catch, bind, lxd_request.
  fold inquiry. destruct (transport inquiry (env w)) as [[[|what]|json] env']; reflexivity.
Qed.

(** X3. [remove] and [has_record_for] address the instance under one and the
    same resource, and the lookup that opens [fetch_image] addresses another
    one: for no instance name does it ask what [has_record_for] asks. *)
Theorem instance_lookup_asks_another_resource {Env : Type} `{Collaborators Env}
    (vault : LXDVMImageVault) (query : Query) (w : World Env) :
  exists lookup inquiry deletion,
    effects (after_lookup vault query w) = (effects w ++ [Requested lookup])%list
    /\ effects (snd (has_record_for vault (name query) w))
       = (effects w ++ [Requested inquiry])%list
    /\ (exists added,
          effects (snd (remove vault (name query) w))
          = (effects w ++ Requested deletion :: added)%list)
    /\ url deletion = url inquiry
    /\ verb lookup = verb inquiry
    /\ url lookup <> url inquiry.
Proof.
  exists (mkRequest "GET" (base_url vault ++ "/virtual_machines/" ++ name query) None),
         (mkRequest "GET" (base_url vault ++ "/virtual-machines/" ++ name query) None),
         (mkRequest "DELETE" (base_url vault ++ "/virtual-machines/" ++ name query) None).
  split; [by rewrite after_lookup_eq|]. split; [|split; [|split; [|split]]].
  - unfold has_record_for, try_catch, bind, lxd_request.
    destruct (transport _ _) as [[[|what]|json] env']; reflexivity.
  - unfold remove, try_catch, bind, lxd_request, log, record.
    destruct (transport _ _) as [[[|what]|json] env']; cbn.
    + eexists. by rewrite <- app_assoc.
    + by exists [].
    + by exists [].
  - reflexivity.
  - reflexivity.
  - cbn [url]. intros Heq. apply string_app_inv_head in Heq. discriminate Heq.
Qed.

(** ** The failures of [fetch_image] *)

Section FetchFailures.

Context {Env : Type} `{Collaborators Env}.

Lemma query_type_allowed_false (query : Query) :
  query_type query <> Alias -> is_image_url_supported = false ->
  query_type_allowed query = false.
Proof.
  intros Hkind Hunsupported. unfold query_type_allowed. rewrite Hunsupported.
  destruct (query_type query); [done | reflexivity | reflexivity].
Qed.

Lemma fetch_image_main vault fuel fetch_type query prepare
    (monitor : ProgressMonitor Env) (w : World Env) info :
  query_type_allowed query = true ->
  info_for vault query = inr info ->
  fetch_image vault fuel fetch_type query prepare monitor w =
  (let* _ :=
     try_catch
       (let* json_reply :=
          lxd_request "GET" (base_url vault ++ "/images/" ++ VMImageInfo.id info) None in
        ret tt)
       (not_found_exception
          (let* json_reply :=
             lxd_request "POST" (base_url vault ++ "/images")
               (Some {[ "source" := JObject (source_object_for info query) ]}) in
           poll_download_operation vault fuel json_reply monitor no_task_complete)) in
   ret (image_of_info info)) (after_lookup vault query w).
Proof.
  intros Hallowed Hinfo. rewrite fetch_image_resumes, Hallowed, Hinfo. cbn [lift].
  by rewrite (bind_returned (ret info) _ _ info _ eq_refl).
Qed.

End FetchFailures.

(** X4. A query that is not an alias, on a platform without support for image
    URLs, makes [fetch_image] fail with "http and file based images are not
    supported"; by then it has looked the instance up and done nothing
    else: no resolution, no probe, no pull. *)
Theorem fetch_image_rejects_unsupported_query {Env : Type} `{Collaborators Env}
    (vault : LXDVMImageVault) (fuel : nat) (fetch_type : FetchType) (query : Query)
    (prepare : PrepareAction) (monitor : ProgressMonitor Env) (w : World Env) :
  query_type query <> Alias ->
  is_image_url_supported = false ->
  fst (fetch_image vault fuel fetch_type query prepare monitor w)
  = Thrown (runtime_error "http and file based images are not supported")
  /\ effects (snd (fetch_image vault fuel fetch_type query prepare monitor w))
     = (effects w
        ++ [Requested
              (mkRequest "GET" (base_url vault ++ "/virtual_machines/" ++ name query)
                         None)])%list.
Proof.
  intros Hkind Hunsupported.
  rewrite fetch_image_resumes, (query_type_allowed_false query Hkind Hunsupported).
  by rewrite after_lookup_eq.
Qed.

Lemma fetch_image_rejects_unsupported_query_witness :
  fst (Scenario.fetch Cases.url_query Cases.untouched)
  = Thrown (runtime_error "http and file based images are not supported")
  /\ effects (snd (Scenario.fetch Cases.url_query Cases.untouched))
     = [Requested (mkRequest "GET" (Scenario.base ++ "/virtual_machines/primary") None)].
Proof.
  apply (fetch_image_rejects_unsupported_query Scenario.vault 3 ImageOnly Cases.url_query
           Scenario.keep Scripted.monitor Cases.untouched).
  - discriminate.
  - reflexivity.
Defined.

(** X5. When the catalog resolution fails, [fetch_image] fails with the very
    error of [info_for], and has requested nothing but the instance
    lookup. *)
Theorem fetch_image_fails_as_resolution_does {Env : Type} `{Collaborators Env}
    (vault : LXDVMImageVault) (fuel : nat) (fetch_type : FetchType) (query : Query)
    (prepare : PrepareAction) (monitor : ProgressMonitor Env) (w : World Env)
    (e : exception) :
  query_type_allowed query = true ->
  info_for vault query = inl e ->
  fst (fetch_image vault fuel fetch_type query prepare monitor w) = Thrown e
  /\ effects (snd (fetch_image vault fuel fetch_type query prepare monitor w))
     = (effects w
        ++ [Requested
              (mkRequest "GET" (base_url vault ++ "/virtual_machines/" ++ name query)
                         None)])%list.
Proof.
  intros Hallowed Hinfo. rewrite fetch_image_resumes, Hallowed, Hinfo. cbn [lift].
  unfold bind, throw. by rewrite after_lookup_eq.
Qed.

Lemma fetch_image_fails_as_resolution_does_witness :
  (fst (Scenario.fetch Cases.unknown_query Cases.untouched)
   = Thrown (no_matching_image Cases.unknown_query)
   /\ effects (snd (Scenario.fetch Cases.unknown_query Cases.untouched))
      = [Requested (mkRequest "GET" (Scenario.base ++ "/virtual_machines/primary") None)])
  /\ fst (Scenario.fetch Cases.appliance_query Cases.untouched)
     = Thrown (unknown_remote Cases.appliance_query).
Proof.
  split.
  - apply (fetch_image_fails_as_resolution_does Scenario.vault 3 ImageOnly Cases.unknown_query
             Scenario.keep Scripted.monitor Cases.untouched); reflexivity.
  - apply (fetch_image_fails_as_resolution_does Scenario.vault 3 ImageOnly
             Cases.appliance_query Scenario.keep Scripted.monitor Cases.untouched);
      reflexivity.
Defined.

(** X6. A transport error at the probe, other than not-found, leaves
    [fetch_image] as it is and no pull is attempted; and when the probe
    reports not-found, whatever error the pull request meets (not-found
    included) leaves [fetch_image] too, before any polling. *)
Theorem fetch_image_transport_failures {Env : Type} `{Collaborators Env}
    (vault : LXDVMImageVault) (fuel : nat) (fetch_type : FetchType) (query : Query)
    (prepare : PrepareAction) (monitor : ProgressMonitor Env) (w : World Env)
    (info : VMImageInfo.t) :
  let w0 := after_lookup vault query w in
  let probe := mkRequest "GET" (base_url vault ++ "/images/" ++ VMImageInfo.id info) None in
  let pull :=
    mkRequest "POST" (base_url vault ++ "/images")
              (Some {[ "source" := JObject (source_object_for info query) ]}) in
  query_type_allowed query = true ->
  info_for vault query = inr info ->
  (forall what env1,
      transport probe (env w0) = (inl (RequestFailed what), env1) ->
      fetch_image vault fuel fetch_type query prepare monitor w
      = (Thrown (runtime_error what), mkWorld env1 (effects w0 ++ [Requested probe])))
  /\ (forall env1 failure env2,
        transport probe (env w0) = (inl NotFound, env1) ->
        transport pull env1 = (inl failure, env2) ->
        fetch_image vault fuel fetch_type query prepare monitor w
        = (Thrown (lxd_exception failure),
           mkWorld env2 (effects w0 ++ [Requested probe; Requested pull]))).
Proof.
  intros w0 probe pull Hallowed Hinfo. split.
  - intros what env1 Hprobe.
    rewrite (fetch_image_main vault fuel fetch_type query prepare monitor w info Hallowed Hinfo).
    fold w0. by rewrite (bind_thrown _ _ _ _ _ (probe_failed _ _ w0 what env1 Hprobe)).
  - intros env1 failure env2 Hprobe Hpull.
    rewrite (fetch_image_main vault fuel fetch_type query prepare monitor w info Hallowed Hinfo).
    fold w0. apply bind_thrown.
    rewrite (probe_not_found _ _ w0 env1 Hprobe).
    erewrite bind_thrown; [|apply lxd_request_failed; exact Hpull].
    cbn [effects env]. by rewrite <- app_assoc.
Qed.

Lemma fetch_image_transport_failures_witness :
  fst (Scenario.fetch Scenario.xenial_query Cases.probe_refused)
  = Thrown (runtime_error "Connection refused")
  /\ pulls Scenario.base (effects (snd (Scenario.fetch Scenario.xenial_query
                                                       Cases.probe_refused))) = O
  /\ fst (Scenario.fetch Scenario.xenial_query Cases.pull_refused)
     = Thrown (runtime_error "Connection refused").
Proof.
  pose proof (fetch_image_transport_failures Scenario.vault 3 ImageOnly Scenario.xenial_query
                Scenario.keep Scripted.monitor Cases.probe_refused Scenario.xenial_info
                eq_refl eq_refl) as [Hprobe _].
  pose proof (fetch_image_transport_failures Scenario.vault 3 ImageOnly Scenario.xenial_query
                Scenario.keep Scripted.monitor Cases.pull_refused Scenario.xenial_info
                eq_refl eq_refl) as [_ Hpull].
  unfold Scenario.fetch.
  rewrite (Hprobe "Connection refused" (Scripted.mk [] [] 0)) by (vm_compute; reflexivity).
  rewrite (Hpull (Scripted.mk [inl (RequestFailed "Connection refused")] [] 0)
             (RequestFailed "Connection refused") (Scripted.mk [] [] 0))
    by (vm_compute; reflexivity).
  split; [reflexivity|]. split; [vm_compute; reflexivity | reflexivity].
Defined.

(** X7. When the daemon answers the pull request with anything but a
    deferred task (class "task" with status code 100), [fetch_image] does
    not poll: it returns the image after three requests, without a call of
    the monitor and without spending any of the turns allowed for polling. *)
Theorem fetch_image_synchronous_pull {Env : Type} `{Collaborators Env}
    (vault : LXDVMImageVault) (fuel : nat) (fetch_type : FetchType) (query : Query)
    (prepare : PrepareAction) (monitor : ProgressMonitor Env) (w : World Env)
    (info : VMImageInfo.t) (env1 env2 : Env) (json_reply : gmap string QJsonValue) :
  let lookup :=
    mkRequest "GET" (base_url vault ++ "/virtual_machines/" ++ name query) None in
  let probe := mkRequest "GET" (base_url vault ++ "/images/" ++ VMImageInfo.id info) None in
  let pull :=
    mkRequest "POST" (base_url vault ++ "/images")
              (Some {[ "source" := JObject (source_object_for info query) ]}) in
  query_type_allowed query = true ->
  info_for vault query = inr info ->
  transport probe (env (after_lookup vault query w)) = (inl NotFound, env1) ->
  transport pull env1 = (inr json_reply, env2) ->
  is_task json_reply = false ->
  fetch_image vault fuel fetch_type query prepare monitor w
  = (Returned (image_of_info info),
     mkWorld env2 (effects w ++ [Requested lookup; Requested probe; Requested pull])).
Proof.
  intros lookup probe pull Hallowed Hinfo Hprobe Hpull Hsync.
  rewrite (fetch_image_main vault fuel fetch_type query prepare monitor w info Hallowed Hinfo).
  set (w0 := after_lookup vault query w) in *.
  match goal with
  | |- bind (try_catch ?b ?h) _ _ = _ =>
      assert (try_catch b h w0 =
              (Returned tt,
               mkWorld env2 (effects w0 ++ [Requested probe; Requested pull]))) as Htry
  end.
  { rewrite (probe_not_found _ _ w0 env1 Hprobe).
    erewrite bind_returned by (apply lxd_request_answered; exact Hpull).
    unfold poll_download_operation. rewrite Hsync.
    cbn [ret effects env]. by rewrite <- app_assoc. }
  rewrite (bind_returned _ _ _ _ _ Htry). unfold w0. rewrite after_lookup_eq.
  cbn [ret effects]. by rewrite <- app_assoc.
Qed.

Lemma fetch_image_synchronous_pull_witness :
  Scenario.fetch Scenario.xenial_query Scenario.image_absent
  = (Returned (image_of_info Scenario.xenial_info),
     mkWorld (Scripted.mk [] [] 0)
       [Requested (mkRequest "GET" (Scenario.base ++ "/virtual_machines/primary") None);
        Requested (mkRequest "GET" (Scenario.base ++ "/images/"
                                    ++ VMImageInfo.id Scenario.xenial_info) None);
        Requested (mkRequest "POST" (Scenario.base ++ "/images")
                     (Some {[ "source" :=
                                JObject (source_object_for Scenario.xenial_info
                                                           Scenario.xenial_query) ]}))]).
Proof.
  apply (fetch_image_synchronous_pull Scenario.vault 3 ImageOnly Scenario.xenial_query
           Scenario.keep Scripted.monitor Scenario.image_absent Scenario.xenial_info
           (Scripted.mk [inr Scenario.sync_reply] [] 0) (Scripted.mk [] [] 0)
           Scenario.sync_reply).
  - reflexivity.
  - reflexivity.
  - vm_compute. reflexivity.
  - reflexivity.
  - reflexivity.
Defined.

(** X8. Cancelling a launch: when the first poll of a deferred pull finds it
    running, the monitor answers stop and the daemon carries out the
    cancellation, [fetch_image] fails with the abort exception and returns
    no image; its last two effects are the monitor's refusal and the DELETE
    on the operation. *)
Theorem fetch_image_aborted_pull {Env : Type} `{Collaborators Env}
    (vault : LXDVMImageVault) (fuel : nat) (fetch_type : FetchType) (query : Query)
    (prepare : PrepareAction) (monitor : ProgressMonitor Env) (w : World Env)
    (info : VMImageInfo.t) (json_reply task_reply cancelled : gmap string QJsonValue)
    (env1 env2 env3 env4 env5 : Env) :
  let probe := mkRequest "GET" (base_url vault ++ "/images/" ++ VMImageInfo.id info) None in
  let pull :=
    mkRequest "POST" (base_url vault ++ "/images")
              (Some {[ "source" := JObject (source_object_for info query) ]}) in
  let poll := mkRequest "GET" (task_url_of vault json_reply) None in
  let cancel := mkRequest "DELETE" (task_url_of vault json_reply) None in
  query_type_allowed query = true ->
  info_for vault query = inr info ->
  transport probe (env (after_lookup vault query w)) = (inl NotFound, env1) ->
  transport pull env1 = (inr json_reply, env2) ->
  is_task json_reply = true ->
  transport poll env2 = (inr task_reply, env3) ->
  error_code_of task_reply = 0 ->
  status_code_of task_reply <> 200 ->
  monitor IMAGE (progress_of task_reply) env3 = (false, env4) ->
  transport cancel env4 = (inr cancelled, env5) ->
  fetch_image vault (S fuel) fetch_type query prepare monitor w
  = (Thrown (AbortedDownloadException "Download aborted"),
     mkWorld env5
       (effects (after_lookup vault query w)
        ++ [Requested probe; Requested pull; Requested poll;
            Monitored IMAGE (progress_of task_reply) false; Requested cancel])).
Proof.
  intros probe pull poll cancel Hallowed Hinfo Hprobe Hpull Htask Hpoll Hcode Hstatus
    Hmonitor Hcancel.
  rewrite (fetch_image_main vault (S fuel) fetch_type query prepare monitor w info
             Hallowed Hinfo).
  set (w0 := after_lookup vault query w) in *.
  apply bind_thrown.
  rewrite (probe_not_found _ _ w0 env1 Hprobe).
  erewrite bind_returned by (apply lxd_request_answered; exact Hpull).
  unfold poll_download_operation. rewrite Htask.
  erewrite poll_loop_thrown.
  2:{ apply (poll_once_aborted (task_url_of vault json_reply) monitor no_task_complete
               (mkWorld env2 _) task_reply env3 env4 (inr cancelled) env5);
        [exact Hpoll | exact Hcode | exact Hstatus | exact Hmonitor | exact Hcancel]. }
  cbn [effects env]. by rewrite <- !app_assoc.
Qed.

Lemma fetch_image_aborted_pull_witness :
  fst (Scenario.fetch Scenario.xenial_query Cases.stop_during_pull)
  = Thrown (AbortedDownloadException "Download aborted").
Proof.
  unfold Scenario.fetch.
  rewrite (fetch_image_aborted_pull Scenario.vault 2 ImageOnly Scenario.xenial_query
             Scenario.keep Scripted.monitor Cases.stop_during_pull Scenario.xenial_info
             Scenario.task_reply (Scenario.poll_running Scenario.progress_text)
             Scenario.sync_reply
             (Scripted.mk [inr Scenario.task_reply;
                           inr (Scenario.poll_running Scenario.progress_text);
                           inr Scenario.sync_reply] [false] 0)
             (Scripted.mk [inr (Scenario.poll_running Scenario.progress_text);
                           inr Scenario.sync_reply] [false] 0)
             (Scripted.mk [inr Scenario.sync_reply] [false] 0)
             (Scripted.mk [inr Scenario.sync_reply] [] 0)
             (Scripted.mk [] [] 0)).
  - reflexivity.
  - reflexivity.
  - reflexivity.
  - vm_compute. reflexivity.
  - reflexivity.
  - reflexivity.
  - reflexivity.
  - reflexivity.
  - vm_compute. discriminate.
  - reflexivity.
  - reflexivity.
Defined.

(** ** An image that is already there *)

(** X22. When the probe finds the image on the daemon, [fetch_image]
    requests the instance and the image and nothing else, and returns the
    image made from the catalog metadata: nothing is pulled.  And whatever
    the daemon and the monitor do, a call that returns has issued at most one
    pull. *)
Theorem fetch_image_present_image_is_not_pulled {Env : Type} `{Collaborators Env}
    (vault : LXDVMImageVault) (fuel : nat) (fetch_type : FetchType) (query : Query)
    (prepare : PrepareAction) (monitor : ProgressMonitor Env) (w : World Env) :
  (forall info json env1,
      let lookup :=
        mkRequest "GET" (base_url vault ++ "/virtual_machines/" ++ name query) None in
      let probe :=
        mkRequest "GET" (base_url vault ++ "/images/" ++ VMImageInfo.id info) None in
      query_type_allowed query = true ->
      info_for vault query = inr info ->
      transport probe (env (after_lookup vault query w)) = (inr json, env1) ->
      fetch_image vault fuel fetch_type query prepare monitor w =
      (Returned (image_of_info info),
       mkWorld env1 (effects w ++ [Requested lookup; Requested probe])))
  /\ (forall image w1,
        fetch_image vault fuel fetch_type query prepare monitor w = (Returned image, w1) ->
        (pulls (base_url vault) (effects w1) <= pulls (base_url vault) (effects w) + 1)%nat).
Proof.
  split.
  - intros info json env1 lookup probe Hallowed Hinfo Hprobe.
    rewrite (fetch_image_present vault fuel fetch_type query prepare monitor w info json env1
               Hallowed Hinfo Hprobe).
    rewrite after_lookup_eq. cbn [effects]. by rewrite <- app_assoc.
  - intros image w1 Hfetch. by eapply fetch_image_pulls_at_most_once.
Qed.

Lemma fetch_image_present_image_is_not_pulled_witness :
  Scenario.fetch Scenario.xenial_query Scenario.instance_of_bionic
  = (Returned (image_of_info Scenario.xenial_info),
     mkWorld (Scripted.mk [] [] 0)
       [Requested (mkRequest "GET" (Scenario.base ++ "/virtual_machines/primary") None);
        Requested
          (mkRequest "GET"
             (Scenario.base ++ "/images/" ++ VMImageInfo.id Scenario.xenial_info) None)])
  /\ (pulls Scenario.base
        (effects (snd (Scenario.fetch Scenario.xenial_query Scenario.image_absent)))
      <= 1)%nat.
Proof.
  split.
  - apply (proj1 (fetch_image_present_image_is_not_pulled Scenario.vault 3 ImageOnly
                    Scenario.xenial_query Scenario.keep Scripted.monitor
                    Scenario.instance_of_bionic)
             Scenario.xenial_info Scenario.sync_reply (Scripted.mk [] [] 0)).
    + reflexivity.
    + reflexivity.
    + vm_compute. reflexivity.
  - apply (proj2 (fetch_image_present_image_is_not_pulled Scenario.vault 3 ImageOnly
                    Scenario.xenial_query Scenario.keep Scripted.monitor
                    Scenario.image_absent)
             (image_of_info Scenario.xenial_info)).
    vm_compute. reflexivity.
Defined.

(** ** The ends of the polling loop *)

(** X9. A poll that the daemon answers with not-found ends the polling
    normally, at whichever turn of the loop it comes: the completion callback
    is not called, the monitor is not called again, nothing more is slept. *)
Theorem vanished_operation_ends_polling {Env : Type} `{Collaborators Env}
    (vault : LXDVMImageVault) (n fuel : nat) (json_reply : gmap string QJsonValue)
    (monitor : ProgressMonitor Env) (task_complete : gmap string QJsonValue -> M Env unit)
    (w w_n : World Env) (env' : Env) :
  let poll := mkRequest "GET" (task_url_of vault json_reply) None in
  is_task json_reply = true ->
  turns (task_url_of vault json_reply) monitor n w w_n ->
  transport poll (env w_n) = (inl NotFound, env') ->
  poll_download_operation vault (n + S fuel) json_reply monitor task_complete w
  = (Returned tt, mkWorld env' (effects w_n ++ [Requested poll])).
Proof.
  intros poll Htask Hturns Hpoll.
  rewrite (poll_download_operation_turns vault n (S fuel) json_reply monitor task_complete
             w w_n Htask Hturns).
  apply poll_loop_break. by apply poll_once_gone.
Qed.

Lemma vanished_operation_ends_polling_witness :
  Scenario.poll Cases.operation_gone
  = (Returned tt,
     mkWorld (Scripted.mk [] [] 0)
       (running_turns (task_url_of Scenario.vault Scenario.task_reply) 25 2
        ++ [Requested
              (mkRequest "GET" (task_url_of Scenario.vault Scenario.task_reply) None)])).
Proof.
  unfold Scenario.poll. change 3%nat with (2 + 1)%nat.
  erewrite (vanished_operation_ends_polling Scenario.vault 2 0 Scenario.task_reply
              Scripted.monitor no_task_complete Cases.operation_gone); cycle 1.
  - reflexivity.
  - one_turn. one_turn. apply turns_none.
  - reflexivity.
  - vm_compute. reflexivity.
Defined.



(** ** The shape of a polling run *)

Section PollingShape.

Context {Env : Type} `{Collaborators Env}.
Variables (task_url : string) (monitor : ProgressMonitor Env)
          (task_complete : gmap string QJsonValue -> M Env unit).

Hypothesis task_complete_logs : forall metadata, appends is_log (task_complete metadata).

(** One turn either goes on, after a poll, the monitor's consent and a
    sleep, or it is the last one. *)
Lemma poll_once_shape (w : World Env) :
  (exists progress w1,
      poll_once task_url monitor task_complete w = (Returned Continue, w1)
      /\ effects w1 =
         (effects w ++ [Requested (mkRequest "GET" task_url None);
                        Monitored IMAGE progress true; Slept 1])%list)
  \/ (exists result w1,
        poll_once task_url monitor task_complete w = (result, w1)
        /\ result <> Returned Continue
        /\ ((exists logs,
               Forall is_log logs
               /\ effects w1
                  = (effects w ++ Requested (mkRequest "GET" task_url None) :: logs)%list)
            \/ (exists progress,
                  effects w1 =
                  (effects w ++ [Requested (mkRequest "GET" task_url None);
                                 Monitored IMAGE progress false;
                                 Requested (mkRequest "DELETE" task_url None)])%list))).
Proof.
  unfold poll_once, try_catch, bind, lxd_request, call_monitor, sleep_for, record,
    throw, ret, not_found_exception.
  destruct (transport (mkRequest "GET" task_url None) (env w))
    as [[[|what]|task_reply] env1]; cbn.
  - right. eexists _, _. split; [reflexivity|]. split; [discriminate|].
    left. exists []. split; [constructor | reflexivity].
  - right. eexists _, _. split; [reflexivity|]. split; [discriminate|].
    left. exists []. split; [constructor | reflexivity].
  - destruct (negb _).
    { right. eexists _, _. split; [reflexivity|]. split; [discriminate|].
      left. exists []. split; [constructor | reflexivity]. }
    destruct (_ =? 200).
    + right.
      match goal with
      | |- context [task_complete ?md ?w0] =>
          destruct (task_complete_logs md w0) as (logs & Hlogs & Hall);
          destruct (task_complete md w0) as [[[]|e|] w1]
      end; cbn [snd effects] in Hlogs; cbn.
      * eexists _, _. split; [reflexivity|]. split; [discriminate|].
        left. exists logs. split; [exact Hall|]. by rewrite Hlogs, <- app_assoc.
      * destruct e; cbn.
        -- eexists _, _. split; [reflexivity|]. split; [discriminate|].
           left. exists logs. split; [exact Hall|]. by rewrite Hlogs, <- app_assoc.
        -- eexists _, _. split; [reflexivity|]. split; [discriminate|].
           left. exists logs. split; [exact Hall|]. by rewrite Hlogs, <- app_assoc.
        -- eexists _, _. split; [reflexivity|]. split; [discriminate|].
           left. exists logs. split; [exact Hall|]. by rewrite Hlogs, <- app_assoc.
      * eexists _, _. split; [reflexivity|]. split; [discriminate|].
        left. exists logs. split; [exact Hall|]. by rewrite Hlogs, <- app_assoc.
    + destruct (monitor _ _ _) as [[] env2]; cbn.
      * left. eexists _, _. split; [reflexivity|]. cbn. by rewrite <- !app_assoc.
      * right. destruct (transport (mkRequest "DELETE" task_url None) env2)
          as [[[|what]|json] env3]; cbn.
        -- eexists _, _. split; [reflexivity|]. split; [discriminate|].
           right. eexists. by rewrite <- !app_assoc.
        -- eexists _, _. split; [reflexivity|]. split; [discriminate|].
           right. eexists. by rewrite <- !app_assoc.
        -- eexists _, _. split; [reflexivity|]. split; [discriminate|].
           right. eexists. by rewrite <- !app_assoc.
Qed.

Lemma poll_loop_shape (fuel : nat) (w : World Env) :
  exists added,
    effects (snd (poll_loop fuel task_url monitor task_complete w))
    = (effects w ++ added)%list
    /\ polling_trace task_url added.
Proof.
  revert w. induction fuel as [|fuel IH]; intros w; cbn [poll_loop].
  - exists []. split; [by rewrite app_nil_r | constructor].
  - destruct (poll_once_shape w)
      as [(progress & w1 & Honce & Heffects)
         |(result & w1 & Honce & Hlast & Hshape)].
    + rewrite (bind_returned _ _ _ _ _ Honce).
      destruct (IH w1) as (added & Hadded & Htrace).
      eexists. split; [by rewrite Hadded, Heffects, <- app_assoc|].
      by apply polling_turn.
    + unfold bind. rewrite Honce.
      assert (exists added, effects w1 = (effects w ++ added)%list
                            /\ polling_trace task_url added) as Hw1.
      { destruct Hshape as [(logs & Hall & ->)|(progress & ->)].
        - eexists. split; [reflexivity|]. by apply polling_last.
        - eexists. split; [reflexivity|]. apply polling_cancelled. }
      destruct result as [[]|e|]; cbn [snd ret]; done.
Qed.

End PollingShape.

Lemma no_task_complete_logs {Env : Type} (metadata : gmap string QJsonValue) :
  appends is_log (no_task_complete (Env := Env) metadata).
Proof. intros w. exists []. split; [by rewrite app_nil_r | constructor]. Qed.

Lemma refresh_complete_logs {Env : Type} (release : string)
    (metadata : gmap string QJsonValue) :
  appends is_log (refresh_complete (Env := Env) release metadata).
Proof.
  intros w. unfold refresh_complete.
  destruct (QJson.toBool _); eexists; (split; [reflexivity|]); by repeat constructor.
Qed.

(** X11. What one call of [poll_download_operation] adds to the effects,
    whatever the daemon and the monitor do, is a run of turns, each a GET on
    the operation, the monitor's consent and a sleep of one second, ended
    (unless the turns are used up) by one more GET on the operation that is
    followed by what the completion callback logs, or by the monitor's
    refusal and the DELETE on the operation.  So the loop requests nothing
    but the operation, sleeps only after the monitor has consented, and
    cancels at most once, as its last act. *)
Theorem polling_follows_the_state_machine {Env : Type} `{Collaborators Env}
    (vault : LXDVMImageVault) (fuel : nat) (json_reply : gmap string QJsonValue)
    (monitor : ProgressMonitor Env) (task_complete : gmap string QJsonValue -> M Env unit)
    (w : World Env) :
  (forall metadata, appends is_log (task_complete metadata)) ->
  exists added,
    effects (snd (poll_download_operation vault fuel json_reply monitor task_complete w))
    = (effects w ++ added)%list
    /\ polling_trace (task_url_of vault json_reply) added.
Proof.
  intros Hlogs. unfold poll_download_operation.
  destruct (is_task json_reply); [by apply poll_loop_shape|].
  exists []. split; [by rewrite app_nil_r | constructor].
Qed.

Lemma polling_follows_the_state_machine_witness :
  effects (snd (Scenario.poll Cases.two_turns_then_done))
  = (running_turns (task_url_of Scenario.vault Scenario.task_reply) 25 2
     ++ [Requested (mkRequest "GET" (task_url_of Scenario.vault Scenario.task_reply) None)])%list
  /\ polling_trace (task_url_of Scenario.vault Scenario.task_reply)
       (effects (snd (Scenario.poll Cases.two_turns_then_done))).
Proof.
  split; [vm_compute; reflexivity|].
  destruct (polling_follows_the_state_machine Scenario.vault 3 Scenario.task_reply
              Scripted.monitor no_task_complete Cases.two_turns_then_done
              no_task_complete_logs) as (added & Heffects & Htrace).
  unfold Scenario.poll. rewrite Heffects. exact Htrace.
Defined.

(** X12. The loop has no deadline of its own: as long as the daemon reports
    the operation running and the monitor consents, every turn is a poll, a
    call of the monitor and a sleep, and after any number of turns the call
    has neither returned nor failed. *)
Theorem polling_has_no_deadline {Env : Type} `{Collaborators Env}
    (vault : LXDVMImageVault) (json_reply task_reply : gmap string QJsonValue)
    (monitor : ProgressMonitor Env) (task_complete : gmap string QJsonValue -> M Env unit)
    (steady : Env -> Prop) :
  let poll := mkRequest "GET" (task_url_of vault json_reply) None in
  is_task json_reply = true ->
  error_code_of task_reply = 0 ->
  status_code_of task_reply <> 200 ->
  (forall e, steady e ->
     exists e1 e2,
       transport poll e = (inr task_reply, e1)
       /\ monitor IMAGE (progress_of task_reply) e1 = (true, e2)
       /\ steady e2) ->
  forall (fuel : nat) (w : World Env),
    steady (env w) ->
    exists w',
      poll_download_operation vault fuel json_reply monitor task_complete w
      = (OutOfFuel, w')
      /\ steady (env w')
      /\ effects w' =
         (effects w
          ++ running_turns (task_url_of vault json_reply) (progress_of task_reply) fuel)%list.
Proof.
  intros poll Htask Hcode Hstatus Hsteady fuel.
  unfold poll_download_operation. rewrite Htask.
  induction fuel as [|fuel IH]; intros w Hw; cbn [poll_loop running_turns].
  - exists w. split; [reflexivity|]. split; [exact Hw | by rewrite app_nil_r].
  - destruct (Hsteady (env w) Hw) as (e1 & e2 & Hpoll & Hmonitor & He2).
    rewrite (bind_returned _ _ _ _ _
               (poll_once_going_on _ monitor task_complete w task_reply e1 e2
                  Hpoll Hcode Hstatus Hmonitor)).
    destruct (IH (mkWorld e2 (effects w ++ [Requested poll;
                                            Monitored IMAGE (progress_of task_reply) true;
                                            Slept 1])) He2)
      as (w' & Hrun & Hw' & Heffects).
    exists w'. split; [exact Hrun|]. split; [exact Hw'|].
    rewrite Heffects. cbn [effects]. by rewrite <- app_assoc.
Qed.

Lemma polling_has_no_deadline_witness :
  exists w',
    poll_download_operation Scenario.vault 5 Scenario.task_reply go_on no_task_complete
                            Cases.always_running = (OutOfFuel, w')
    /\ effects w' =
       running_turns (task_url_of Scenario.vault Scenario.task_reply) 25 5.
Proof.
  destruct (polling_has_no_deadline Scenario.vault Scenario.task_reply
              (Scenario.poll_running Scenario.progress_text) go_on no_task_complete
              (fun e => Obliging.listing e = Scenario.poll_running Scenario.progress_text))
    with (fuel := 5%nat) (w := Cases.always_running)
    as (w' & Hrun & _ & Heffects).
  - reflexivity.
  - reflexivity.
  - vm_compute. discriminate.
  - intros [listing] Hlisting. cbn in Hlisting. subst listing.
    eexists _, _. split; [reflexivity|]. split; reflexivity.
  - reflexivity.
  - exists w'. split; [exact Hrun|]. exact Heffects.
Defined.

(** ** What the sweeps never do *)

Section Appending.

Context {Env : Type} `{Collaborators Env}.

Lemma appends_ret {A : Type} (P : effect -> Prop) (a : A) : appends (Env := Env) P (ret a).
Proof. intros w. exists []. split; [by rewrite app_nil_r | constructor]. Qed.

Lemma appends_throw {A : Type} (P : effect -> Prop) e :
  appends (Env := Env) P (throw (A := A) e).
Proof. intros w. exists []. split; [by rewrite app_nil_r | constructor]. Qed.

Lemma appends_out_of_fuel {A : Type} (P : effect -> Prop) :
  appends (Env := Env) P (out_of_fuel (A := A)).
Proof. intros w. exists []. split; [by rewrite app_nil_r | constructor]. Qed.

Lemma appends_now (P : effect -> Prop) : appends (Env := Env) P now.
Proof.
  intros w. unfold now. destruct (system_clock_now (env w)) as [t env'].
  exists []. split; [by rewrite app_nil_r | constructor].
Qed.

Lemma appends_weaken {A : Type} (P Q : effect -> Prop) (c : M Env A) :
  (forall ev, P ev -> Q ev) -> appends P c -> appends Q c.
Proof.
  intros Himpl Hc w. destruct (Hc w) as (added & Hadded & Hall).
  exists added. split; [exact Hadded|]. by eapply Forall_impl.
Qed.

Lemma appends_bind {A B : Type} (P : effect -> Prop) (c : M Env A) (k : A -> M Env B) :
  appends P c -> (forall a, appends P (k a)) -> appends P (bind c k).
Proof.
  intros Hc Hk w. unfold bind. destruct (Hc w) as (added & Hadded & Hall).
  destruct (c w) as [[a|e|] w1]; cbn [snd] in *.
  - destruct (Hk a w1) as (added' & Hadded' & Hall').
    exists (added ++ added')%list.
    split; [by rewrite Hadded', Hadded, <- app_assoc | by apply Forall_app].
  - by exists added.
  - by exists added.
Qed.

Lemma appends_try_catch {A : Type} (P : effect -> Prop) (c : M Env A) handler :
  appends P c -> (forall e k, handler e = Some k -> appends P k) ->
  appends P (try_catch c handler).
Proof.
  intros Hc Hh w. unfold try_catch. destruct (Hc w) as (added & Hadded & Hall).
  destruct (c w) as [[a|e|] w1]; cbn [snd] in *.
  - by exists added.
  - destruct (handler e) as [k|] eqn:Hk; [|by exists added].
    destruct (Hh e k Hk w1) as (added' & Hadded' & Hall').
    exists (added ++ added')%list.
    split; [by rewrite Hadded', Hadded, <- app_assoc | by apply Forall_app].
  - by exists added.
Qed.

Lemma appends_lxd_request (P : effect -> Prop) method target json_data :
  P (Requested (mkRequest method target json_data)) ->
  appends P (lxd_request method target json_data).
Proof.
  intros HP w. unfold lxd_request.
  destruct (transport _ _) as [[failure|json] env']; cbn [snd effects];
    eexists; (split; [reflexivity|]); by repeat constructor.
Qed.

Lemma appends_call_monitor (P : effect -> Prop) (monitor : ProgressMonitor Env)
    type progress :
  (forall continue, P (Monitored type progress continue)) ->
  appends P (call_monitor monitor type progress).
Proof.
  intros HP w. unfold call_monitor. destruct (monitor _ _ _) as [b env'].
  eexists. split; [reflexivity|]. by repeat constructor.
Qed.

Lemma appends_record (P : effect -> Prop) ev : P ev -> appends (Env := Env) P (record ev).
Proof. intros HP w. eexists. split; [reflexivity|]. by repeat constructor. Qed.

Lemma appends_for_each {A : Type} (Q : A -> effect -> Prop) (l : list A)
    (body : A -> M Env unit) :
  (forall x, x ∈ l -> appends (Q x) (body x)) ->
  appends (fun ev => exists x, x ∈ l /\ Q x ev) (for_each l body).
Proof.
  induction l as [|x l IH]; intros Hbody; cbn [for_each]; [apply appends_ret|].
  apply appends_bind.
  - apply (appends_weaken (Q x)); [|apply Hbody; by left].
    intros ev Hev. exists x. split; [by left | exact Hev].
  - intros _. eapply appends_weaken; [|apply IH].
    + intros ev (y & Hy & Hev). exists y. split; [by right | exact Hev].
    + intros y Hy. apply Hbody. by right.
Qed.

(** Polling appends nothing that a predicate true of every effect other
    than a POST refuses. *)
Lemma appends_poll_download_operation (P : effect -> Prop) vault fuel json_reply
    (monitor : ProgressMonitor Env) task_complete :
  (forall ev, (forall r, ev = Requested r -> verb r <> "POST") -> P ev) ->
  (forall metadata, appends P (task_complete metadata)) ->
  appends P (poll_download_operation vault fuel json_reply monitor task_complete).
Proof.
  intros HP Htc. unfold poll_download_operation.
  destruct (is_task json_reply); [|apply appends_ret].
  induction fuel as [|fuel IH]; cbn [poll_loop]; [apply appends_out_of_fuel|].
  apply appends_bind; [|intros []; [apply appends_ret | exact IH]].
  unfold poll_once. apply appends_try_catch.
  - apply appends_bind.
    { apply appends_lxd_request. apply HP. intros r [= <-]. discriminate. }
    intros task_reply. destruct (negb _); [apply appends_ret|].
    destruct (_ =? 200).
    + apply appends_bind; [apply Htc | intros; apply appends_ret].
    + apply appends_bind.
      { apply appends_call_monitor. intros b. apply HP. intros r [=]. }
      intros [].
      * apply appends_bind; [|intros; apply appends_ret].
        apply appends_record. apply HP. intros r [=].
      * apply appends_bind; [|intros; apply appends_throw].
        apply appends_lxd_request. apply HP. intros r [= <-]. discriminate.
  - intros [] k; cbn; intros [= <-]. apply appends_ret.
Qed.

Lemma prune_image_appends vault image :
  appends (fun ev => tracked image /\ ev ∈ removal_of vault image)
          (prune_image vault image).
Proof.
  unfold prune_image. rewrite contains_tracked.
  destruct (decide (tracked image)) as [Htracked|Huntracked].
  - rewrite bool_decide_eq_true_2 by done.
    apply appends_bind; [apply appends_now|]. intros current.
    destruct (_ <=? current); [|apply appends_ret].
    apply appends_bind.
    { apply appends_record. split; [exact Htracked|]. unfold removal_of, category.
      rewrite elem_of_cons. by left. }
    intros _. apply appends_bind; [|intros; apply appends_ret].
    apply appends_lxd_request. split; [exact Htracked|]. unfold removal_of.
    rewrite !elem_of_cons. right. by left.
  - rewrite bool_decide_eq_false_2 by done. apply appends_ret.
Qed.

Lemma update_image_appends vault fuel (monitor : ProgressMonitor Env) image :
  appends (fun ev =>
             match ev with
             | Requested r => verb r = "POST" -> tracked image /\ r = refresh_of vault image
             | _ => True
             end)
          (update_image vault fuel monitor image).
Proof.
  unfold update_image. rewrite contains_tracked.
  destruct (decide (tracked image)) as [Htracked|Huntracked].
  - rewrite bool_decide_eq_true_2 by done.
    apply appends_bind; [by apply appends_record|]. intros _.
    apply appends_bind; [by apply appends_lxd_request|]. intros json_reply.
    apply appends_poll_download_operation.
    + intros [r| | |] Hev; try done. intros Hpost. by destruct (Hev r eq_refl).
    + intros metadata. eapply appends_weaken; [|apply refresh_complete_logs].
      by intros [].
  - rewrite bool_decide_eq_false_2 by done. apply appends_ret.
Qed.

End Appending.

(** X13. Whatever the clock and the daemon do, [prune_expired_images] asks
    for the listing and after that does nothing but remove images that the
    listing holds with an [update_source] member: every effect that follows
    the listing request is the log line or the DELETE of such an image.  When
    the listing request fails, nothing follows it. *)
Theorem prune_touches_tracked_images_only {Env : Type} `{Collaborators Env}
    (vault : LXDVMImageVault) (w : World Env) :
  let list_images := mkRequest "GET" (base_url vault ++ "/images") None in
  exists added,
    effects (snd (prune_expired_images vault w))
    = (effects w ++ Requested list_images :: added)%list
    /\ match fst (transport list_images (env w)) with
       | inr listing => Forall (removes_tracked vault (images_of listing)) added
       | inl _ => added = []
       end.
Proof.
  intros list_images. unfold prune_expired_images, bind at 1, lxd_request. fold list_images.
  destruct (transport list_images (env w)) as [[failure|listing] env1]; cbn [fst snd effects].
  - exists []. by split.
  - destruct (appends_for_each (fun image ev => tracked image /\ ev ∈ removal_of vault image)
                (images_of listing) (prune_image vault)
                (fun image _ => prune_image_appends vault image)
                (mkWorld env1 (effects w ++ [Requested list_images])))
      as (added & Hadded & Hall).
    exists added. split.
    + unfold images_of in Hadded. rewrite Hadded. cbn [effects]. by rewrite <- app_assoc.
    + eapply Forall_impl; [exact Hall|].
      intros ev (image & Hin & Htracked & Hev). by exists image.
Qed.

(** X14. Whatever the daemon and the monitor do, every POST that
    [update_images] issues is the refresh request of an image that the
    listing holds with an [update_source] member: an untracked image is
    never refreshed.  When the listing request fails, nothing follows it. *)
Theorem update_refreshes_tracked_images_only {Env : Type} `{Collaborators Env}
    (vault : LXDVMImageVault) (fuel : nat) (fetch_type : FetchType)
    (prepare : PrepareAction) (monitor : ProgressMonitor Env) (w : World Env) :
  let list_images := mkRequest "GET" (base_url vault ++ "/images") None in
  exists added,
    effects (snd (update_images vault fuel fetch_type prepare monitor w))
    = (effects w ++ Requested list_images :: added)%list
    /\ match fst (transport list_images (env w)) with
       | inr listing => Forall (refreshes_tracked_only vault (images_of listing)) added
       | inl _ => added = []
       end.
Proof.
  intros list_images. unfold update_images, bind at 1, lxd_request. fold list_images.
  destruct (transport list_images (env w)) as [[failure|listing] env1]; cbn [fst snd effects].
  - exists []. by split.
  - destruct (appends_for_each
                (fun image ev =>
                   match ev with
                   | Requested r =>
                       verb r = "POST" -> tracked image /\ r = refresh_of vault image
                   | _ => True
                   end)
                (images_of listing) (update_image vault fuel monitor)
                (fun image _ => update_image_appends vault fuel monitor image)
                (mkWorld env1 (effects w ++ [Requested list_images])))
      as (added & Hadded & Hall).
    exists added. split.
    + unfold images_of in Hadded. rewrite Hadded. cbn [effects]. by rewrite <- app_assoc.
    + eapply Forall_impl; [exact Hall|].
      intros [r| | |] (image & Hin & Hev); try done.
      intros Hpost. destruct (Hev Hpost) as [Htracked ->]. by exists image.
Qed.

(** ** The listing *)

Section Listing.

Context {Env : Type} `{Collaborators Env}.

Lemma update_image_synchronous vault fuel (monitor : ProgressMonitor Env) image
    (w : World Env) json env' :
  tracked image ->
  transport (refresh_of vault image) (env w) = (inr json, env') ->
  is_task json = false ->
  update_image vault fuel monitor image w
  = (Returned tt, mkWorld env' (effects w ++ refreshing_of vault image)).
Proof.
  intros Htracked Hrefresh Hsync. unfold update_image.
  rewrite contains_tracked, bool_decide_eq_true_2 by done.
  unfold bind at 1, log, record. cbn [fst snd].
  erewrite bind_returned by (apply lxd_request_answered; exact Hrefresh).
  unfold poll_download_operation. rewrite Hsync.
  unfold ret, refreshing_of, refresh_of, category. cbn [effects env].
  by rewrite <- app_assoc.
Qed.

Lemma update_image_untracked vault fuel (monitor : ProgressMonitor Env) image
    (w : World Env) :
  ~ tracked image -> update_image vault fuel monitor image w = (Returned tt, w).
Proof.
  intros Huntracked. unfold update_image.
  by rewrite contains_tracked, bool_decide_eq_false_2 by done.
Qed.

Lemma refresh_sweep_effects vault fuel (monitor : ProgressMonitor Env) images
    (steady : Env -> Prop) (w : World Env) :
  (forall r e, steady e -> verb r = "POST" ->
     exists json e', transport r e = (inr json, e') /\ is_task json = false /\ steady e') ->
  steady (env w) ->
  exists w',
    for_each images (update_image vault fuel monitor) w = (Returned tt, w')
    /\ effects w' = (effects w ++ refresh_sweep_of vault images)%list.
Proof.
  intros Hpost. revert w.
  induction images as [|image images IH]; intros w Hw; cbn [for_each].
  - exists w. split; [reflexivity|]. unfold refresh_sweep_of. cbn. by rewrite app_nil_r.
  - unfold refresh_sweep_of. cbn [List.map concat]. fold (refresh_sweep_of vault images).
    destruct (decide (tracked image)) as [Htracked|Huntracked].
    + destruct (Hpost (refresh_of vault image) (env w) Hw eq_refl)
        as (json & e' & Hreply & Hsync & He').
      rewrite (bind_returned _ _ _ _ _
                 (update_image_synchronous vault fuel monitor image w json e'
                    Htracked Hreply Hsync)).
      destruct (IH (mkWorld e' (effects w ++ refreshing_of vault image)) He')
        as (w' & Hrest & Heffects).
      exists w'. split; [exact Hrest|]. rewrite Heffects. cbn [effects].
      by rewrite <- app_assoc.
    + rewrite (bind_returned _ _ _ _ _
                 (update_image_untracked vault fuel monitor image w Huntracked)).
      destruct (IH w Hw) as (w' & Hrest & Heffects).
      exists w'. split; [exact Hrest|]. by rewrite Heffects.
Qed.

End Listing.

(** X15. When the listing request fails, both sweeps fail with the
    transport's error and do nothing else; a not-found answer is such a
    failure too, it is not read as an empty listing. *)
Theorem sweeps_fail_as_the_listing_does {Env : Type} `{Collaborators Env}
    (vault : LXDVMImageVault) (fuel : nat) (fetch_type : FetchType)
    (prepare : PrepareAction) (monitor : ProgressMonitor Env) (w : World Env)
    (failure : lxd_failure) (env' : Env) :
  let list_images := mkRequest "GET" (base_url vault ++ "/images") None in
  transport list_images (env w) = (inl failure, env') ->
  prune_expired_images vault w
  = (Thrown (lxd_exception failure), mkWorld env' (effects w ++ [Requested list_images]))
  /\ update_images vault fuel fetch_type prepare monitor w
     = (Thrown (lxd_exception failure),
        mkWorld env' (effects w ++ [Requested list_images])).
Proof.
  intros list_images Hlist. split.
  - unfold prune_expired_images. apply bind_thrown. by apply lxd_request_failed.
  - unfold update_images. apply bind_thrown. by apply lxd_request_failed.
Qed.

Lemma sweeps_fail_as_the_listing_does_witness :
  fst (prune_expired_images Scenario.vault Cases.listing_refused)
  = Thrown (runtime_error "Connection refused")
  /\ fst (update_images Scenario.vault 3 ImageOnly Scenario.keep Scripted.monitor
                        Cases.untouched)
     = Thrown LXDNotFoundException.
Proof.
  pose proof (sweeps_fail_as_the_listing_does Scenario.vault 3 ImageOnly Scenario.keep
                Scripted.monitor Cases.listing_refused
                (RequestFailed "Connection refused") (Scripted.mk [] [] 0)) as Hrefused.
  pose proof (sweeps_fail_as_the_listing_does Scenario.vault 3 ImageOnly Scenario.keep
                Scripted.monitor Cases.untouched NotFound (Scripted.mk [] [] 0)) as Habsent.
  destruct Hrefused as [-> _]; [reflexivity|].
  destruct Habsent as [_ ->]; [reflexivity|].
  split; reflexivity.
Defined.

(** X16. A listing whose [metadata] member is absent, or is not an array, or
    is an empty array, gives both sweeps nothing to do: they return normally
    after the listing request, without reading the clock's verdict on any
    image and without a further request. *)
Theorem sweeps_without_images {Env : Type} `{Collaborators Env}
    (vault : LXDVMImageVault) (fuel : nat) (fetch_type : FetchType)
    (prepare : PrepareAction) (monitor : ProgressMonitor Env) (w : World Env)
    (listing : gmap string QJsonValue) (env' : Env) :
  let list_images := mkRequest "GET" (base_url vault ++ "/images") None in
  transport list_images (env w) = (inr listing, env') ->
  (forall image images, listing !! "metadata" <> Some (JArray (image :: images))) ->
  prune_expired_images vault w
  = (Returned tt, mkWorld env' (effects w ++ [Requested list_images]))
  /\ update_images vault fuel fetch_type prepare monitor w
     = (Returned tt, mkWorld env' (effects w ++ [Requested list_images])).
Proof.
  intros list_images Hlist Hnone.
  assert (QJson.toArray (QJson.value listing "metadata") = []) as Hempty.
  { unfold QJson.value.
    destruct (listing !! "metadata") as [[| | | | |[|image images]|]|] eqn:Hmeta;
      try reflexivity.
    by destruct (Hnone image images). }
  split.
  - unfold prune_expired_images.
    rewrite (bind_returned _ _ _ _ _ (lxd_request_answered _ _ _ w _ _ Hlist)).
    by rewrite Hempty.
  - unfold update_images.
    rewrite (bind_returned _ _ _ _ _ (lxd_request_answered _ _ _ w _ _ Hlist)).
    by rewrite Hempty.
Qed.

Lemma sweeps_without_images_witness :
  prune_expired_images Scenario.vault Cases.listing_without_metadata
  = (Returned tt,
     mkWorld (Scripted.mk [] [] first_of_june)
             [Requested (mkRequest "GET" (Scenario.base ++ "/images") None)])
  /\ update_images Scenario.vault 3 ImageOnly Scenario.keep Scripted.monitor
                   Cases.listing_without_metadata
     = (Returned tt,
        mkWorld (Scripted.mk [] [] first_of_june)
                [Requested (mkRequest "GET" (Scenario.base ++ "/images") None)]).
Proof.
  apply (sweeps_without_images Scenario.vault 3 ImageOnly Scenario.keep Scripted.monitor
           Cases.listing_without_metadata Cases.no_metadata
           (Scripted.mk [] [] first_of_june)).
  - reflexivity.
  - intros image images. vm_compute. discriminate.
Defined.

(** X17. The sweep of [prune_expired_images] stops at the first deletion
    that the daemon does not carry out, wherever in the listing it comes: the
    error reaches the caller, not-found included, and the images after it in
    the listing are neither examined nor removed. *)
Theorem prune_stops_at_failed_deletion {Env : Type} `{Collaborators Env}
    (vault : LXDVMImageVault) (w : World Env) (listing : gmap string QJsonValue)
    (pre : list QJsonValue) (image : QJsonValue) (post : list QJsonValue)
    (w_pre : World Env) (current : Z) (failure : lxd_failure) (env1 env2 env3 : Env) :
  let list_images := mkRequest "GET" (base_url vault ++ "/images") None in
  let deletion :=
    mkRequest "DELETE"
      (base_url vault ++ "/images/"
       ++ QJson.toString (QJson.value (QJson.toObject image) "fingerprint")) None in
  transport list_images (env w) = (inr listing, env1) ->
  QJson.toArray (QJson.value listing "metadata") = (pre ++ image :: post)%list ->
  for_each pre (prune_image vault) (mkWorld env1 (effects w ++ [Requested list_images]))
  = (Returned tt, w_pre) ->
  system_clock_now (env w_pre) = (current, env2) ->
  eligible vault image current ->
  transport deletion env2 = (inl failure, env3) ->
  prune_expired_images vault w
  = (Thrown (lxd_exception failure),
     mkWorld env3 (effects w_pre ++ removal_of vault image)).
Proof.
  intros list_images deletion Hlist Himages Hpre Hclock Heligible Hdeletion.
  unfold prune_expired_images. fold list_images.
  rewrite (bind_returned _ _ _ _ _ (lxd_request_answered _ _ _ w _ _ Hlist)).
  rewrite Himages.
  etransitivity; [exact (for_each_app pre (image :: post) _ _ w_pre Hpre)|].
  cbn [for_each]. apply bind_thrown.
  pose proof (prune_image_eligible vault image w_pre) as Hrun.
  rewrite Hclock in Hrun. cbn [fst snd] in Hrun.
  etransitivity; [exact (Hrun Heligible)|].
  fold deletion. rewrite Hdeletion. reflexivity.
Qed.

Lemma prune_stops_at_failed_deletion_witness :
  prune_expired_images Scenario.vault Cases.deletion_refused
  = (Thrown LXDNotFoundException,
     mkWorld (Scripted.mk [inr Scenario.sync_reply] [] first_of_june)
       (Requested (mkRequest "GET" (Scenario.base ++ "/images") None)
        :: removal_of Scenario.vault Scenario.old_xenial
        ++ removal_of Scenario.vault Scenario.older_bionic)).
Proof.
  erewrite (prune_stops_at_failed_deletion Scenario.vault Cases.deletion_refused _
              [Scenario.old_xenial; Scenario.untracked_xenial] Scenario.older_bionic
              [Scenario.old_xenial]); cycle 1.
  - reflexivity.
  - reflexivity.
  - vm_compute. reflexivity.
  - reflexivity.
  - by_decision.
  - reflexivity.
  - vm_compute. reflexivity.
Defined.

(** X18. When the daemon answers every refresh request at once (with
    anything but a deferred task), [update_images] returns normally having
    logged and requested one refresh for each image of the listing that has
    an [update_source] member, in the order of the listing, and nothing for
    the others. *)
Theorem update_refreshes_each_tracked_image {Env : Type} `{Collaborators Env}
    (vault : LXDVMImageVault) (fuel : nat) (fetch_type : FetchType)
    (prepare : PrepareAction) (monitor : ProgressMonitor Env) (w : World Env)
    (listing : gmap string QJsonValue) (env1 : Env) (steady : Env -> Prop) :
  let list_images := mkRequest "GET" (base_url vault ++ "/images") None in
  (forall r e, steady e -> verb r = "POST" ->
     exists json e', transport r e = (inr json, e') /\ is_task json = false /\ steady e') ->
  transport list_images (env w) = (inr listing, env1) ->
  steady env1 ->
  exists w',
    update_images vault fuel fetch_type prepare monitor w = (Returned tt, w')
    /\ effects w' =
       (effects w ++ Requested list_images
        :: refresh_sweep_of vault (QJson.toArray (QJson.value listing "metadata")))%list.
Proof.
  intros list_images Hpost Hlist Hsteady. unfold update_images. fold list_images.
  rewrite (bind_returned _ _ _ _ _ (lxd_request_answered _ _ _ w _ _ Hlist)).
  destruct (refresh_sweep_effects vault fuel monitor
              (QJson.toArray (QJson.value listing "metadata")) steady
              (mkWorld env1 (effects w ++ [Requested list_images])) Hpost Hsteady)
    as (w' & Hrun & Heffects).
  exists w'. split; [exact Hrun|]. rewrite Heffects. cbn [effects]. by rewrite <- app_assoc.
Qed.

Lemma update_refreshes_each_tracked_image_witness :
  exists w',
    update_images Scenario.vault 0 ImageOnly Scenario.keep go_on Scenario.obliging_daemon
    = (Returned tt, w')
    /\ effects w' =
       (Requested (mkRequest "GET" (Scenario.base ++ "/images") None)
        :: refreshing_of Scenario.vault Scenario.old_xenial
        ++ refreshing_of Scenario.vault Scenario.fresh_bionic)%list.
Proof.
  pose proof (update_refreshes_each_tracked_image Scenario.vault 0 ImageOnly Scenario.keep
                go_on Scenario.obliging_daemon Scenario.three_images
                (Obliging.mk Scenario.three_images)
                (fun e => Obliging.listing e = Scenario.three_images)) as Hsweep.
  destruct Hsweep as (w' & Hrun & Heffects).
  - intros r [listing] Hlisting _. cbn in Hlisting. subst listing.
    eexists _, _. split; [reflexivity|]. split; reflexivity.
  - reflexivity.
  - reflexivity.
  - exists w'. split; [exact Hrun|]. rewrite Heffects. vm_compute. reflexivity.
Defined.

(** ** The source of a pull *)

Lemma prefix_empty (s : string) : String.prefix "" s = true.
Proof. by destruct s. Qed.

Lemma prefix_length (p s : string) :
  String.prefix p s = true -> (String.length p <= String.length s)%nat.
Proof.
  revert p. induction s as [|b s IH]; intros [|a p]; cbn; try lia; try discriminate.
  destruct (ascii_dec a b); [|discriminate]. intros Hprefix. specialize (IH p Hprefix). lia.
Qed.

(** X19. The source of a pull always has six members.  An empty release asks
    for the resolved image by its fingerprint, since every id starts with
    the empty string; a release longer than the id can only be sent as an
    alias. *)
Theorem pull_source_members (info : VMImageInfo.t) (query : Query) :
  size (source_object_for info query) = 6%nat
  /\ (release query = "" ->
      source_object_for info query !! "fingerprint"
      = Some (JString (VMImageInfo.id info))
      /\ source_object_for info query !! "alias" = None)
  /\ ((String.length (VMImageInfo.id info) < String.length (release query))%nat ->
      source_object_for info query !! "alias" = Some (JString (release query))
      /\ source_object_for info query !! "fingerprint" = None).
Proof.
  unfold source_object_for, QStr.startsWith. split; [|split].
  - destruct (String.prefix _ _); by rewrite !map_size_insert_None.
  - intros ->. by rewrite prefix_empty.
  - intros Hlonger.
    destruct (String.prefix (release query) (VMImageInfo.id info)) eqn:Hprefix; [|done].
    apply prefix_length in Hprefix. lia.
Qed.

Lemma pull_source_members_witness :
  source_object_for Scenario.xenial_info
                    (Scenario.query_for "primary" "" "") !! "fingerprint"
  = Some (JString (VMImageInfo.id Scenario.xenial_info))
  /\ source_object_for Scenario.xenial_info
                       (Scenario.query_for "primary"
                          (VMImageInfo.id Scenario.xenial_info ++ "0") "") !! "alias"
     = Some (JString (VMImageInfo.id Scenario.xenial_info ++ "0")).
Proof.
  split.
  - apply (proj1 (proj2 (pull_source_members Scenario.xenial_info
                           (Scenario.query_for "primary" "" ""))) eq_refl).
  - apply (proj2 (proj2 (pull_source_members Scenario.xenial_info
                           (Scenario.query_for "primary"
                              (VMImageInfo.id Scenario.xenial_info ++ "0") "")))).
    vm_compute. lia.
Defined.

(** ** The registered remotes *)

Section Remotes.

Context {Env : Type} `{Collaborators Env}.

Lemma last_supporting_some remote hosts image_host :
  last_supporting remote hosts = Some image_host ->
  image_host ∈ hosts /\ remote ∈ supported_remotes image_host.
Proof.
  induction hosts as [|first hosts IH]; cbn [last_supporting]; [discriminate|].
  destruct (last_supporting remote hosts) as [later|].
  - intros [= <-]. destruct (IH eq_refl) as [Hin Hlists]. split; [by right | exact Hlists].
  - destruct (bool_decide (remote ∈ supported_remotes first)) eqn:Hlists; [|discriminate].
    intros [= <-]. apply bool_decide_eq_true_1 in Hlists. split; [by left | exact Hlists].
Qed.

Lemma last_supporting_none remote hosts :
  last_supporting remote hosts = None ->
  forall image_host, image_host ∈ hosts -> remote ∉ supported_remotes image_host.
Proof.
  induction hosts as [|first hosts IH]; cbn [last_supporting].
  - intros _ image_host Hin. by apply not_elem_of_nil in Hin.
  - destruct (last_supporting remote hosts) as [later|]; [discriminate|].
    destruct (bool_decide (remote ∈ supported_remotes first)) eqn:Hlists; [discriminate|].
    intros _ image_host Hin. apply elem_of_cons in Hin as [->|Hin].
    + by apply bool_decide_eq_false_1 in Hlists.
    + by apply IH.
Qed.

Lemma new_vault_lookup hosts days base remote :
  remote_image_host_map (new_vault hosts days base) !! remote
  = if is_remote_supported remote then last_supporting remote hosts else None.
Proof.
  unfold new_vault. cbn [remote_image_host_map].
  rewrite registered_remotes_lookup, lookup_empty.
  destruct (is_remote_supported remote); [|reflexivity].
  by destruct (last_supporting remote hosts).
Qed.

End Remotes.

(** X20. The map that the constructor builds registers a remote name exactly
    when the platform supports it and some backend lists it, and what it
    registers for the name is a backend of the vault that lists it. *)
Theorem registered_remotes {Env : Type} `{Collaborators Env}
    (hosts : list VMImageHost) (days : Z) (base : string) (remote : string) :
  let vault := new_vault hosts days base in
  (is_Some (remote_image_host_map vault !! remote)
   <-> is_remote_supported remote = true
       /\ exists image_host, image_host ∈ hosts /\ remote ∈ supported_remotes image_host)
  /\ (forall image_host,
        remote_image_host_map vault !! remote = Some image_host ->
        image_host ∈ image_hosts vault /\ remote ∈ supported_remotes image_host).
Proof.
  intros vault. unfold vault. rewrite new_vault_lookup. split.
  - split.
    + intros [image_host Hsome]. destruct (is_remote_supported remote); [|discriminate].
      split; [reflexivity|]. exists image_host. by apply last_supporting_some.
    + intros [-> (image_host & Hin & Hlists)].
      destruct (last_supporting remote hosts) as [later|] eqn:Hlast; [by eexists|].
      destruct (last_supporting_none remote hosts Hlast image_host Hin Hlists).
  - intros image_host. destruct (is_remote_supported remote); [|discriminate].
    apply last_supporting_some.
Qed.

Lemma registered_remotes_witness :
  Scenario.daily_host ∈ image_hosts Scenario.vault
  /\ "release" ∈ supported_remotes Scenario.daily_host.
Proof.
  apply (proj2 (registered_remotes (Env := Scripted.t)
                  [Scenario.release_host; Scenario.daily_host] 1 Scenario.base "release")
           Scenario.daily_host).
  reflexivity.
Defined.

(** X21. A query that names a remote which the platform does not support
    fails with the unknown-remote error, even when a backend of the vault
    lists that remote and could resolve the release. *)
Theorem unsupported_remote_is_unknown {Env : Type} `{Collaborators Env}
    (hosts : list VMImageHost) (days : Z) (base : string) (query : Query) :
  remote_name query <> "" ->
  is_remote_supported (remote_name query) = false ->
  info_for (new_vault hosts days base) query = inl (unknown_remote query).
Proof.
  intros Hnamed Hunsupported. unfold info_for.
  apply String.eqb_neq in Hnamed. rewrite Hnamed. cbn [negb].
  by rewrite new_vault_lookup, Hunsupported.
Qed.

Lemma unsupported_remote_is_unknown_witness :
  "appliance" ∈ supported_remotes Scenario.release_host
  /\ host_info_for Scenario.release_host Cases.appliance_query = Some Scenario.xenial_info
  /\ info_for Scenario.vault Cases.appliance_query
     = inl (unknown_remote Cases.appliance_query).
Proof.
  split; [by_decision|]. split; [reflexivity|].
  apply (unsupported_remote_is_unknown (Env := Scripted.t)
           [Scenario.release_host; Scenario.daily_host] 1 Scenario.base
           Cases.appliance_query).
  - discriminate.
  - reflexivity.
Defined.
